(** * Payment analytics: the filter engine, the aggregations and the filter store

    A shallow embedding of [src/lib/types.ts], [src/lib/analytics.ts] and of
    the zustand store [useFilterStore], followed by the properties the
    specification states about them.

    Conventions of the embedding.
    - The string-literal unions of [types.ts] are inductive types; [_str]
      functions give the string each value is at run time.
    - A JavaScript [number] that holds an amount, a rate or a percentage lives
      in a type [R] with the operations of the class [Number]; the instance
      the program runs on is IEEE binary64 ([float]); the instance [Q] is the
      same code over exact rationals.  Counts and lengths are [nat].
    - A [Date] is its time value, [None] standing for an Invalid Date (NaN).
    - An object used as a dictionary is an association list in insertion
      order, which is the order [Object.entries] yields for keys that are not
      array indices. *)

From Stdlib Require Import List Bool Arith ZArith Lia String QArith Floats.
From Stdlib Require Import Permutation Sorted.
Import ListNotations.
Local Open Scope string_scope.
Local Open Scope list_scope.
Local Open Scope nat_scope.

Set Implicit Arguments.
Set Warnings "-inexact-float".

(* ------------------------------------------------------------------ *)
(** ** Core domain types ([types.ts]) *)

Inductive Currency := MXN | COP | BRL.
Inductive Country := Mexico | Colombia | Brazil.
Inductive PaymentMethod := credit_card | debit_card | pse | pix | boleto.
Inductive Processor := PagosRapid | AcquireLocal | BrasilPay.
Inductive TransactionStatus := approved | declined.
Inductive DeclineCode :=
  | insufficient_funds | card_expired | suspected_fraud | do_not_honor
  | issuer_unavailable | invalid_card_number | transaction_not_permitted
  | processing_error | timeout | lost_stolen_card.
Inductive DeclineType := soft | hard.
Inductive GroupByDimension :=
  | by_country | by_payment_method | by_processor | by_decline_code.
Inductive TimeGranularity := day | week | month.

Definition Country_str (c : Country) : string :=
  match c with Mexico => "Mexico" | Colombia => "Colombia" | Brazil => "Brazil" end.

Definition PaymentMethod_str (m : PaymentMethod) : string :=
  match m with
  | credit_card => "credit_card" | debit_card => "debit_card"
  | pse => "pse" | pix => "pix" | boleto => "boleto"
  end.

Definition Processor_str (p : Processor) : string :=
  match p with
  | PagosRapid => "PagosRapid" | AcquireLocal => "AcquireLocal"
  | BrasilPay => "BrasilPay"
  end.

Definition DeclineCode_str (c : DeclineCode) : string :=
  match c with
  | insufficient_funds => "insufficient_funds"
  | card_expired => "card_expired"
  | suspected_fraud => "suspected_fraud"
  | do_not_honor => "do_not_honor"
  | issuer_unavailable => "issuer_unavailable"
  | invalid_card_number => "invalid_card_number"
  | transaction_not_permitted => "transaction_not_permitted"
  | processing_error => "processing_error"
  | timeout => "timeout"
  | lost_stolen_card => "lost_stolen_card"
  end.

(** [===] on the values of a union: equality of the run-time strings. *)
Definition Country_eqb (a b : Country) : bool :=
  String.eqb (Country_str a) (Country_str b).
Definition PaymentMethod_eqb (a b : PaymentMethod) : bool :=
  String.eqb (PaymentMethod_str a) (PaymentMethod_str b).
Definition Processor_eqb (a b : Processor) : bool :=
  String.eqb (Processor_str a) (Processor_str b).
Definition DeclineCode_eqb (a b : DeclineCode) : bool :=
  String.eqb (DeclineCode_str a) (DeclineCode_str b).
Definition DeclineType_eqb (a b : DeclineType) : bool :=
  match a, b with soft, soft | hard, hard => true | _, _ => false end.
Definition is_approved (s : TransactionStatus) : bool :=
  match s with approved => true | declined => false end.
Definition is_declined (s : TransactionStatus) : bool :=
  match s with declined => true | approved => false end.

(** [Array.prototype.includes]. *)
Definition includes {A : Type} (eqb : A -> A -> bool) (l : list A) (x : A) : bool :=
  existsb (eqb x) l.

(* ------------------------------------------------------------------ *)
(** ** Numbers *)

Class Number (R : Type) := {
  num_zero : R;
  num_add : R -> R -> R;
  num_mul : R -> R -> R;
  num_div : R -> R -> R;
  num_of_nat : nat -> R
}.

(** The arithmetic of the program: IEEE 754 binary64.  A count is converted
    through a 63-bit integer, which is exact for every array length. *)
#[export] Instance Number_float : Number float := {|
  num_zero := 0%float;
  num_add := PrimFloat.add;
  num_mul := PrimFloat.mul;
  num_div := PrimFloat.div;
  num_of_nat n := PrimFloat.of_uint63 (Uint63.of_Z (Z.of_nat n))
|}.

(** The same operations without rounding. *)
#[export] Instance Number_Q : Number Q := {|
  num_zero := 0%Q;
  num_add := Qplus;
  num_mul := Qmult;
  num_div := Qdiv;
  num_of_nat n := inject_Z (Z.of_nat n)
|}.

(** A [Date] is its time value in milliseconds; [None] is an Invalid Date. *)
Definition JSDate := option Z.

(** [a < b] and [a > b] on dates: both sides are converted to numbers, and a
    comparison with NaN is false. *)
Definition Date_lt (a b : JSDate) : bool :=
  match a, b with Some x, Some y => (x <? y)%Z | _, _ => false end.
Definition Date_gt (a b : JSDate) : bool :=
  match a, b with Some x, Some y => (y <? x)%Z | _, _ => false end.

(* ------------------------------------------------------------------ *)
(** ** Records *)

Record Transaction (R : Type) := {
  id : string;
  amount : R;
  currency : Currency;
  country : Country;
  payment_method : PaymentMethod;
  processor : Processor;
  status : TransactionStatus;
  decline_code : option DeclineCode;
  timestamp : string
}.

Record DateRange := { start : option JSDate; end_ : option JSDate }.

Record TransactionFilters := {
  dateRange : DateRange;
  countries : list Country;
  paymentMethods : list PaymentMethod;
  processors : list Processor;
  declineCodes : list DeclineCode;
  declineTypes : list DeclineType
}.

(** [Partial<TransactionFilters>]: every field may be missing. *)
Module Partial.
Record TransactionFilters := {
  dateRange : option DateRange;
  countries : option (list Country);
  paymentMethods : option (list PaymentMethod);
  processors : option (list Processor);
  declineCodes : option (list DeclineCode);
  declineTypes : option (list DeclineType)
}.
End Partial.

(** A complete filter value passed where a partial one is expected. *)
Definition as_partial (f : TransactionFilters) : Partial.TransactionFilters :=
  {| Partial.dateRange := Some (dateRange f);
     Partial.countries := Some (countries f);
     Partial.paymentMethods := Some (paymentMethods f);
     Partial.processors := Some (processors f);
     Partial.declineCodes := Some (declineCodes f);
     Partial.declineTypes := Some (declineTypes f) |}.

(* ------------------------------------------------------------------ *)
(** ** Decline classification *)

Definition softDeclines : list string :=
  ["insufficient_funds"; "issuer_unavailable"; "processing_error"; "timeout"].

Definition hardDeclines : list string :=
  ["card_expired"; "suspected_fraud"; "do_not_honor"; "invalid_card_number";
   "transaction_not_permitted"; "lost_stolen_card"].

(** [classifyDecline] on the string it receives at run time. *)
Definition classifyDecline_str (code : string) : DeclineType :=
  if includes String.eqb softDeclines code then soft
  else if includes String.eqb hardDeclines code then hard
  else hard.

Definition classifyDecline (code : DeclineCode) : DeclineType :=
  classifyDecline_str (DeclineCode_str code).

(* ------------------------------------------------------------------ *)
(** ** Transaction filtering *)

(** [xs && xs.length > 0] *)
Definition populated {A : Type} (xs : option (list A)) : bool :=
  match xs with
  | Some l => 0 <? List.length l
  | None => false
  end.

Definition elements {A : Type} (xs : option (list A)) : list A :=
  match xs with Some l => l | None => [] end.

Section Filtering.
Context {R : Type}.
(** [new Date(s)] for a string [s]: supplied by the JavaScript runtime. *)
Variable Date_of_string : string -> JSDate.

(** The callback of [transactions.filter] in [filterTransactions]; each
    [return false] of the source is a [false] branch here, in order. *)
Definition keeps (filters : Partial.TransactionFilters)
           (transaction : Transaction R) : bool :=
  let txDate := Date_of_string (timestamp transaction) in
  if match Partial.dateRange filters with
     | Some range =>
         match start range with
         | Some s => Date_lt txDate s
         | None => false
         end
     | None => false
     end then false
  else if match Partial.dateRange filters with
     | Some range =>
         match end_ range with
         | Some e => Date_gt txDate e
         | None => false
         end
     | None => false
     end then false
  else if populated (Partial.countries filters)
       && negb (includes Country_eqb (elements (Partial.countries filters))
                         (country transaction)) then false
  else if populated (Partial.paymentMethods filters)
       && negb (includes PaymentMethod_eqb
                         (elements (Partial.paymentMethods filters))
                         (payment_method transaction)) then false
  else if populated (Partial.processors filters)
       && negb (includes Processor_eqb (elements (Partial.processors filters))
                         (processor transaction)) then false
  else if populated (Partial.declineCodes filters)
       && match status transaction, decline_code transaction with
          | declined, Some c =>
              negb (includes DeclineCode_eqb
                             (elements (Partial.declineCodes filters)) c)
          | _, _ => true
          end then false
  else if populated (Partial.declineTypes filters)
       && match status transaction, decline_code transaction with
          | declined, Some c =>
              negb (includes DeclineType_eqb
                             (elements (Partial.declineTypes filters))
                             (classifyDecline c))
          | _, _ => true
          end then false
  else true.

Definition filterTransactions (transactions : list (Transaction R))
           (filters : Partial.TransactionFilters) : list (Transaction R) :=
  filter (keeps filters) transactions.

End Filtering.

(* ------------------------------------------------------------------ *)
(** ** Library functions of the runtime *)

(** [Array.prototype.sort(cmp)]: stable, ordering by the sign of [cmp]. *)
Fixpoint insert_by {A : Type} (cmp : A -> A -> Z) (x : A) (l : list A) : list A :=
  match l with
  | [] => [x]
  | y :: l' => if (cmp x y <=? 0)%Z then x :: l else y :: insert_by cmp x l'
  end.

Fixpoint Array_sort {A : Type} (cmp : A -> A -> Z) (l : list A) : list A :=
  match l with
  | [] => []
  | x :: l' => insert_by cmp x (Array_sort cmp l')
  end.

(** [if (!acc[k]) acc[k] = []; acc[k].push(v)] on a dictionary [acc].  The
    keys of the program are decline codes, dimension values and calendar
    dates: none is an array index or a property of [Object.prototype], so a
    key is found exactly when it was inserted and new keys go last. *)
Fixpoint push_at {K V : Type} (eqb : K -> K -> bool) (k : K) (v : V)
         (acc : list (K * list V)) : list (K * list V) :=
  match acc with
  | [] => [(k, [v])]
  | (k', vs) :: rest =>
      if eqb k' k then (k', vs ++ [v]) :: rest
      else (k', vs) :: push_at eqb k v rest
  end.

(** The difference of two numbers as a comparator result; NaN counts as 0. *)
Definition minus_or_zero (a b : option Z) : Z :=
  match a, b with Some x, Some y => (x - y)%Z | _, _ => 0%Z end.

(* ------------------------------------------------------------------ *)
(** ** Aggregated data structures *)

Module AuthorizationMetrics.
Record t (R : Type) := {
  total : nat;
  approved : nat;
  declined : nat;
  authorizationRate : R;
  totalRevenue : R;
  lostRevenue : R
}.
End AuthorizationMetrics.

Module DeclineCodeAnalysis.
Record t (R : Type) := {
  code : DeclineCode;
  type : DeclineType;
  count : nat;
  percentage : R;
  lostRevenue : R;
  averageAmount : R;
  cumulativePercentage : option R
}.
End DeclineCodeAnalysis.

Module DimensionAggregate.
Record t (R : Type) := {
  dimension : string;
  approved : nat;
  declined : nat;
  total : nat;
  authorizationRate : R;
  totalAmount : R
}.
End DimensionAggregate.

Module TimeSeriesDataPoint.
Record t (R : Type) := {
  date : string;
  timestamp : option Z;
  approved : nat;
  declined : nat;
  total : nat;
  authorizationRate : R
}.
End TimeSeriesDataPoint.

(* ------------------------------------------------------------------ *)
(** ** Aggregation functions *)

Section Aggregation.
Context {R : Type} {num : Number R}.

(** [txns.reduce((sum, t) => sum + t.amount, 0)] *)
Definition sum_amounts (txns : list (Transaction R)) : R :=
  fold_left (fun sum t => num_add sum (amount t)) txns num_zero.

Definition approved_only (txns : list (Transaction R)) : list (Transaction R) :=
  filter (fun t => is_approved (status t)) txns.

Definition declined_only (txns : list (Transaction R)) : list (Transaction R) :=
  filter (fun t => is_declined (status t)) txns.

Definition getAuthorizationRate (transactions : list (Transaction R))
  : AuthorizationMetrics.t R :=
  let total := List.length transactions in
  let approved := List.length (approved_only transactions) in
  let declined := total - approved in
  let totalRevenue := sum_amounts (approved_only transactions) in
  let lostRevenue := sum_amounts (declined_only transactions) in
  {| AuthorizationMetrics.total := total;
     AuthorizationMetrics.approved := approved;
     AuthorizationMetrics.declined := declined;
     AuthorizationMetrics.authorizationRate :=
       if 0 <? total
       then num_mul (num_div (num_of_nat approved) (num_of_nat total))
                    (num_of_nat 100)
       else num_zero;
     AuthorizationMetrics.totalRevenue := totalRevenue;
     AuthorizationMetrics.lostRevenue := lostRevenue |}.

Definition getLostRevenue (transactions : list (Transaction R)) : R :=
  sum_amounts (declined_only transactions).

(** [t.status === 'declined' && t.decline_code !== null] *)
Definition declined_with_code (t : Transaction R) : bool :=
  is_declined (status t)
  && match decline_code t with Some _ => true | None => false end.

(** The grouping [reduce] of [getDeclineImpact].  It runs on transactions that
    passed [declined_with_code], where [t.decline_code!] is a code. *)
Definition group_by_code (declined : list (Transaction R))
  : list (DeclineCode * list (Transaction R)) :=
  fold_left
    (fun acc t =>
       match decline_code t with
       | Some code => push_at DeclineCode_eqb code t acc
       | None => acc
       end)
    declined [].

(** The running total of the last [map] of [getDeclineImpact]. *)
Fixpoint accumulate (cumulative : R) (analysis : list (DeclineCodeAnalysis.t R))
  : list (DeclineCodeAnalysis.t R) :=
  match analysis with
  | [] => []
  | item :: rest =>
      let cumulative := num_add cumulative (DeclineCodeAnalysis.percentage item) in
      {| DeclineCodeAnalysis.code := DeclineCodeAnalysis.code item;
         DeclineCodeAnalysis.type := DeclineCodeAnalysis.type item;
         DeclineCodeAnalysis.count := DeclineCodeAnalysis.count item;
         DeclineCodeAnalysis.percentage := DeclineCodeAnalysis.percentage item;
         DeclineCodeAnalysis.lostRevenue := DeclineCodeAnalysis.lostRevenue item;
         DeclineCodeAnalysis.averageAmount := DeclineCodeAnalysis.averageAmount item;
         DeclineCodeAnalysis.cumulativePercentage := Some cumulative |}
      :: accumulate cumulative rest
  end.

Definition analyse (n_declined : nat) (entry : DeclineCode * list (Transaction R))
  : DeclineCodeAnalysis.t R :=
  let (code, txns) := entry in
  let count := List.length txns in
  let lostRevenue := sum_amounts txns in
  let averageAmount := num_div lostRevenue (num_of_nat count) in
  {| DeclineCodeAnalysis.code := code;
     DeclineCodeAnalysis.type := classifyDecline code;
     DeclineCodeAnalysis.count := count;
     DeclineCodeAnalysis.percentage :=
       num_mul (num_div (num_of_nat count) (num_of_nat n_declined))
               (num_of_nat 100);
     DeclineCodeAnalysis.lostRevenue := lostRevenue;
     DeclineCodeAnalysis.averageAmount := averageAmount;
     DeclineCodeAnalysis.cumulativePercentage := None |}.

Definition by_count_desc (a b : DeclineCodeAnalysis.t R) : Z :=
  (Z.of_nat (DeclineCodeAnalysis.count b) - Z.of_nat (DeclineCodeAnalysis.count a))%Z.

Definition getDeclineImpact (transactions : list (Transaction R))
  : list (DeclineCodeAnalysis.t R) :=
  let declined := filter declined_with_code transactions in
  if List.length declined =? 0 then []
  else
    let grouped := group_by_code declined in
    let analysis :=
      Array_sort by_count_desc (map (analyse (List.length declined)) grouped) in
    accumulate num_zero analysis.

(** [transaction[keyMap[dimension]] as string]; [None] is [null]. *)
Definition dimension_value (dimension : GroupByDimension) (t : Transaction R)
  : option string :=
  match dimension with
  | by_country => Some (Country_str (country t))
  | by_payment_method => Some (PaymentMethod_str (payment_method t))
  | by_processor => Some (Processor_str (processor t))
  | by_decline_code => option_map DeclineCode_str (decline_code t)
  end.

(** The grouping [reduce] of [groupByDimension]: [!value] skips [null] and
    the empty string. *)
Definition group_by_value (dimension : GroupByDimension)
           (transactions : list (Transaction R))
  : list (string * list (Transaction R)) :=
  fold_left
    (fun acc transaction =>
       match dimension_value dimension transaction with
       | None => acc
       | Some value =>
           if String.eqb value "" then acc
           else push_at String.eqb value transaction acc
       end)
    transactions [].

Definition aggregate (entry : string * list (Transaction R))
  : DimensionAggregate.t R :=
  let (dimensionValue, txns) := entry in
  let approved := List.length (approved_only txns) in
  let declined := List.length (declined_only txns) in
  let total := List.length txns in
  let totalAmount := sum_amounts (approved_only txns) in
  {| DimensionAggregate.dimension := dimensionValue;
     DimensionAggregate.approved := approved;
     DimensionAggregate.declined := declined;
     DimensionAggregate.total := total;
     DimensionAggregate.authorizationRate :=
       if 0 <? total
       then num_mul (num_div (num_of_nat approved) (num_of_nat total))
                    (num_of_nat 100)
       else num_zero;
     DimensionAggregate.totalAmount := totalAmount |}.

Definition by_total_desc (a b : DimensionAggregate.t R) : Z :=
  (Z.of_nat (DimensionAggregate.total b) - Z.of_nat (DimensionAggregate.total a))%Z.

Definition groupByDimension (transactions : list (Transaction R))
           (dimension : GroupByDimension) : list (DimensionAggregate.t R) :=
  Array_sort by_total_desc
             (map aggregate (group_by_value dimension transactions)).

(** *** Time series.  [format], [startOfWeek] and [startOfMonth] are those of
    date-fns; [format] raises a RangeError on an Invalid Date, which is [None]
    here. *)
Variable Date_of_string : string -> JSDate.
Variable format : JSDate -> string -> option string.
Variable startOfWeek : JSDate -> JSDate.
Variable startOfMonth : JSDate -> JSDate.

Definition formatDate (granularity : TimeGranularity) (date : JSDate)
  : option string :=
  match granularity with
  | day => format date "yyyy-MM-dd"
  | week => format (startOfWeek date) "yyyy-MM-dd"
  | month => format (startOfMonth date) "yyyy-MM-dd"
  end.

(** The grouping [reduce] of [groupByTime]; an exception of [formatDate]
    ends it. *)
Fixpoint group_by_date (granularity : TimeGranularity)
         (acc : list (string * list (Transaction R)))
         (transactions : list (Transaction R))
  : option (list (string * list (Transaction R))) :=
  match transactions with
  | [] => Some acc
  | transaction :: rest =>
      let date := Date_of_string (timestamp transaction) in
      match formatDate granularity date with
      | None => None
      | Some key =>
          group_by_date granularity (push_at String.eqb key transaction acc) rest
      end
  end.

Definition data_point (entry : string * list (Transaction R))
  : TimeSeriesDataPoint.t R :=
  let (dateStr, txns) := entry in
  let approved := List.length (approved_only txns) in
  let declined := List.length (declined_only txns) in
  let total := List.length txns in
  {| TimeSeriesDataPoint.date := dateStr;
     TimeSeriesDataPoint.timestamp := Date_of_string dateStr;
     TimeSeriesDataPoint.approved := approved;
     TimeSeriesDataPoint.declined := declined;
     TimeSeriesDataPoint.total := total;
     TimeSeriesDataPoint.authorizationRate :=
       if 0 <? total
       then num_mul (num_div (num_of_nat approved) (num_of_nat total))
                    (num_of_nat 100)
       else num_zero |}.

Definition by_timestamp_asc (a b : TimeSeriesDataPoint.t R) : Z :=
  minus_or_zero (TimeSeriesDataPoint.timestamp a) (TimeSeriesDataPoint.timestamp b).

Definition groupByTime (transactions : list (Transaction R))
           (granularity : TimeGranularity)
  : option (list (TimeSeriesDataPoint.t R)) :=
  match group_by_date granularity [] transactions with
  | None => None
  | Some grouped => Some (Array_sort by_timestamp_asc (map data_point grouped))
  end.

End Aggregation.

(* ------------------------------------------------------------------ *)
(** ** The filter store ([useFilterStore]) *)

Definition initialFilters : TransactionFilters :=
  {| dateRange := {| start := None; end_ := None |};
     countries := [];
     paymentMethods := [];
     processors := [];
     declineCodes := [];
     declineTypes := [] |}.

Record FilterState (R : Type) := {
  allTransactions : list (Transaction R);
  filters : TransactionFilters;
  filteredTransactions : list (Transaction R)
}.

(** The operations a consumer can call on the store. *)
Inductive Action :=
  | SetDateRange (range : DateRange)
  | SetCountries (cs : list Country)
  | SetPaymentMethods (methods : list PaymentMethod)
  | SetProcessors (ps : list Processor)
  | SetDeclineCodes (codes : list DeclineCode)
  | SetDeclineTypes (types : list DeclineType)
  | ToggleCountry (c : Country)
  | TogglePaymentMethod (method : PaymentMethod)
  | ToggleProcessor (p : Processor)
  | ToggleDeclineCode (code : DeclineCode)
  | ToggleDeclineType (type : DeclineType)
  | ResetFilters.

Section Store.
Context {R : Type}.
Variable Date_of_string : string -> JSDate.

(** The state [create] builds from the loaded data. *)
Definition create (transactionsData : list (Transaction R)) : FilterState R :=
  {| allTransactions := transactionsData;
     filters := initialFilters;
     filteredTransactions := transactionsData |}.

(** [set(state => ({ filters: newFilters, filteredTransactions: ... }))]: the
    returned fields replace the stored ones, [allTransactions] stays. *)
Definition recompute (newFilters : TransactionFilters) (state : FilterState R)
  : FilterState R :=
  {| allTransactions := allTransactions state;
     filters := newFilters;
     filteredTransactions :=
       filterTransactions Date_of_string (allTransactions state)
                          (as_partial newFilters) |}.

Definition setDateRange (range : DateRange) (state : FilterState R) :=
  let f := filters state in
  recompute {| dateRange := range; countries := countries f;
               paymentMethods := paymentMethods f; processors := processors f;
               declineCodes := declineCodes f; declineTypes := declineTypes f |}
            state.

Definition setCountries (cs : list Country) (state : FilterState R) :=
  let f := filters state in
  recompute {| dateRange := dateRange f; countries := cs;
               paymentMethods := paymentMethods f; processors := processors f;
               declineCodes := declineCodes f; declineTypes := declineTypes f |}
            state.

Definition setPaymentMethods (methods : list PaymentMethod) (state : FilterState R) :=
  let f := filters state in
  recompute {| dateRange := dateRange f; countries := countries f;
               paymentMethods := methods; processors := processors f;
               declineCodes := declineCodes f; declineTypes := declineTypes f |}
            state.

Definition setProcessors (ps : list Processor) (state : FilterState R) :=
  let f := filters state in
  recompute {| dateRange := dateRange f; countries := countries f;
               paymentMethods := paymentMethods f; processors := ps;
               declineCodes := declineCodes f; declineTypes := declineTypes f |}
            state.

Definition setDeclineCodes (codes : list DeclineCode) (state : FilterState R) :=
  let f := filters state in
  recompute {| dateRange := dateRange f; countries := countries f;
               paymentMethods := paymentMethods f; processors := processors f;
               declineCodes := codes; declineTypes := declineTypes f |}
            state.

Definition setDeclineTypes (types : list DeclineType) (state : FilterState R) :=
  let f := filters state in
  recompute {| dateRange := dateRange f; countries := countries f;
               paymentMethods := paymentMethods f; processors := processors f;
               declineCodes := declineCodes f; declineTypes := types |}
            state.

(** [current.includes(x) ? current.filter(y => y !== x) : [...current, x]] *)
Definition toggled {A : Type} (eqb : A -> A -> bool) (current : list A) (x : A)
  : list A :=
  if includes eqb current x
  then filter (fun y => negb (eqb y x)) current
  else current ++ [x].

Definition toggleCountry (c : Country) (state : FilterState R) :=
  let current := countries (filters state) in
  let updated := toggled Country_eqb current c in
  setCountries updated state.

Definition togglePaymentMethod (method : PaymentMethod) (state : FilterState R) :=
  let current := paymentMethods (filters state) in
  let updated := toggled PaymentMethod_eqb current method in
  setPaymentMethods updated state.

Definition toggleProcessor (p : Processor) (state : FilterState R) :=
  let current := processors (filters state) in
  let updated := toggled Processor_eqb current p in
  setProcessors updated state.

Definition toggleDeclineCode (code : DeclineCode) (state : FilterState R) :=
  let current := declineCodes (filters state) in
  let updated := toggled DeclineCode_eqb current code in
  setDeclineCodes updated state.

Definition toggleDeclineType (type : DeclineType) (state : FilterState R) :=
  let current := declineTypes (filters state) in
  let updated := toggled DeclineType_eqb current type in
  setDeclineTypes updated state.

Definition resetFilters (state : FilterState R) : FilterState R :=
  {| allTransactions := allTransactions state;
     filters := initialFilters;
     filteredTransactions := allTransactions state |}.

Definition dispatch (state : FilterState R) (a : Action) : FilterState R :=
  match a with
  | SetDateRange range => setDateRange range state
  | SetCountries cs => setCountries cs state
  | SetPaymentMethods methods => setPaymentMethods methods state
  | SetProcessors ps => setProcessors ps state
  | SetDeclineCodes codes => setDeclineCodes codes state
  | SetDeclineTypes types => setDeclineTypes types state
  | ToggleCountry c => toggleCountry c state
  | TogglePaymentMethod method => togglePaymentMethod method state
  | ToggleProcessor p => toggleProcessor p state
  | ToggleDeclineCode code => toggleDeclineCode code state
  | ToggleDeclineType type => toggleDeclineType type state
  | ResetFilters => resetFilters state
  end.

(** The store after a sequence of calls, oldest first. *)
Definition run (state : FilterState R) (calls : list Action) : FilterState R :=
  fold_left dispatch calls state.

End Store.

(* ------------------------------------------------------------------ *)
(** ** What the specification says a kept transaction satisfies (§4.2) *)

Section FilterSpec.
Context {R : Type}.
Variable Date_of_string : string -> JSDate.

(** [a <= b] on dates that are points in time. *)
Definition Date_le (a b : JSDate) : Prop :=
  match a, b with
  | Some x, Some y => (x <= y)%Z
  | _, _ => False
  end.

(** 1. timestamp >= start (if set) and <= end (if set). *)
Definition check_date (F : Partial.TransactionFilters) (t : Transaction R) : Prop :=
  forall range, Partial.dateRange F = Some range ->
    (forall s, start range = Some s -> Date_le s (Date_of_string (timestamp t)))
    /\ (forall e, end_ range = Some e -> Date_le (Date_of_string (timestamp t)) e).

(** 2-4. membership in a criterion that is present and not empty. *)
Definition check_member {A : Type} (criterion : option (list A)) (x : A) : Prop :=
  forall l, criterion = Some l -> l <> [] -> In x l.

(** 5. declined, with a decline code of the set. *)
Definition check_decline_code (F : Partial.TransactionFilters)
           (t : Transaction R) : Prop :=
  forall l, Partial.declineCodes F = Some l -> l <> [] ->
    status t = declined /\ exists c, decline_code t = Some c /\ In c l.

(** 6. declined, with a decline code whose class is in the set. *)
Definition check_decline_type (F : Partial.TransactionFilters)
           (t : Transaction R) : Prop :=
  forall l, Partial.declineTypes F = Some l -> l <> [] ->
    status t = declined
    /\ exists c, decline_code t = Some c /\ In (classifyDecline c) l.

Definition passes_all_checks (F : Partial.TransactionFilters)
           (t : Transaction R) : Prop :=
  check_date F t
  /\ check_member (Partial.countries F) (country t)
  /\ check_member (Partial.paymentMethods F) (payment_method t)
  /\ check_member (Partial.processors F) (processor t)
  /\ check_decline_code F t
  /\ check_decline_type F t.

(** The two date tests of the code, as they are written. *)
Definition before_start (F : Partial.TransactionFilters) (t : Transaction R) : bool :=
  match Partial.dateRange F with
  | Some range =>
      match start range with
      | Some s => Date_lt (Date_of_string (timestamp t)) s
      | None => false
      end
  | None => false
  end.

Definition after_end (F : Partial.TransactionFilters) (t : Transaction R) : bool :=
  match Partial.dateRange F with
  | Some range =>
      match end_ range with
      | Some e => Date_gt (Date_of_string (timestamp t)) e
      | None => false
      end
  | None => false
  end.

(** Well-formed input (§3): timestamps and date bounds are points in time. *)
Definition valid_timestamp (t : Transaction R) : Prop :=
  Date_of_string (timestamp t) <> None.

Definition valid_bounds (F : Partial.TransactionFilters) : Prop :=
  forall range, Partial.dateRange F = Some range ->
    start range <> Some None /\ end_ range <> Some None.

End FilterSpec.

(* ------------------------------------------------------------------ *)
(** ** Vocabulary for the aggregation properties *)

(** The transactions a dictionary holds under a key. *)
Definition group_of {K V : Type} (eqb : K -> K -> bool) (k : K)
           (acc : list (K * list V)) : list V :=
  match find (fun e => eqb (fst e) k) acc with
  | Some (_, vs) => vs
  | None => []
  end.

(** The number of transactions a dictionary holds. *)
Definition held {K V : Type} (acc : list (K * list V)) : nat :=
  list_sum (map (fun e => List.length (snd e)) acc).

(** Grouping by a key that some elements lack. *)
Definition grouping {K V : Type} (eqb : K -> K -> bool) (key : V -> option K)
           (acc : list (K * list V)) (l : list V) : list (K * list V) :=
  fold_left
    (fun acc v =>
       match key v with
       | Some k => push_at eqb k v acc
       | None => acc
       end)
    l acc.

Definition has_key {K V : Type} (key : V -> option K) (v : V) : bool :=
  match key v with Some _ => true | None => false end.

Definition key_is {K V : Type} (eqb : K -> K -> bool) (key : V -> option K)
           (k : K) (v : V) : bool :=
  match key v with Some k' => eqb k' k | None => false end.

Section AggregationSpec.
Context {R : Type} {num : Number R}.

(** The transactions of [T] whose [dimension] field is [value]. *)
Definition with_value (dimension : GroupByDimension) (value : string)
           (T : list (Transaction R)) : list (Transaction R) :=
  filter (key_is String.eqb (dimension_value dimension) value) T.

(** The transactions of [T] whose [dimension] field is not null. *)
Definition with_some_value (dimension : GroupByDimension)
           (T : list (Transaction R)) : list (Transaction R) :=
  filter (has_key (dimension_value dimension)) T.



(** [rate] is approved / total * 100 when total > 0, and 0 when total = 0. *)
Definition rate_is (rate : R) (approved total : nat) : Prop :=
  (0 < total ->
   rate = num_mul (num_div (num_of_nat approved) (num_of_nat total))
                  (num_of_nat 100))
  /\ (total = 0 -> rate = num_zero).

End AggregationSpec.

(** The store's invariant (§4.4). *)
Definition consistent {R : Type} (Date_of_string : string -> JSDate)
           (s : FilterState R) : Prop :=
  filteredTransactions s
  = filterTransactions Date_of_string (allTransactions s) (as_partial (filters s)).

(* ------------------------------------------------------------------ *)
(** ** Sample data used by the examples *)

(** A fragment of the runtime's date parser: three instants of January 2026,
    every other string being an Invalid Date. *)
Definition Date_sample (s : string) : JSDate :=
  if String.eqb s "2026-01-01T00:00:00.000Z" then Some 1767225600000%Z
  else if String.eqb s "2026-01-02T00:00:00.000Z" then Some 1767312000000%Z
  else if String.eqb s "2026-01-03T00:00:00.000Z" then Some 1767398400000%Z
  else None.

Definition tx {R : Type} (i : string) (a : R) (c : Country)
           (s : TransactionStatus) (d : option DeclineCode) (ts : string)
  : Transaction R :=
  {| id := i; amount := a;
     currency := match c with Mexico => MXN | Colombia => COP | Brazil => BRL end;
     country := c; payment_method := credit_card; processor := PagosRapid;
     status := s; decline_code := d; timestamp := ts |}.

Definition sample_soft_decline : Transaction Q :=
  tx "txn_2" 50%Q Brazil declined (Some insufficient_funds)
     "2026-01-02T00:00:00.000Z".

Definition sample_Q : list (Transaction Q) :=
  [ tx "txn_1" 100%Q Mexico approved None "2026-01-01T00:00:00.000Z";
    sample_soft_decline;
    tx "txn_3" 150%Q Mexico declined (Some suspected_fraud)
       "2026-01-03T00:00:00.000Z" ].

(** January 1st to 2nd, Mexico or Brazil, soft declines. *)
Definition sample_filters : Partial.TransactionFilters :=
  {| Partial.dateRange :=
       Some {| start := Some (Some 1767225600000%Z);
               end_ := Some (Some 1767312000000%Z) |};
     Partial.countries := Some [Mexico; Brazil];
     Partial.paymentMethods := None;
     Partial.processors := Some [];
     Partial.declineCodes := None;
     Partial.declineTypes := Some [soft] |}.

(** The date range of [sample_filters] alone. *)
Definition sample_range_only : Partial.TransactionFilters :=
  {| Partial.dateRange := Partial.dateRange sample_filters;
     Partial.countries := None;
     Partial.paymentMethods := None;
     Partial.processors := None;
     Partial.declineCodes := None;
     Partial.declineTypes := None |}.

(** The rational a finite binary64 number stands for. *)
Definition exact_value (x : float) : Q :=
  match Prim2SF x with
  | S754_finite s m e =>
      ((if s then - (1) else 1) * inject_Z (Zpos m) * 2 ^ e)%Q
  | _ => 0%Q
  end.

(** Three amounts that binary64 does not add associatively. *)
Definition sample_float : list (Transaction float) :=
  [ tx "txn_a" 0.1%float Mexico approved None "2026-01-01T00:00:00.000Z";
    tx "txn_b" 0.2%float Mexico declined (Some insufficient_funds)
       "2026-01-02T00:00:00.000Z";
    tx "txn_c" 0.3%float Mexico declined (Some timeout)
       "2026-01-03T00:00:00.000Z" ].

(** Three declines, one for each of three codes. *)
Definition sample_thirds : list (Transaction float) :=
  [ tx "txn_d" 10%float Mexico declined (Some insufficient_funds)
       "2026-01-01T00:00:00.000Z";
    tx "txn_e" 20%float Mexico declined (Some timeout)
       "2026-01-02T00:00:00.000Z";
    tx "txn_f" 30%float Mexico declined (Some card_expired)
       "2026-01-03T00:00:00.000Z" ].

(** The store after selecting Mexico, then Brazil. *)
Definition sample_store : FilterState Q :=
  run Date_sample (create sample_Q) [ToggleCountry Mexico; ToggleCountry Brazil].

(* ------------------------------------------------------------------ *)
(** ** Vocabulary for further properties of the aggregations *)

Section MoreAggregationSpec.
Context {R : Type}.

(** The declined transactions of [T] that carry the decline code [c]. *)
Definition declines_with_code (c : DeclineCode) (T : list (Transaction R))
  : list (Transaction R) :=
  filter (key_is DeclineCode_eqb (@decline_code R) c)
         (filter declined_with_code T).

End MoreAggregationSpec.

(** The values a dimension can take, as the strings they are at run time. *)
Definition dimension_values (dimension : GroupByDimension) : list string :=
  match dimension with
  | by_country => map Country_str [Mexico; Colombia; Brazil]
  | by_payment_method =>
      map PaymentMethod_str [credit_card; debit_card; pse; pix; boleto]
  | by_processor => map Processor_str [PagosRapid; AcquireLocal; BrasilPay]
  | by_decline_code =>
      map DeclineCode_str
          [insufficient_funds; card_expired; suspected_fraud; do_not_honor;
           issuer_unavailable; invalid_card_number; transaction_not_permitted;
           processing_error; timeout; lost_stolen_card]
  end.

(** *** More sample data *)

(** [Date_sample] extended with the calendar dates of its three instants. *)
Definition Date_sample_days (s : string) : JSDate :=
  if String.eqb s "2026-01-01" then Some 1767225600000%Z
  else if String.eqb s "2026-01-02" then Some 1767312000000%Z
  else if String.eqb s "2026-01-03" then Some 1767398400000%Z
  else Date_sample s.

(** A fragment of date-fns' [format] with the pattern yyyy-MM-dd, in UTC, for
    the first days of January 2026. *)
Definition format_sample (d : JSDate) (pattern : string) : option string :=
  match d with
  | Some z =>
      if (z <? 1767312000000)%Z then Some "2026-01-01"
      else if (z <? 1767398400000)%Z then Some "2026-01-02"
      else Some "2026-01-03"
  | None => None
  end.

(* ------------------------------------------------------------------ *)
(** ** Vocabulary for further properties of the store *)

Inductive FilterField :=
  | DateRangeField | CountriesField | PaymentMethodsField
  | ProcessorsField | DeclineCodesField | DeclineTypesField.

(** The field a setter call replaces; [None] for a toggle or a reset. *)
Definition sets (a : Action) : option FilterField :=
  match a with
  | SetDateRange _ => Some DateRangeField
  | SetCountries _ => Some CountriesField
  | SetPaymentMethods _ => Some PaymentMethodsField
  | SetProcessors _ => Some ProcessorsField
  | SetDeclineCodes _ => Some DeclineCodesField
  | SetDeclineTypes _ => Some DeclineTypesField
  | _ => None
  end.

Definition is_toggle_or_reset (a : Action) : bool :=
  match a with
  | ToggleCountry _ | TogglePaymentMethod _ | ToggleProcessor _
  | ToggleDeclineCode _ | ToggleDeclineType _ | ResetFilters => true
  | _ => false
  end.

(** [after] is [before] with the membership of [x] flipped. *)
Definition flipped {A : Type} (x : A) (before after : list A) : Prop :=
  (In x after <-> ~ In x before)
  /\ (forall y, y <> x -> (In y after <-> In y before)).

(* ------------------------------------------------------------------ *)
(** ** The filter panel ([FilterPanel]) *)

(** [hasActiveFilters] of the panel. *)
Definition hasActiveFilters (filters : TransactionFilters) : bool :=
  (0 <? List.length (countries filters))
  || (0 <? List.length (paymentMethods filters))
  || (0 <? List.length (processors filters))
  || (0 <? List.length (declineTypes filters)).

(** The number shown after "Active filters:". *)
Definition activeFilterCount (filters : TransactionFilters) : nat :=
  List.length (countries filters) + List.length (paymentMethods filters).

(** The buttons of the panel. *)
Inductive PanelClick :=
  | ClickCountry (c : Country)
  | ClickPaymentMethod (method : PaymentMethod)
  | ClickReset.

Section Panel.
Context {R : Type}.
Variable Date_of_string : string -> JSDate.

(** What a click does to the store; the reset button is disabled, and its
    handler not called, unless [hasActiveFilters]. *)
Definition click (state : FilterState R) (b : PanelClick) : FilterState R :=
  match b with
  | ClickCountry c => toggleCountry Date_of_string c state
  | ClickPaymentMethod method => togglePaymentMethod Date_of_string method state
  | ClickReset =>
      if hasActiveFilters (filters state) then resetFilters state else state
  end.

Definition clicks (state : FilterState R) (bs : list PanelClick) : FilterState R :=
  fold_left click bs state.

End Panel.

(** Two filter values that select the same values in every dimension, in
    whatever order and however often repeated. *)
Definition same_selection (f1 f2 : TransactionFilters) : Prop :=
  dateRange f1 = dateRange f2
  /\ (forall x, In x (countries f1) <-> In x (countries f2))
  /\ (forall x, In x (paymentMethods f1) <-> In x (paymentMethods f2))
  /\ (forall x, In x (processors f1) <-> In x (processors f2))
  /\ (forall x, In x (declineCodes f1) <-> In x (declineCodes f2))
  /\ (forall x, In x (declineTypes f1) <-> In x (declineTypes f2)).

(** [s2] shows what [s] shows and selects what [s] selects; it is [s] itself
    unless the toggled value was selected in [s]. *)
Definition restores {R : Type} (s s2 : FilterState R) (was_selected : Prop)
  : Prop :=
  filteredTransactions s2 = filteredTransactions s
  /\ same_selection (filters s2) (filters s)
  /\ (~ was_selected -> s2 = s).

(* ------------------------------------------------------------------ *)
(** ** Presentation components *)

(** Subtraction, and the sign under which [sort] reads what a comparator
    returns: negative, positive, or neither (zero and NaN). *)
Class NumberOrder (R : Type) := {
  num_sub : R -> R -> R;
  num_sign : R -> Z
}.

#[export] Instance NumberOrder_float : NumberOrder float := {|
  num_sub := PrimFloat.sub;
  num_sign x :=
    if PrimFloat.ltb x 0 then (-1)%Z
    else if PrimFloat.ltb 0 x then 1%Z else 0%Z
|}.

#[export] Instance NumberOrder_Q : NumberOrder Q := {|
  num_sub := Qminus;
  num_sign x :=
    match (x ?= 0)%Q with Lt => (-1)%Z | Gt => 1%Z | Eq => 0%Z end
|}.

Definition Currency_str (c : Currency) : string :=
  match c with MXN => "MXN" | COP => "COP" | BRL => "BRL" end.

Definition Currency_eqb (a b : Currency) : bool :=
  String.eqb (Currency_str a) (Currency_str b).

(** [acc[k] = (acc[k] || 0) + 1] on a dictionary of counts. *)
Fixpoint count_at {K : Type} (eqb : K -> K -> bool) (k : K)
         (acc : list (K * nat)) : list (K * nat) :=
  match acc with
  | [] => [(k, 0 + 1)]
  | (k', n) :: rest =>
      if eqb k' k then (k', n + 1) :: rest
      else (k', n) :: count_at eqb k rest
  end.

(** [declineCodeDescriptions] of the formatters. *)
Definition declineCodeDescriptions : list (string * string) :=
  [ ("insufficient_funds", "Insufficient Funds");
    ("card_expired", "Card Expired");
    ("suspected_fraud", "Suspected Fraud");
    ("do_not_honor", "Do Not Honor");
    ("issuer_unavailable", "Issuer Unavailable");
    ("invalid_card_number", "Invalid Card Number");
    ("transaction_not_permitted", "Transaction Not Permitted");
    ("processing_error", "Processing Error");
    ("timeout", "Timeout");
    ("lost_stolen_card", "Lost/Stolen Card") ].

(** [table[key] || key], for a key that is not a property of
    [Object.prototype]: the entry of the table when it has one that is not
    the empty string, the key itself otherwise. *)
Definition entry_or_key (table : list (string * string)) (key : string)
  : string :=
  match find (fun e => String.eqb (fst e) key) table with
  | Some (_, v) => if String.eqb v "" then key else v
  | None => key
  end.

Definition getDeclineDescription (code : string) : string :=
  entry_or_key declineCodeDescriptions code.

(** [displayNames] of [getPaymentMethodDisplayName]. *)
Definition displayNames : list (string * string) :=
  [ ("credit_card", "Credit Card"); ("debit_card", "Debit Card");
    ("pse", "PSE"); ("pix", "PIX"); ("boleto", "Boleto") ].

Definition getPaymentMethodDisplayName (method : string) : string :=
  entry_or_key displayNames method.

Module DeclineImpactDataPoint.
Record t (R : Type) := {
  code : DeclineCode;
  description : string;
  type : DeclineType;
  count : nat;
  lostRevenue : R;
  averageAmount : R;
  percentage : R
}.
End DeclineImpactDataPoint.

Module PaymentMethodDataPoint.
Record t (R : Type) := {
  paymentMethod : string;
  displayName : string;
  approved : nat;
  declined : nat;
  total : nat;
  authorizationRate : R
}.
End PaymentMethodDataPoint.

Inductive SortColumn := sort_code | sort_count | sort_amount | sort_percentage.
Inductive SortDirection := asc | desc.

Section Components.
Context {R : Type} {num : Number R} {ord : NumberOrder R}.

(** [primaryCurrency] of [TotalLostRevenueCard] and [DeclineAnalysisTable];
    [None] is the TypeError of reading [[0][0]] from an empty array. *)
Definition currencyCounts (declined : list (Transaction R))
  : list (Currency * nat) :=
  fold_left (fun acc t => count_at Currency_eqb (currency t) acc) declined [].

Definition by_second_desc (a b : Currency * nat) : Z :=
  (Z.of_nat (snd b) - Z.of_nat (snd a))%Z.

Definition primaryCurrency (transactions : list (Transaction R))
  : option Currency :=
  let declined := declined_only transactions in
  if List.length declined =? 0 then Some MXN
  else
    match Array_sort by_second_desc (currencyCounts declined) with
    | [] => None
    | (c, _) :: _ => Some c
    end.

(** [topDecline] of [TopDeclineCodeCard]; [None] is [null]. *)
Definition topDecline (transactions : list (Transaction R))
  : option (DeclineCodeAnalysis.t R) :=
  let analysis := getDeclineImpact transactions in
  if 0 <? List.length analysis then nth_error analysis 0 else None.

(** [chartData] of [DeclineImpactBarChart]. *)
Definition by_lostRevenue_desc (a b : DeclineCodeAnalysis.t R) : Z :=
  num_sign (num_sub (DeclineCodeAnalysis.lostRevenue b)
                    (DeclineCodeAnalysis.lostRevenue a)).

Definition impact_point (decline : DeclineCodeAnalysis.t R)
  : DeclineImpactDataPoint.t R :=
  {| DeclineImpactDataPoint.code := DeclineCodeAnalysis.code decline;
     DeclineImpactDataPoint.description :=
       getDeclineDescription (DeclineCode_str (DeclineCodeAnalysis.code decline));
     DeclineImpactDataPoint.type := DeclineCodeAnalysis.type decline;
     DeclineImpactDataPoint.count := DeclineCodeAnalysis.count decline;
     DeclineImpactDataPoint.lostRevenue := DeclineCodeAnalysis.lostRevenue decline;
     DeclineImpactDataPoint.averageAmount :=
       DeclineCodeAnalysis.averageAmount decline;
     DeclineImpactDataPoint.percentage := DeclineCodeAnalysis.percentage decline |}.

Definition declineImpactChartData (filteredTransactions : list (Transaction R))
  : list (DeclineImpactDataPoint.t R) :=
  let declineAnalysis := getDeclineImpact filteredTransactions in
  let topDeclines := firstn 10 (Array_sort by_lostRevenue_desc declineAnalysis) in
  map impact_point topDeclines.

(** The transactions of [T] paid by [method]. *)
Definition paid_by (method : PaymentMethod) (T : list (Transaction R))
  : list (Transaction R) :=
  filter (fun t => PaymentMethod_eqb (payment_method t) method) T.

(** [chartData] of [PaymentMethodBreakdownChart]. *)
Definition paymentMethodChartData (filteredTransactions : list (Transaction R))
  : list (PaymentMethodDataPoint.t R) :=
  let paymentMethodData := groupByDimension filteredTransactions by_payment_method in
  map (fun item =>
         {| PaymentMethodDataPoint.paymentMethod :=
              DimensionAggregate.dimension item;
            PaymentMethodDataPoint.displayName :=
              getPaymentMethodDisplayName (DimensionAggregate.dimension item);
            PaymentMethodDataPoint.approved := DimensionAggregate.approved item;
            PaymentMethodDataPoint.declined := DimensionAggregate.declined item;
            PaymentMethodDataPoint.total := DimensionAggregate.total item;
            PaymentMethodDataPoint.authorizationRate :=
              DimensionAggregate.authorizationRate item |})
      paymentMethodData.

(** [sortedDeclines] of [DeclineAnalysisTable]; [localeCompare] is the
    runtime's, read by its sign. *)
Variable localeCompare : string -> string -> Z.

Definition compare_rows (sortColumn : SortColumn) (sortDirection : SortDirection)
           (a b : DeclineCodeAnalysis.t R) : Z :=
  match sortColumn with
  | sort_code =>
      match sortDirection with
      | asc => localeCompare (DeclineCode_str (DeclineCodeAnalysis.code a))
                             (DeclineCode_str (DeclineCodeAnalysis.code b))
      | desc => localeCompare (DeclineCode_str (DeclineCodeAnalysis.code b))
                              (DeclineCode_str (DeclineCodeAnalysis.code a))
      end
  | sort_count =>
      match sortDirection with
      | asc => (Z.of_nat (DeclineCodeAnalysis.count a)
                - Z.of_nat (DeclineCodeAnalysis.count b))%Z
      | desc => (Z.of_nat (DeclineCodeAnalysis.count b)
                 - Z.of_nat (DeclineCodeAnalysis.count a))%Z
      end
  | sort_amount =>
      match sortDirection with
      | asc => num_sign (num_sub (DeclineCodeAnalysis.lostRevenue a)
                                 (DeclineCodeAnalysis.lostRevenue b))
      | desc => num_sign (num_sub (DeclineCodeAnalysis.lostRevenue b)
                                  (DeclineCodeAnalysis.lostRevenue a))
      end
  | sort_percentage =>
      match sortDirection with
      | asc => num_sign (num_sub (DeclineCodeAnalysis.percentage a)
                                 (DeclineCodeAnalysis.percentage b))
      | desc => num_sign (num_sub (DeclineCodeAnalysis.percentage b)
                                  (DeclineCodeAnalysis.percentage a))
      end
  end.

Definition sortedDeclines (filteredTransactions : list (Transaction R))
           (sortColumn : SortColumn) (sortDirection : SortDirection)
  : list (DeclineCodeAnalysis.t R) :=
  let analysis := getDeclineImpact filteredTransactions in
  Array_sort (compare_rows sortColumn sortDirection) analysis.

End Components.

(** The sort state of [DeclineAnalysisTable] and [handleSort]. *)
Record SortState := { sortColumn : SortColumn; sortDirection : SortDirection }.

Definition initialSort : SortState :=
  {| sortColumn := sort_code; sortDirection := desc |}.

Definition SortColumn_eqb (a b : SortColumn) : bool :=
  match a, b with
  | sort_code, sort_code | sort_count, sort_count
  | sort_amount, sort_amount | sort_percentage, sort_percentage => true
  | _, _ => false
  end.

Definition handleSort (column : SortColumn) (state : SortState) : SortState :=
  if SortColumn_eqb (sortColumn state) column
  then {| sortColumn := sortColumn state;
          sortDirection :=
            match sortDirection state with asc => desc | desc => asc end |}
  else {| sortColumn := column; sortDirection := desc |}.

Definition renderSortIcon (state : SortState) (column : SortColumn) : string :=
  if negb (SortColumn_eqb (sortColumn state) column) then " ⬍"
  else match sortDirection state with asc => " ↑" | desc => " ↓" end.

(** The declined transactions of [T] in the currency [c]. *)
Definition declined_in {R : Type} (c : Currency) (T : list (Transaction R))
  : list (Transaction R) :=
  filter (fun t => Currency_eqb (currency t) c) (declined_only T).

(** *** The decline trend chart *)

Module DeclineTrendDataPoint.
Record t := {
  date : string;
  displayDate : string;
  declined : nat
}.
End DeclineTrendDataPoint.

Module Formatters.
Section Formatters.
Variable Date_of_string : string -> JSDate.
Variable format : JSDate -> string -> option string.

(** [formatDate] of the formatters: a string is read as a date first; the
    exception of [format] is [None]. *)
Definition formatDate (dateStr : string + JSDate) (formatStr : string)
  : option string :=
  let date := match dateStr with
              | inl s => Date_of_string s
              | inr d => d
              end in
  format date formatStr.

End Formatters.
End Formatters.

Section TrendChart.
Context {R : Type} {num : Number R}.
Variable Date_of_string : string -> JSDate.
Variable format : JSDate -> string -> option string.
Variable startOfWeek : JSDate -> JSDate.
Variable startOfMonth : JSDate -> JSDate.

(** [dailyData.map(point => ...)], ended by an exception of [formatDate]. *)
Fixpoint trend_points (dailyData : list (TimeSeriesDataPoint.t R))
  : option (list DeclineTrendDataPoint.t) :=
  match dailyData with
  | [] => Some []
  | point :: rest =>
      match Formatters.formatDate Date_of_string format
                                  (inl (TimeSeriesDataPoint.date point))
                                  "MMM dd" with
      | None => None
      | Some displayDate =>
          match trend_points rest with
          | None => None
          | Some points =>
              Some ({| DeclineTrendDataPoint.date :=
                         TimeSeriesDataPoint.date point;
                       DeclineTrendDataPoint.displayDate := displayDate;
                       DeclineTrendDataPoint.declined :=
                         TimeSeriesDataPoint.declined point |} :: points)
          end
      end
  end.

(** [chartData] of [DeclineTrendLineChart]. *)
Definition declineTrendChartData (filteredTransactions : list (Transaction R))
  : option (list DeclineTrendDataPoint.t) :=
  let declinedTransactions := declined_only filteredTransactions in
  match groupByTime Date_of_string format startOfWeek startOfMonth
                    declinedTransactions day with
  | None => None
  | Some dailyData => trend_points dailyData
  end.

End TrendChart.

(* ------------------------------------------------------------------ *)
(** ** The data scripts *)

(** The [Transaction] interface of the scripts: every field as it is read
    from the JSON file. *)
Module Raw.
Record Transaction (R : Type) := {
  id : string;
  amount : R;
  currency : string;
  country : string;
  payment_method : string;
  processor : string;
  status : string;
  decline_code : option string;
  timestamp : string
}.
End Raw.

(** [set.has(x)] on a set of strings kept as the list of its insertions. *)
Definition has (set : list string) (x : string) : bool :=
  existsb (String.eqb x) set.

(** The own entry of a table under a key. *)
Definition own {V : Type} (table : list (string * V)) (key : string) : option V :=
  match find (fun e => String.eqb (fst e) key) table with
  | Some (_, v) => Some v
  | None => None
  end.

Definition VALID_CURRENCIES : list (string * string) :=
  [("Mexico", "MXN"); ("Colombia", "COP"); ("Brazil", "BRL")].

Definition VALID_PAYMENT_METHODS : list (string * list string) :=
  [("Mexico", ["credit_card"; "debit_card"]);
   ("Colombia", ["credit_card"; "debit_card"; "pse"]);
   ("Brazil", ["credit_card"; "debit_card"; "pix"; "boleto"])].

Module Verification.
Record t := {
  duplicateIds : nat;
  invalidCombinations : nat;
  timestampIssues : nat;
  declineCodeIssues : nat;
  passed : bool
}.
End Verification.

Section VerifyTransactions.
Context {R : Type}.
Variable Date_of_string : string -> JSDate.
(** Whether a name is a property every object inherits ([constructor],
    [toString], ...): known to the runtime. *)
Variable inherited : string -> bool.

Definition isNaN (d : JSDate) : bool :=
  match d with Some _ => false | None => true end.

(** The first [forEach] of [main]: the ids seen so far and the count. *)
Definition count_duplicates (transactions : list (Raw.Transaction R))
  : list string * nat :=
  fold_left
    (fun (state : list string * nat) t =>
       let (ids, duplicateIds) := state in
       (ids ++ [Raw.id t],
        if has ids (Raw.id t) then duplicateIds + 1 else duplicateIds))
    transactions ([], 0).

(** The second [forEach]: [None] is the TypeError of calling [has] on what
    [VALID_PAYMENT_METHODS] inherits under the country's name. *)
Definition check_combination (invalidCombinations : nat) (t : Raw.Transaction R)
  : option nat :=
  let n :=
    match own VALID_CURRENCIES (Raw.country t) with
    | Some expectedCurrency =>
        if String.eqb (Raw.currency t) expectedCurrency
        then invalidCombinations else invalidCombinations + 1
    | None => invalidCombinations + 1
    end in
  match own VALID_PAYMENT_METHODS (Raw.country t) with
  | Some validPaymentMethods =>
      Some (if has validPaymentMethods (Raw.payment_method t) then n else n + 1)
  | None => if inherited (Raw.country t) then None else Some (n + 1)
  end.

Fixpoint count_invalid (invalidCombinations : nat)
         (transactions : list (Raw.Transaction R)) : option nat :=
  match transactions with
  | [] => Some invalidCombinations
  | t :: rest =>
      match check_combination invalidCombinations t with
      | None => None
      | Some n => count_invalid n rest
      end
  end.

(** The [for] loop over the pairs of neighbours. *)
Fixpoint count_timestamp_issues (timestampIssues : nat)
         (transactions : list (Raw.Transaction R)) : nat :=
  match transactions with
  | prev :: ((curr :: _) as rest) =>
      let prevTime := Date_of_string (Raw.timestamp prev) in
      let currTime := Date_of_string (Raw.timestamp curr) in
      count_timestamp_issues
        (if isNaN prevTime || isNaN currTime
         then timestampIssues + 1 else timestampIssues)
        rest
  | _ => timestampIssues
  end.

(** The body of the third [forEach]. *)
Definition decline_code_check (declineCodeIssues : nat) (t : Raw.Transaction R)
  : nat :=
  let n :=
    if String.eqb (Raw.status t) "approved"
       && match Raw.decline_code t with Some _ => true | None => false end
    then declineCodeIssues + 1 else declineCodeIssues in
  if String.eqb (Raw.status t) "declined"
     && match Raw.decline_code t with Some _ => false | None => true end
  then n + 1 else n.

Definition count_decline_code_issues (transactions : list (Raw.Transaction R))
  : nat :=
  fold_left decline_code_check transactions 0.

(** [main] of the verification script on the parsed file: the four counters
    and whether "All validations passed" is printed.  [None] is a TypeError:
    the one of [check_combination], or the one of reading
    [transactions[0].timestamp] for the summary of an empty file. *)
Definition verify (transactions : list (Raw.Transaction R))
  : option Verification.t :=
  let duplicateIds := snd (count_duplicates transactions) in
  match count_invalid 0 transactions with
  | None => None
  | Some invalidCombinations =>
      let timestampIssues := count_timestamp_issues 0 transactions in
      let declineCodeIssues := count_decline_code_issues transactions in
      match transactions with
      | [] => None
      | _ :: _ =>
          Some {| Verification.duplicateIds := duplicateIds;
                  Verification.invalidCombinations := invalidCombinations;
                  Verification.timestampIssues := timestampIssues;
                  Verification.declineCodeIssues := declineCodeIssues;
                  Verification.passed :=
                    (duplicateIds =? 0) && (invalidCombinations =? 0)
                    && (timestampIssues =? 0) && (declineCodeIssues =? 0) |}
      end
  end.

(** What the script checks, transaction by transaction. *)
Definition valid_combination (t : Raw.Transaction R) : Prop :=
  own VALID_CURRENCIES (Raw.country t) = Some (Raw.currency t)
  /\ exists methods, own VALID_PAYMENT_METHODS (Raw.country t) = Some methods
                     /\ In (Raw.payment_method t) methods.

Definition valid_decline_code (t : Raw.Transaction R) : Prop :=
  (Raw.status t = "approved" -> Raw.decline_code t = None)
  /\ (Raw.status t = "declined" -> Raw.decline_code t <> None).

End VerifyTransactions.

(** The clean-up of [clean-and-generate]: the transactions that are the
    first with their id, and the first 300 of them. *)
Section CleanAndGenerate.
Context {R : Type}.

Definition uniqueOriginal (allData : list (Raw.Transaction R))
  : list string * list (Raw.Transaction R) :=
  fold_left
    (fun (state : list string * list (Raw.Transaction R)) transaction =>
       let (seenIds, uniqueOriginalTransactions) := state in
       if negb (has seenIds (Raw.id transaction))
       then (seenIds ++ [Raw.id transaction],
             uniqueOriginalTransactions ++ [transaction])
       else state)
    allData ([], []).

Definition originalTransactions (allData : list (Raw.Transaction R))
  : list (Raw.Transaction R) :=
  let uniqueOriginalTransactions := snd (uniqueOriginal allData) in
  if 300 <=? List.length uniqueOriginalTransactions
  then firstn 300 uniqueOriginalTransactions
  else uniqueOriginalTransactions.

End CleanAndGenerate.


(** [new Set(values)]: the values in the order of their first insertion. *)
Definition Set_of (values : list string) : list string :=
  fold_left (fun set x => if has set x then set else set ++ [x]) values [].

(** [generateTransactionId].  [randomBytes n i] is byte [i] of the buffer
    the [n]-th call of [crypto.randomBytes(16)] returns. *)
Section GenerateTransactionId.
Variable randomBytes : nat -> nat -> Byte.byte.

Set Warnings "-abstract-large-number".
Definition maxAttempts : nat := 10000.
Set Warnings "abstract-large-number".

Definition chars : string := "abcdefghijklmnopqrstuvwxyz0123456789".

(** The inner [for] loop; reading past the end of [chars] would append
    "undefined". *)
Definition idSuffix (call : nat) : string :=
  fold_left
    (fun idSuffix i =>
       let byte := Byte.to_nat (randomBytes call i) in
       (idSuffix ++ match String.get (byte mod String.length chars) chars with
                    | Some c => String c EmptyString
                    | None => "undefined"
                    end)%string)
    (seq 0 16) "".

Definition candidate (call : nat) : string :=
  ("txn_" ++ idSuffix call)%string.

(** What a call leaves: the id, the set with the id added and the number of
    buffers drawn so far, or the [Error] thrown. *)
Inductive Generated :=
  | Returned (id : string) (existingIds : list string) (calls : nat)
  | Thrown.

(** The [do ... while] loop, [fuel] bounding its iterations; [None] is a
    loop that has not ended within [fuel] iterations. *)
Fixpoint attempt (fuel attempts call : nat) (existingIds : list string)
  : option Generated :=
  match fuel with
  | 0 => None
  | S fuel =>
      let id := candidate call in
      let attempts := attempts + 1 in
      if maxAttempts <=? attempts then Some Thrown
      else if has existingIds id
           then attempt fuel attempts (call + 1) existingIds
           else Some (Returned id (existingIds ++ [id]) (call + 1))
  end.

Definition generateTransactionId (existingIds : list string) (call : nat)
  : option Generated :=
  attempt maxAttempts 0 call existingIds.

(** The ids of the transactions the [for] loop of [main] generates, in
    order, with the set of ids it leaves; [None] when a call throws or does
    not return. *)
Fixpoint newIds (newCount call : nat) (existingIds : list string)
  : option (list string * list string) :=
  match newCount with
  | 0 => Some ([], existingIds)
  | S newCount =>
      match generateTransactionId existingIds call with
      | Some (Returned id existingIds calls) =>
          match newIds newCount calls existingIds with
          | Some (ids, existingIds) => Some (id :: ids, existingIds)
          | None => None
          end
      | _ => None
      end
  end.

(** The ids of [allTransactions] in [main]: those of the original
    transactions, then the generated ones.  Of a generated transaction only
    the id is followed, which does not depend on its other fields; a run in
    which [generateTransaction] fails on its timestamp has no
    [allTransactions] at all.  [None] also when there is no original
    transaction, where reading [lastTransaction.timestamp] is a TypeError. *)
Definition allTransactions_ids {R : Type} (allData : list (Raw.Transaction R))
  : option (list string) :=
  let originalTransactions := originalTransactions allData in
  let existingIds := Set_of (map (@Raw.id R) originalTransactions) in
  match originalTransactions with
  | [] => None
  | _ :: _ =>
      let newCount := 600 - List.length originalTransactions in
      match newIds newCount 0 existingIds with
      | Some (ids, _) => Some (map (@Raw.id R) originalTransactions ++ ids)
      | None => None
      end
  end.

End GenerateTransactionId.

(** Four draws for the examples: sixteen times "a", twice sixteen times
    "b", then sixteen times "c". *)
Definition randomBytes_sample (call _ : nat) : Byte.byte :=
  nth call [Byte.x00; Byte.x01; Byte.x01; Byte.x02] Byte.x03.
(* ================================================================== *)
(** * Properties *)

(** ** Equality tests and [includes] *)

Lemma Country_eqb_spec (a b : Country) : Country_eqb a b = true <-> a = b.
Proof. destruct a, b; vm_compute; split; congruence. Qed.

Lemma PaymentMethod_eqb_spec (a b : PaymentMethod) :
  PaymentMethod_eqb a b = true <-> a = b.
Proof. destruct a, b; vm_compute; split; congruence. Qed.

Lemma Processor_eqb_spec (a b : Processor) : Processor_eqb a b = true <-> a = b.
Proof. destruct a, b; vm_compute; split; congruence. Qed.

Lemma DeclineCode_eqb_spec (a b : DeclineCode) :
  DeclineCode_eqb a b = true <-> a = b.
Proof. destruct a, b; vm_compute; split; congruence. Qed.

Lemma DeclineType_eqb_spec (a b : DeclineType) :
  DeclineType_eqb a b = true <-> a = b.
Proof. destruct a, b; simpl; split; congruence. Qed.

Lemma includes_In {A : Type} (eqb : A -> A -> bool)
      (eqb_spec : forall a b, eqb a b = true <-> a = b) (l : list A) (x : A) :
  includes eqb l x = true <-> In x l.
Proof.
  unfold includes. rewrite existsb_exists. split.
  - intros [y [Hy Heq]]. apply eqb_spec in Heq. now subst.
  - intros Hin. exists x. split; [assumption | now apply eqb_spec].
Qed.

Lemma includes_false {A : Type} (eqb : A -> A -> bool)
      (eqb_spec : forall a b, eqb a b = true <-> a = b) (l : list A) (x : A) :
  includes eqb l x = false <-> ~ In x l.
Proof.
  rewrite <- (includes_In eqb eqb_spec). destruct (includes eqb l x); split;
    congruence.
Qed.

Lemma populated_spec {A : Type} (xs : option (list A)) :
  populated xs = true <-> exists l, xs = Some l /\ l <> [].
Proof.
  destruct xs as [[|a l]|]; simpl; split; try discriminate.
  - intros [l [E H]]. inversion E; subst. now elim H.
  - intros _. exists (a :: l). split; [reflexivity | discriminate].
  - reflexivity.
  - intros [l [E _]]. discriminate.
Qed.

Lemma filter_all {A : Type} (f : A -> bool) (l : list A) :
  (forall x, In x l -> f x = true) -> filter f l = l.
Proof.
  induction l as [|a l IH]; simpl; intros H; [reflexivity|].
  rewrite (H a (or_introl eq_refl)). f_equal. apply IH. intros x Hx.
  apply H. now right.
Qed.

(** ** Decline classifier *)

Lemma String_eqb_true (a b : string) : String.eqb a b = true <-> a = b.
Proof. apply String.eqb_eq. Qed.

(** C8. [classifyDecline] is total; it answers [soft] exactly on
    insufficient_funds, issuer_unavailable, processing_error and timeout, and
    [hard] on every other code: the six listed hard codes and any string in
    neither list. *)
Theorem classifyDecline_table :
  (forall code : string,
      (classifyDecline_str code = soft <->
       code = "insufficient_funds" \/ code = "issuer_unavailable"
       \/ code = "processing_error" \/ code = "timeout")
      /\ (classifyDecline_str code = hard <->
          ~ (code = "insufficient_funds" \/ code = "issuer_unavailable"
             \/ code = "processing_error" \/ code = "timeout")))
  /\ (forall c : DeclineCode,
         classifyDecline c
         = match c with
           | insufficient_funds | issuer_unavailable
           | processing_error | timeout => soft
           | card_expired | suspected_fraud | do_not_honor
           | invalid_card_number | transaction_not_permitted
           | lost_stolen_card => hard
           end).
Proof.
  split.
  - intros code.
    assert (Hs : includes String.eqb softDeclines code = true <->
                 code = "insufficient_funds" \/ code = "issuer_unavailable"
                 \/ code = "processing_error" \/ code = "timeout").
    { rewrite (includes_In String.eqb String_eqb_true). simpl.
      intuition congruence. }
    unfold classifyDecline_str.
    destruct (includes String.eqb softDeclines code) eqn:E.
    + split; split; intros H; try reflexivity; try discriminate.
      * now apply Hs.
      * exfalso. apply H. now apply Hs.
    + assert (Hn : ~ (code = "insufficient_funds" \/ code = "issuer_unavailable"
                      \/ code = "processing_error" \/ code = "timeout")).
      { intros H. apply Hs in H. discriminate. }
      destruct (includes String.eqb hardDeclines code);
        split; split; intros H; try reflexivity; try discriminate;
        try assumption; contradiction.
  - intros c. destruct c; reflexivity.
Qed.

(** ** Transaction filter *)

Section FilterProperties.
Context {R : Type}.
Variable Date_of_string : string -> JSDate.


Lemma filterTransactions_In (T : list (Transaction R))
      (F : Partial.TransactionFilters) (t : Transaction R) :
  In t (filterTransactions Date_of_string T F) <-> In t T /\ keeps Date_of_string F t = true.
Proof. unfold filterTransactions. apply filter_In. Qed.

(** The result keeps the order of the input and drops elements only. *)
Lemma filterTransactions_incl (T : list (Transaction R))
      (F : Partial.TransactionFilters) :
  incl (filterTransactions Date_of_string T F) T.
Proof. intros t Ht. now apply filterTransactions_In in Ht. Qed.

(** The initial filter value keeps every transaction. *)
Lemma keeps_initialFilters (t : Transaction R) :
  keeps Date_of_string (as_partial initialFilters) t = true.
Proof. reflexivity. Qed.

Lemma filterTransactions_initialFilters (T : list (Transaction R)) :
  filterTransactions Date_of_string T (as_partial initialFilters) = T.
Proof.
  unfold filterTransactions. apply filter_all.
  intros t _. apply keeps_initialFilters.
Qed.

(** Checks 2 to 4 as the code tests them. *)
Lemma member_test {A : Type} (eqb : A -> A -> bool)
      (eqb_spec : forall a b, eqb a b = true <-> a = b)
      (criterion : option (list A)) (x : A) :
  populated criterion && negb (includes eqb (elements criterion) x) = false
  <-> check_member criterion x.
Proof.
  unfold check_member. destruct criterion as [[|a l]|]; simpl.
  - split; [intros _ l E H; inversion E; subst; now elim H | reflexivity].
  - rewrite negb_false_iff.
    change (eqb x a || includes eqb l x) with (includes eqb (a :: l) x).
    rewrite (includes_In eqb eqb_spec). split.
    + intros H l' E _. inversion E; subst. exact H.
    + intros H. apply (H (a :: l)); [reflexivity | discriminate].
  - split; [intros _ l E; discriminate | reflexivity].
Qed.

(** Check 5 as the code tests it. *)
Lemma decline_code_test (F : Partial.TransactionFilters) (t : Transaction R) :
  populated (Partial.declineCodes F)
  && match status t, decline_code t with
     | declined, Some c =>
         negb (includes DeclineCode_eqb (elements (Partial.declineCodes F)) c)
     | _, _ => true
     end = false
  <-> check_decline_code F t.
Proof.
  unfold check_decline_code.
  destruct (Partial.declineCodes F) as [[|a l]|]; simpl.
  - split; [intros _ l E H; inversion E; subst; now elim H | reflexivity].
  - destruct (status t), (decline_code t) as [c|]; split; try discriminate.
    + intros H. destruct (H (a :: l) eq_refl) as [Hd _]; discriminate.
    + intros H. destruct (H (a :: l) eq_refl) as [Hd _]; discriminate.
    + rewrite negb_false_iff.
      change (DeclineCode_eqb c a || includes DeclineCode_eqb l c)
        with (includes DeclineCode_eqb (a :: l) c).
      rewrite (includes_In _ DeclineCode_eqb_spec).
      intros H l' E _. inversion E; subst. split; [reflexivity|].
      exists c. now split.
    + intros H. destruct (H (a :: l) eq_refl) as [_ [c' [E Hin]]];
        [discriminate|]. inversion E; subst c'.
      rewrite negb_false_iff.
      change (DeclineCode_eqb c a || includes DeclineCode_eqb l c)
        with (includes DeclineCode_eqb (a :: l) c).
      now apply (includes_In _ DeclineCode_eqb_spec).
    + intros H. destruct (H (a :: l) eq_refl) as [_ [c' [E _]]];
        discriminate.
  - split; [intros _ l E; discriminate | reflexivity].
Qed.

(** Check 6 as the code tests it. *)
Lemma decline_type_test (F : Partial.TransactionFilters) (t : Transaction R) :
  populated (Partial.declineTypes F)
  && match status t, decline_code t with
     | declined, Some c =>
         negb (includes DeclineType_eqb (elements (Partial.declineTypes F))
                        (classifyDecline c))
     | _, _ => true
     end = false
  <-> check_decline_type F t.
Proof.
  unfold check_decline_type.
  destruct (Partial.declineTypes F) as [[|a l]|]; simpl.
  - split; [intros _ l E H; inversion E; subst; now elim H | reflexivity].
  - destruct (status t), (decline_code t) as [c|]; split; try discriminate.
    + intros H. destruct (H (a :: l) eq_refl) as [Hd _]; discriminate.
    + intros H. destruct (H (a :: l) eq_refl) as [Hd _]; discriminate.
    + rewrite negb_false_iff.
      change (DeclineType_eqb (classifyDecline c) a
              || includes DeclineType_eqb l (classifyDecline c))
        with (includes DeclineType_eqb (a :: l) (classifyDecline c)).
      rewrite (includes_In _ DeclineType_eqb_spec).
      intros H l' E _. inversion E; subst. split; [reflexivity|].
      exists c. now split.
    + intros H. destruct (H (a :: l) eq_refl) as [_ [c' [E Hin]]];
        [discriminate|]. inversion E; subst c'.
      rewrite negb_false_iff.
      change (DeclineType_eqb (classifyDecline c) a
              || includes DeclineType_eqb l (classifyDecline c))
        with (includes DeclineType_eqb (a :: l) (classifyDecline c)).
      now apply (includes_In _ DeclineType_eqb_spec).
    + intros H. destruct (H (a :: l) eq_refl) as [_ [c' [E _]]];
        discriminate.
  - split; [intros _ l E; discriminate | reflexivity].
Qed.

(** [keeps] is the conjunction of its seven tests. *)
Lemma keeps_tests (F : Partial.TransactionFilters) (t : Transaction R) :
  keeps Date_of_string F t = true <->
  before_start Date_of_string F t = false
  /\ after_end Date_of_string F t = false
  /\ populated (Partial.countries F)
     && negb (includes Country_eqb (elements (Partial.countries F)) (country t))
     = false
  /\ populated (Partial.paymentMethods F)
     && negb (includes PaymentMethod_eqb (elements (Partial.paymentMethods F))
                       (payment_method t)) = false
  /\ populated (Partial.processors F)
     && negb (includes Processor_eqb (elements (Partial.processors F))
                       (processor t)) = false
  /\ populated (Partial.declineCodes F)
     && match status t, decline_code t with
        | declined, Some c =>
            negb (includes DeclineCode_eqb (elements (Partial.declineCodes F)) c)
        | _, _ => true
        end = false
  /\ populated (Partial.declineTypes F)
     && match status t, decline_code t with
        | declined, Some c =>
            negb (includes DeclineType_eqb (elements (Partial.declineTypes F))
                           (classifyDecline c))
        | _, _ => true
        end = false.
Proof.
  unfold keeps, before_start, after_end.
  repeat match goal with
         | |- context [if ?c then false else _] => destruct c
         end; intuition congruence.
Qed.

(** On points in time, the two date tests are check 1. *)
Lemma date_tests (F : Partial.TransactionFilters) (t : Transaction R) :
  valid_timestamp Date_of_string t -> valid_bounds F ->
  (before_start Date_of_string F t = false /\ after_end Date_of_string F t = false
   <-> check_date Date_of_string F t).
Proof.
  unfold valid_timestamp, valid_bounds, check_date, before_start, after_end.
  intros Ht HF.
  destruct (Partial.dateRange F) as [range|].
  2:{ split; [intros _ range E; discriminate | now split]. }
  destruct (HF range eq_refl) as [Hs He].
  destruct (Date_of_string (timestamp t)) as [x|]; [|now elim Ht].
  split.
  - intros [H1 H2] r E. inversion E; subst r. split.
    + intros s Es. rewrite Es in H1. destruct s as [s|]; [|now elim Hs].
      simpl in *. now apply Z.ltb_ge in H1.
    + intros e Ee. rewrite Ee in H2. destruct e as [e|]; [|now elim He].
      simpl in *. now apply Z.ltb_ge in H2.
  - intros H. destruct (H range eq_refl) as [H1 H2]. split.
    + destruct (start range) as [s|]; [|reflexivity].
      specialize (H1 s eq_refl). destruct s as [s|]; simpl in *;
        [now apply Z.ltb_ge | reflexivity].
    + destruct (end_ range) as [e|]; [|reflexivity].
      specialize (H2 e eq_refl). destruct e as [e|]; simpl in *;
        [now apply Z.ltb_ge | reflexivity].
Qed.

(** C2. Whatever the list and the criteria, the result of
    [filterTransactions] is a subset of the input, and on well-formed dates a
    transaction of the input is kept if and only if it passes the six checks
    of §4.2, a check on a missing or empty criterion being passed. *)
Theorem filterTransactions_keeps_exactly_the_passing
        (T : list (Transaction R)) (F : Partial.TransactionFilters) :
  (forall t, In t T -> valid_timestamp Date_of_string t) ->
  valid_bounds F ->
  incl (filterTransactions Date_of_string T F) T
  /\ (forall t, In t T ->
        (In t (filterTransactions Date_of_string T F)
         <-> passes_all_checks Date_of_string F t)).
Proof.
  intros HT HF. split; [apply filterTransactions_incl|].
  intros t Ht. rewrite filterTransactions_In, keeps_tests.
  unfold passes_all_checks.
  rewrite <- (date_tests (HT t Ht) HF).
  rewrite <- (member_test Country_eqb Country_eqb_spec).
  rewrite <- (member_test PaymentMethod_eqb PaymentMethod_eqb_spec).
  rewrite <- (member_test Processor_eqb Processor_eqb_spec).
  rewrite <- decline_code_test, <- decline_type_test.
  tauto.
Qed.

(** C3. When [declineCodes] (respectively [declineTypes]) is present and not
    empty, every transaction of the result is declined and carries a decline
    code that is in the set (respectively whose class is in the set); so no
    approved transaction is in the result. *)
Theorem decline_criteria_keep_declined_only
        (T : list (Transaction R)) (F : Partial.TransactionFilters)
        (t : Transaction R) :
  In t (filterTransactions Date_of_string T F) ->
  (forall codes, Partial.declineCodes F = Some codes -> codes <> [] ->
     status t = declined
     /\ (exists c, decline_code t = Some c /\ In c codes)
     /\ status t <> approved)
  /\ (forall types, Partial.declineTypes F = Some types -> types <> [] ->
        status t = declined
        /\ (exists c, decline_code t = Some c /\ In (classifyDecline c) types)
        /\ status t <> approved).
Proof.
  intros Ht. apply filterTransactions_In in Ht. destruct Ht as [_ Hk].
  apply keeps_tests in Hk.
  destruct Hk as (_ & _ & _ & _ & _ & Hc & Hty).
  apply decline_code_test in Hc. apply decline_type_test in Hty. split.
  - intros codes E Hne. destruct (Hc codes E Hne) as [Hd Hex].
    repeat split; try assumption. rewrite Hd. discriminate.
  - intros types E Hne. destruct (Hty types E Hne) as [Hd Hex].
    repeat split; try assumption. rewrite Hd. discriminate.
Qed.

(** C10. With both date bounds null and the five lists empty, the value the
    store starts from, [filterTransactions] returns the input list itself,
    same elements in the same order; so the state [resetFilters] writes is
    the one a recomputation would give. *)
Theorem no_constraint_filter_is_identity (T : list (Transaction R)) :
  filterTransactions Date_of_string T (as_partial initialFilters) = T
  /\ (forall s : FilterState R,
         filters (resetFilters s) = initialFilters
         /\ filteredTransactions (resetFilters s)
            = filterTransactions Date_of_string
                (allTransactions (resetFilters s))
                (as_partial (filters (resetFilters s)))).
Proof.
  split; [apply filterTransactions_initialFilters|].
  intros s. split; [reflexivity|]. simpl.
  symmetry. apply filterTransactions_initialFilters.
Qed.

End FilterProperties.

Lemma filterTransactions_keeps_exactly_the_passing_witness :
  incl (filterTransactions Date_sample sample_Q sample_filters) sample_Q
  /\ (forall t, In t sample_Q ->
        (In t (filterTransactions Date_sample sample_Q sample_filters)
         <-> passes_all_checks Date_sample sample_filters t)).
Proof.
  apply (@filterTransactions_keeps_exactly_the_passing
           Q Date_sample sample_Q sample_filters).
  - intros t [<-|[<-|[<-|[]]]]; vm_compute; discriminate.
  - intros range E. inversion E; subst range. split; discriminate.
Defined.

(** Outside well-formed input: a timestamp that is not a date compares false
    with every bound, so the date tests let it through. *)
Example invalid_timestamp_passes_the_date_tests :
  Date_sample "not a date" = None
  /\ keeps Date_sample sample_range_only
           (tx "txn_x" 1%Q Mexico approved None "not a date") = true.
Proof. split; reflexivity. Qed.

Lemma decline_criteria_keep_declined_only_witness :
  In sample_soft_decline
     (filterTransactions Date_sample sample_Q sample_filters)
  /\ status sample_soft_decline = declined
  /\ (exists c, decline_code sample_soft_decline = Some c
                /\ In (classifyDecline c) [soft]).
Proof.
  assert (Hin : In sample_soft_decline
                   (filterTransactions Date_sample sample_Q sample_filters)).
  { vm_compute. left. reflexivity. }
  split; [exact Hin|].
  destruct (@decline_criteria_keep_declined_only
              Q Date_sample sample_Q sample_filters sample_soft_decline Hin)
    as [_ H].
  destruct (H [soft] eq_refl) as (Hd & Hex & _); [discriminate|].
  split; assumption.
Defined.

(** ** Filter store *)

Section StoreProperties.
Context {R : Type}.
Variable Date_of_string : string -> JSDate.

Lemma recompute_consistent (f : TransactionFilters) (s : FilterState R) :
  consistent Date_of_string (recompute Date_of_string f s).
Proof. reflexivity. Qed.

(** Each operation leaves the store consistent, whatever it was before. *)
Lemma dispatch_consistent (s : FilterState R) (a : Action) :
  consistent Date_of_string (dispatch Date_of_string s a).
Proof.
  destruct a; try apply recompute_consistent.
  unfold consistent. simpl. symmetry. apply filterTransactions_initialFilters.
Qed.

Lemma dispatch_allTransactions (s : FilterState R) (a : Action) :
  allTransactions (dispatch Date_of_string s a) = allTransactions s.
Proof. destruct a; reflexivity. Qed.

Lemma create_consistent (data : list (Transaction R)) :
  consistent Date_of_string (create data).
Proof.
  unfold consistent. simpl. symmetry. apply filterTransactions_initialFilters.
Qed.

Lemma run_app (s : FilterState R) (calls calls' : list Action) :
  run Date_of_string s (calls ++ calls')
  = run Date_of_string (run Date_of_string s calls) calls'.
Proof. unfold run. apply fold_left_app. Qed.

Lemma run_allTransactions (calls : list Action) (s : FilterState R) :
  allTransactions (run Date_of_string s calls) = allTransactions s.
Proof.
  induction calls as [|a calls IH] using rev_ind; [reflexivity|].
  rewrite run_app. simpl. now rewrite dispatch_allTransactions.
Qed.

Lemma run_consistent (calls : list Action) (s : FilterState R) :
  consistent Date_of_string s ->
  consistent Date_of_string (run Date_of_string s calls).
Proof.
  intros Hs. destruct calls as [|a calls] using rev_ind; [exact Hs|].
  rewrite run_app. simpl. apply dispatch_consistent.
Qed.

(** C1. From the initial state, after every finite sequence of setters,
    toggles and resets, the stored [filteredTransactions] is
    [filterTransactions] of the loaded data under the stored [filters];
    a sequence that ends with [resetFilters] is no exception. *)
Theorem store_filtered_view_is_consistent
        (data : list (Transaction R)) (calls : list Action) :
  allTransactions (run Date_of_string (create data) calls) = data
  /\ filteredTransactions (run Date_of_string (create data) calls)
     = filterTransactions Date_of_string data
         (as_partial (filters (run Date_of_string (create data) calls)))
  /\ filteredTransactions
       (resetFilters (run Date_of_string (create data) calls))
     = filterTransactions Date_of_string data
         (as_partial
            (filters (resetFilters (run Date_of_string (create data) calls)))).
Proof.
  assert (Hall : allTransactions (run Date_of_string (create data) calls) = data)
    by apply run_allTransactions.
  split; [exact Hall|]. split.
  - pose proof (run_consistent calls (create_consistent data)) as H.
    unfold consistent in H. now rewrite Hall in H.
  - pose proof (dispatch_consistent
                  (run Date_of_string (create data) calls) ResetFilters) as H.
    unfold consistent in H. simpl in H. simpl. rewrite Hall in *. exact H.
Qed.

End StoreProperties.

(** ** Toggling a value twice *)

Section Toggle.
Context {A : Type} (eqb : A -> A -> bool).
Hypothesis eqb_spec : forall a b, eqb a b = true <-> a = b.

Lemma remove_absent (l : list A) (x : A) :
  ~ In x l -> filter (fun y => negb (eqb y x)) l = l.
Proof.
  intros Hx. apply filter_all. intros y Hy. apply negb_true_iff.
  destruct (eqb y x) eqn:E; [|reflexivity].
  apply eqb_spec in E. subst. contradiction.
Qed.

Lemma remove_In (l : list A) (x y : A) :
  In y (filter (fun z => negb (eqb z x)) l) <-> In y l /\ y <> x.
Proof.
  rewrite filter_In, negb_true_iff. split; intros [H1 H2]; split; trivial.
  - intros E. apply eqb_spec in E. congruence.
  - destruct (eqb y x) eqn:E; [|reflexivity]. apply eqb_spec in E. contradiction.
Qed.

(** On then off: the list comes back as it was. *)
Lemma toggled_on_off (l : list A) (x : A) :
  ~ In x l -> toggled eqb (toggled eqb l x) x = l.
Proof.
  intros Hx. unfold toggled at 2.
  rewrite (proj2 (includes_false eqb eqb_spec l x) Hx).
  unfold toggled.
  rewrite (proj2 (includes_In eqb eqb_spec (l ++ [x]) x))
    by (apply in_or_app; right; now left).
  rewrite filter_app, (remove_absent l x Hx). simpl.
  rewrite (proj2 (eqb_spec x x) eq_refl). simpl. apply app_nil_r.
Qed.

(** Off then on: the value is moved to the end. *)
Lemma toggled_off_on (l : list A) (x : A) :
  In x l ->
  toggled eqb (toggled eqb l x) x = filter (fun y => negb (eqb y x)) l ++ [x].
Proof.
  intros Hx. unfold toggled at 2.
  rewrite (proj2 (includes_In eqb eqb_spec l x) Hx).
  unfold toggled.
  rewrite (proj2 (includes_false eqb eqb_spec _ x)); [reflexivity|].
  rewrite remove_In. intros [_ H]. now apply H.
Qed.

(** Either way the selection holds the same values. *)
Lemma toggled_twice_In (l : list A) (x y : A) :
  In y (toggled eqb (toggled eqb l x) x) <-> In y l.
Proof.
  destruct (includes eqb l x) eqn:E.
  - apply (includes_In eqb eqb_spec) in E. rewrite (toggled_off_on l x E).
    rewrite in_app_iff, remove_In. simpl. split.
    + intros [[H _]|[<-|[]]]; assumption.
    + intros H. destruct (eqb y x) eqn:Eyx.
      * apply eqb_spec in Eyx. subst. right. now left.
      * left. split; [assumption|]. intros ->.
        rewrite (proj2 (eqb_spec x x) eq_refl) in Eyx. discriminate.
  - apply (includes_false eqb eqb_spec) in E. now rewrite (toggled_on_off l x E).
Qed.

(** The tests of [filterTransactions] see a list through its values only. *)
Lemma membership_test_ext (l1 l2 : list A) (x : A) :
  (forall y, In y l1 <-> In y l2) ->
  populated (Some l1) && negb (includes eqb (elements (Some l1)) x)
  = populated (Some l2) && negb (includes eqb (elements (Some l2)) x).
Proof.
  intros H.
  assert (Hp : populated (Some l1) = populated (Some l2)).
  { destruct l1 as [|a l1], l2 as [|b l2]; try reflexivity; exfalso.
    - apply (proj2 (H b)). now left.
    - apply (proj1 (H a)). now left. }
  assert (Hi : includes eqb l1 x = includes eqb l2 x).
  { destruct (includes eqb l2 x) eqn:E.
    - apply (includes_In eqb eqb_spec). apply H.
      now apply (includes_In eqb eqb_spec) in E.
    - apply (includes_false eqb eqb_spec). rewrite H.
      now apply (includes_false eqb eqb_spec) in E. }
  simpl elements. now rewrite Hp, Hi.
Qed.

End Toggle.

Section ToggleCountry.
Context {R : Type}.
Variable Date_of_string : string -> JSDate.

Lemma keeps_countries_ext (f : TransactionFilters) (cs1 cs2 : list Country)
      (t : Transaction R) :
  (forall y, In y cs1 <-> In y cs2) ->
  keeps Date_of_string
        (as_partial {| dateRange := dateRange f; countries := cs1;
                       paymentMethods := paymentMethods f;
                       processors := processors f;
                       declineCodes := declineCodes f;
                       declineTypes := declineTypes f |}) t
  = keeps Date_of_string
          (as_partial {| dateRange := dateRange f; countries := cs2;
                         paymentMethods := paymentMethods f;
                         processors := processors f;
                         declineCodes := declineCodes f;
                         declineTypes := declineTypes f |}) t.
Proof.
  intros H. unfold keeps, as_partial.
  cbn [Partial.dateRange Partial.countries Partial.paymentMethods
       Partial.processors Partial.declineCodes Partial.declineTypes
       dateRange countries paymentMethods processors declineCodes declineTypes].
  now rewrite (membership_test_ext Country_eqb Country_eqb_spec
                 cs1 cs2 (country t) H).
Qed.

(** C9 (amended). In a reachable state, toggling a country twice restores
    [filteredTransactions] and every filter field but [countries], which
    comes back with the same countries selected; the [countries] list itself,
    hence the whole state, is restored when the country was not selected
    before the first toggle. *)
Theorem toggleCountry_twice
        (data : list (Transaction R)) (calls : list Action) (c : Country)
        (s : FilterState R) :
  s = run Date_of_string (create data) calls ->
  filteredTransactions
    (toggleCountry Date_of_string c (toggleCountry Date_of_string c s))
  = filteredTransactions s
  /\ (forall x,
        In x (countries (filters (toggleCountry Date_of_string c
                                   (toggleCountry Date_of_string c s))))
        <-> In x (countries (filters s)))
  /\ filters (toggleCountry Date_of_string c (toggleCountry Date_of_string c s))
     = {| dateRange := dateRange (filters s);
          countries :=
            countries (filters (toggleCountry Date_of_string c
                                  (toggleCountry Date_of_string c s)));
          paymentMethods := paymentMethods (filters s);
          processors := processors (filters s);
          declineCodes := declineCodes (filters s);
          declineTypes := declineTypes (filters s) |}
  /\ (~ In c (countries (filters s)) ->
      toggleCountry Date_of_string c (toggleCountry Date_of_string c s) = s).
Proof.
  intros Hs.
  assert (Hc : consistent Date_of_string s).
  { subst s. apply run_consistent, create_consistent. }
  unfold consistent in Hc.
  destruct s as [all f filtered]. simpl in Hc. subst filtered.
  unfold toggleCountry, setCountries, recompute. simpl.
  split; [|split; [|split]].
  - unfold filterTransactions. apply filter_ext. intros t.
    destruct f as [dr cs pm pr dc dt]. simpl.
    apply (keeps_countries_ext
             {| dateRange := dr; countries := cs; paymentMethods := pm;
                processors := pr; declineCodes := dc; declineTypes := dt |}).
    intros y. apply (toggled_twice_In Country_eqb Country_eqb_spec).
  - intros x. apply (toggled_twice_In Country_eqb Country_eqb_spec).
  - reflexivity.
  - intros Hc.
    rewrite (toggled_on_off Country_eqb Country_eqb_spec _ _ Hc).
    destruct f; reflexivity.
Qed.

End ToggleCountry.

(** C9 as stated fails when the country was selected before the first
    toggle: with Mexico and Brazil selected, toggling Mexico twice leaves
    Brazil first and Mexico last. *)
Lemma toggleCountry_twice_moves_selected_country :
  countries (filters sample_store) = [Mexico; Brazil]
  /\ countries (filters (toggleCountry Date_sample Mexico
                           (toggleCountry Date_sample Mexico sample_store)))
     = [Brazil; Mexico]
  /\ filters (toggleCountry Date_sample Mexico
                (toggleCountry Date_sample Mexico sample_store))
     <> filters sample_store.
Proof.
  split; [reflexivity|]. split; [reflexivity|].
  intros H. apply (f_equal countries) in H. vm_compute in H. discriminate.
Qed.

Lemma toggleCountry_twice_witness :
  toggleCountry Date_sample Colombia
    (toggleCountry Date_sample Colombia sample_store) = sample_store.
Proof.
  destruct (@toggleCountry_twice Q Date_sample sample_Q
              [ToggleCountry Mexico; ToggleCountry Brazil] Colombia
              sample_store eq_refl) as (_ & _ & _ & H).
  apply H. vm_compute. intuition discriminate.
Defined.

(** ** [Array_sort] *)

Section Sorting.
Context {A : Type} (cmp : A -> A -> Z).

Lemma insert_by_perm (x : A) (l : list A) :
  Permutation (insert_by cmp x l) (x :: l).
Proof.
  induction l as [|y l IH]; simpl; [reflexivity|].
  destruct (cmp x y <=? 0)%Z; [reflexivity|].
  rewrite IH. apply perm_swap.
Qed.

Lemma Array_sort_perm (l : list A) : Permutation (Array_sort cmp l) l.
Proof.
  induction l as [|x l IH]; simpl; [reflexivity|].
  rewrite insert_by_perm. now apply perm_skip.
Qed.

Lemma Array_sort_In (l : list A) (x : A) : In x (Array_sort cmp l) <-> In x l.
Proof.
  split; apply Permutation_in; [|symmetry]; apply Array_sort_perm.
Qed.

Lemma Array_sort_length (l : list A) :
  List.length (Array_sort cmp l) = List.length l.
Proof. apply Permutation_length, Array_sort_perm. Qed.

(** A comparator that subtracts a count from another sorts by that count,
    largest first. *)
Variable key : A -> nat.
Hypothesis cmp_key :
  forall a b, cmp a b = (Z.of_nat (key b) - Z.of_nat (key a))%Z.

Lemma insert_by_desc (x : A) (l : list A) :
  StronglySorted (fun a b => key b <= key a) l ->
  StronglySorted (fun a b => key b <= key a) (insert_by cmp x l).
Proof.
  induction 1 as [|y l Hl IH Hy]; simpl.
  - constructor; constructor.
  - destruct (cmp x y <=? 0)%Z eqn:E.
    + apply Z.leb_le in E. rewrite cmp_key in E.
      constructor; [now constructor|]. constructor; [lia|].
      eapply Forall_impl; [|exact Hy]. simpl. intros; lia.
    + apply Z.leb_gt in E. rewrite cmp_key in E.
      constructor; [exact IH|].
      apply (Permutation_Forall (x := x :: l));
        [symmetry; apply insert_by_perm|].
      constructor; [lia|exact Hy].
Qed.

Lemma Array_sort_desc (l : list A) :
  StronglySorted (fun a b => key b <= key a) (Array_sort cmp l).
Proof.
  induction l as [|x l IH]; simpl; [constructor|].
  now apply insert_by_desc.
Qed.

End Sorting.

(** ** Grouping into a dictionary *)

Section Grouping.
Context {K V : Type} (eqb : K -> K -> bool).
Hypothesis eqb_spec : forall a b, eqb a b = true <-> a = b.

Lemma eqb_refl_true (k : K) : eqb k k = true.
Proof. now apply eqb_spec. Qed.

Lemma eqb_sym (a b : K) : eqb a b = eqb b a.
Proof.
  destruct (eqb a b) eqn:E, (eqb b a) eqn:E'; try reflexivity.
  - apply eqb_spec in E. subst. now rewrite eqb_refl_true in E'.
  - apply eqb_spec in E'. subst. now rewrite eqb_refl_true in E.
Qed.

Lemma push_at_keys (k : K) (v : V) (acc : list (K * list V)) (k0 : K) :
  In k0 (map fst (push_at eqb k v acc)) <-> k0 = k \/ In k0 (map fst acc).
Proof.
  induction acc as [|[k' vs] acc IH]; simpl.
  - intuition congruence.
  - destruct (eqb k' k) eqn:E; simpl.
    + apply eqb_spec in E. subst. intuition congruence.
    + rewrite IH. intuition congruence.
Qed.

Lemma push_at_NoDup (k : K) (v : V) (acc : list (K * list V)) :
  NoDup (map fst acc) -> NoDup (map fst (push_at eqb k v acc)).
Proof.
  induction acc as [|[k' vs] acc IH]; simpl; intros H.
  - constructor; [intros []|constructor].
  - inversion H as [|? ? Hk' Hacc]; subst.
    destruct (eqb k' k) eqn:E; simpl.
    + now constructor.
    + constructor; [|now apply IH].
      rewrite push_at_keys. intros [->|Hin]; [|contradiction].
      now rewrite eqb_refl_true in E.
Qed.

Lemma push_at_group_of (k : K) (v : V) (acc : list (K * list V)) (k0 : K) :
  group_of eqb k0 (push_at eqb k v acc)
  = if eqb k k0 then group_of eqb k0 acc ++ [v] else group_of eqb k0 acc.
Proof.
  unfold group_of. induction acc as [|[k' vs] acc IH]; simpl.
  - destruct (eqb k k0); reflexivity.
  - destruct (eqb k' k) eqn:E; simpl.
    + apply eqb_spec in E. subst k'. destruct (eqb k k0); reflexivity.
    + destruct (eqb k' k0) eqn:E0; simpl; [|exact IH].
      apply eqb_spec in E0. subst k'. rewrite eqb_sym, E. reflexivity.
Qed.

Lemma push_at_held (k : K) (v : V) (acc : list (K * list V)) :
  held (push_at eqb k v acc) = S (held acc).
Proof.
  unfold held. induction acc as [|[k' vs] acc IH]; simpl; [reflexivity|].
  destruct (eqb k' k); simpl.
  - rewrite length_app. simpl. lia.
  - rewrite IH. lia.
Qed.

Lemma group_of_entry (k : K) (vs : list V) (acc : list (K * list V)) :
  NoDup (map fst acc) -> In (k, vs) acc -> group_of eqb k acc = vs.
Proof.
  unfold group_of. induction acc as [|[k' vs'] acc IH]; simpl; intros Hnd Hin.
  - contradiction.
  - inversion Hnd as [|? ? Hk' Hacc]; subst. destruct Hin as [E|Hin].
    + inversion E; subst. now rewrite eqb_refl_true.
    + destruct (eqb k' k) eqn:E.
      * apply eqb_spec in E. subst k'. exfalso. apply Hk'.
        change k with (fst (k, vs)). now apply in_map.
      * now apply IH.
Qed.

Variable key : V -> option K.

Lemma grouping_snoc (acc : list (K * list V)) (l : list V) (v : V) :
  grouping eqb key acc (l ++ [v])
  = match key v with
    | Some k => push_at eqb k v (grouping eqb key acc l)
    | None => grouping eqb key acc l
    end.
Proof. unfold grouping. now rewrite fold_left_app. Qed.

Lemma grouping_NoDup (acc : list (K * list V)) (l : list V) :
  NoDup (map fst acc) -> NoDup (map fst (grouping eqb key acc l)).
Proof.
  intros H. induction l as [|v l IH] using rev_ind; [exact H|].
  rewrite grouping_snoc. destruct (key v); [now apply push_at_NoDup|exact IH].
Qed.

Lemma grouping_group_of (acc : list (K * list V)) (l : list V) (k : K) :
  group_of eqb k (grouping eqb key acc l)
  = group_of eqb k acc ++ filter (key_is eqb key k) l.
Proof.
  induction l as [|v l IH] using rev_ind; [simpl; now rewrite app_nil_r|].
  rewrite grouping_snoc, filter_app. simpl. unfold key_is at 2.
  destruct (key v) as [k'|]; [|now rewrite app_nil_r].
  rewrite push_at_group_of, IH.
  destruct (eqb k' k); [now rewrite app_assoc | now rewrite app_nil_r].
Qed.

Lemma grouping_held (acc : list (K * list V)) (l : list V) :
  held (grouping eqb key acc l)
  = held acc + List.length (filter (has_key key) l).
Proof.
  induction l as [|v l IH] using rev_ind; [simpl; lia|].
  rewrite grouping_snoc, filter_app, length_app. simpl. unfold has_key at 2.
  destruct (key v); simpl; [rewrite push_at_held|]; lia.
Qed.

(** What a dictionary built from nothing holds under each of its keys. *)
Lemma grouping_entry (l : list V) (k : K) (vs : list V) :
  In (k, vs) (grouping eqb key [] l) -> vs = filter (key_is eqb key k) l.
Proof.
  intros Hin.
  rewrite <- (group_of_entry k vs (grouping eqb key [] l));
    [|apply grouping_NoDup; constructor|exact Hin].
  now rewrite grouping_group_of.
Qed.

End Grouping.

(** ** Aggregations, whatever the arithmetic *)

Lemma list_sum_perm (l l' : list nat) :
  Permutation l l' -> list_sum l = list_sum l'.
Proof. induction 1; simpl; lia. Qed.

Lemma fold_left_pointwise {A B : Type} (f g : A -> B -> A) (l : list B) (a : A) :
  (forall a b, f a b = g a b) -> fold_left f l a = fold_left g l a.
Proof.
  intros H. revert a. induction l as [|b l IH]; simpl; intros a; [reflexivity|].
  now rewrite H, IH.
Qed.

Section AggregationProperties.
Context {R : Type} {num : Number R}.

(** No value of a dimension is the empty string. *)
Lemma dimension_value_not_empty (D : GroupByDimension) (t : Transaction R)
      (v : string) :
  dimension_value D t = Some v -> String.eqb v "" = false.
Proof.
  destruct D; simpl.
  - intros E; inversion E; subst. now destruct (country t).
  - intros E; inversion E; subst. now destruct (payment_method t).
  - intros E; inversion E; subst. now destruct (processor t).
  - destruct (decline_code t) as [c|]; simpl; intros E; inversion E; subst.
    now destruct c.
Qed.

Lemma group_by_value_grouping (D : GroupByDimension) (T : list (Transaction R)) :
  group_by_value D T = grouping String.eqb (dimension_value D) [] T.
Proof.
  unfold group_by_value, grouping. apply fold_left_pointwise. intros acc t.
  destruct (dimension_value D t) as [v|] eqn:E; [|reflexivity].
  now rewrite (dimension_value_not_empty D t E).
Qed.

Lemma aggregate_totals (G : list (string * list (Transaction R))) :
  list_sum (map (@DimensionAggregate.total R) (map aggregate G)) = held G.
Proof.
  unfold held. induction G as [|[k vs] G IH]; simpl; [reflexivity|].
  now rewrite IH.
Qed.




(** The rate computed beside a pair of counts is the guarded quotient. *)
Lemma guarded_rate (approved total : nat) :
  rate_is (if 0 <? total
           then num_mul (num_div (num_of_nat approved) (num_of_nat total))
                        (num_of_nat 100)
           else num_zero)
          approved total.
Proof.
  unfold rate_is. destruct total as [|n]; simpl; split; intros H;
    try reflexivity; try lia; discriminate.
Qed.

Variable Date_of_string : string -> JSDate.
Variable format : JSDate -> string -> option string.
Variable startOfWeek : JSDate -> JSDate.
Variable startOfMonth : JSDate -> JSDate.

(** [groupByTime] fails only where date-fns does. *)
Lemma group_by_date_None (g : TimeGranularity) (T : list (Transaction R))
      (acc : list (string * list (Transaction R))) :
  group_by_date Date_of_string format startOfWeek startOfMonth g acc T = None ->
  exists t, In t T
            /\ formatDate format startOfWeek startOfMonth g
                          (Date_of_string (timestamp t)) = None.
Proof.
  revert acc. induction T as [|t T IH]; simpl; intros acc H; [discriminate|].
  destruct (formatDate format startOfWeek startOfMonth g
                       (Date_of_string (timestamp t))) as [k|] eqn:E.
  - destruct (IH _ H) as [t' [Hin Ht']]. exists t'. split; [now right|exact Ht'].
  - exists t. split; [now left|exact E].
Qed.

(** C6. A rate never carries a division by zero: in the result of
    [getAuthorizationRate], in each group of [groupByDimension] and in each
    point of [groupByTime], [authorizationRate] is approved / total * 100
    when total > 0 and 0 when total = 0; [groupByTime] fails only when
    date-fns rejects a timestamp; and on the empty list
    [getAuthorizationRate] returns the all-zero record. *)
Theorem authorizationRate_guarded :
  (forall T : list (Transaction R),
      rate_is (AuthorizationMetrics.authorizationRate (getAuthorizationRate T))
              (AuthorizationMetrics.approved (getAuthorizationRate T))
              (AuthorizationMetrics.total (getAuthorizationRate T))
      /\ AuthorizationMetrics.total (getAuthorizationRate T) = List.length T
      /\ AuthorizationMetrics.approved (getAuthorizationRate T)
         = List.length (approved_only T))
  /\ (forall (T : list (Transaction R)) (D : GroupByDimension),
         Forall (fun g => rate_is (DimensionAggregate.authorizationRate g)
                                  (DimensionAggregate.approved g)
                                  (DimensionAggregate.total g))
                (groupByDimension T D))
  /\ (forall (T : list (Transaction R)) (g : TimeGranularity),
         match groupByTime Date_of_string format startOfWeek startOfMonth T g with
         | Some points =>
             Forall (fun p => rate_is (TimeSeriesDataPoint.authorizationRate p)
                                      (TimeSeriesDataPoint.approved p)
                                      (TimeSeriesDataPoint.total p))
                    points
         | None =>
             exists t, In t T
                       /\ formatDate format startOfWeek startOfMonth g
                                     (Date_of_string (timestamp t)) = None
         end)
  /\ getAuthorizationRate (@nil (Transaction R))
     = {| AuthorizationMetrics.total := 0;
          AuthorizationMetrics.approved := 0;
          AuthorizationMetrics.declined := 0;
          AuthorizationMetrics.authorizationRate := num_zero;
          AuthorizationMetrics.totalRevenue := num_zero;
          AuthorizationMetrics.lostRevenue := num_zero |}.
Proof.
  split; [|split; [|split]].
  - intros T. split; [apply guarded_rate | split; reflexivity].
  - intros T D. unfold groupByDimension.
    apply (Permutation_Forall (x := map aggregate (group_by_value D T)));
      [symmetry; apply Array_sort_perm|].
    apply Forall_forall. intros a Ha. apply in_map_iff in Ha.
    destruct Ha as [[k vs] [<- _]]. apply guarded_rate.
  - intros T g. unfold groupByTime.
    destruct (group_by_date Date_of_string format startOfWeek startOfMonth
                            g [] T) as [grouped|] eqn:E.
    + apply (Permutation_Forall
               (x := map (data_point Date_of_string) grouped));
        [symmetry; apply Array_sort_perm|].
      apply Forall_forall. intros p Hp. apply in_map_iff in Hp.
      destruct Hp as [[k vs] [<- _]]. apply guarded_rate.
    + exact (group_by_date_None g T [] E).
  - reflexivity.
Qed.

End AggregationProperties.

(** ** Decline impact: order and emptiness, whatever the arithmetic *)

Lemma StronglySorted_map {A B : Type} (f : A -> B) (rel : B -> B -> Prop)
      (l : list A) :
  StronglySorted rel (map f l) <-> StronglySorted (fun a b => rel (f a) (f b)) l.
Proof.
  induction l as [|a l IH]; simpl.
  - split; constructor.
  - split; intros H; inversion H; subst; constructor;
      try (now apply IH); rewrite Forall_map in *; assumption.
Qed.

Section DeclineImpact.
Context {R : Type} {num : Number R}.

Lemma accumulate_counts (c : R) (l : list (DeclineCodeAnalysis.t R)) :
  map (@DeclineCodeAnalysis.count R) (accumulate c l)
  = map (@DeclineCodeAnalysis.count R) l.
Proof.
  revert c. induction l as [|i l IH]; simpl; intros c; [reflexivity|].
  now rewrite IH.
Qed.

Lemma accumulate_length (c : R) (l : list (DeclineCodeAnalysis.t R)) :
  List.length (accumulate c l) = List.length l.
Proof.
  rewrite <- (length_map (@DeclineCodeAnalysis.count R)), accumulate_counts.
  apply length_map.
Qed.

Lemma getDeclineImpact_sorted (T : list (Transaction R)) :
  StronglySorted
    (fun a b => DeclineCodeAnalysis.count b <= DeclineCodeAnalysis.count a)
    (getDeclineImpact T).
Proof.
  unfold getDeclineImpact.
  destruct (List.length (filter declined_with_code T) =? 0); [constructor|].
  apply (StronglySorted_map (@DeclineCodeAnalysis.count R)
                            (fun x y => y <= x)).
  rewrite accumulate_counts.
  apply (StronglySorted_map (@DeclineCodeAnalysis.count R)
                            (fun x y => y <= x)).
  apply Array_sort_desc. reflexivity.
Qed.

Lemma group_by_code_held (l : list (Transaction R)) :
  (forall t, In t l -> declined_with_code t = true) ->
  held (group_by_code l) = List.length l.
Proof.
  intros H. unfold group_by_code.
  change (held (grouping DeclineCode_eqb (@decline_code R) [] l)
          = List.length l).
  rewrite grouping_held. simpl. f_equal. apply filter_all.
  intros t Ht. specialize (H t Ht). unfold declined_with_code in H.
  unfold has_key. apply andb_true_iff in H. tauto.
Qed.

Lemma getDeclineImpact_length (T : list (Transaction R)) :
  List.length (getDeclineImpact T)
  = List.length (group_by_code (filter declined_with_code T)).
Proof.
  unfold getDeclineImpact.
  destruct (List.length (filter declined_with_code T) =? 0) eqn:E.
  - apply Nat.eqb_eq in E. apply length_zero_iff_nil in E. now rewrite E.
  - now rewrite accumulate_length, Array_sort_length, length_map.
Qed.

Lemma declined_with_code_spec (t : Transaction R) :
  declined_with_code t = true
  <-> status t = declined /\ decline_code t <> None.
Proof.
  unfold declined_with_code. rewrite andb_true_iff.
  destruct (status t), (decline_code t); simpl; intuition congruence.
Qed.

(** Without a declined transaction that has a code, the result is empty. *)
Lemma getDeclineImpact_nil (T : list (Transaction R)) :
  (forall t, In t T -> ~ (status t = declined /\ decline_code t <> None)) ->
  getDeclineImpact T = [].
Proof.
  intros H. unfold getDeclineImpact.
  replace (filter declined_with_code T) with (@nil (Transaction R));
    [reflexivity|].
  symmetry. induction T as [|t T IH]; simpl; [reflexivity|].
  destruct (declined_with_code t) eqn:E.
  - apply declined_with_code_spec in E. elim (H t (or_introl eq_refl) E).
  - apply IH. intros t' Ht'. apply H. now right.
Qed.

(** With one, it is not. *)
Lemma getDeclineImpact_not_nil (T : list (Transaction R)) :
  (exists t, In t T /\ status t = declined /\ decline_code t <> None) ->
  getDeclineImpact T <> [].
Proof.
  intros [t [Hin Ht]] E. apply (f_equal (@List.length _)) in E.
  rewrite getDeclineImpact_length in E. simpl in E.
  apply length_zero_iff_nil in E.
  assert (Hh : held (group_by_code (filter declined_with_code T))
               = List.length (filter declined_with_code T)).
  { apply group_by_code_held. intros t' Ht'. now apply filter_In in Ht'. }
  rewrite E in Hh. simpl in Hh. symmetry in Hh.
  apply length_zero_iff_nil in Hh.
  assert (Hf : In t (filter declined_with_code T)).
  { apply filter_In. split; [exact Hin|]. now apply declined_with_code_spec. }
  rewrite Hh in Hf. contradiction.
Qed.

End DeclineImpact.

(** ** Sums and percentages in exact arithmetic *)

Lemma Qsum_perm (l l' : list Q) :
  Permutation l l' -> (fold_right Qplus 0 l == fold_right Qplus 0 l')%Q.
Proof.
  induction 1 as [|x l l' _ IH|x y l|l l' l'' _ IH1 _ IH2]; simpl.
  - reflexivity.
  - now rewrite IH.
  - ring.
  - now rewrite IH1.
Qed.

Lemma sum_amounts_from (l : list (Transaction Q)) (a : Q) :
  (fold_left (fun sum t => num_add sum (amount t)) l a
   == a + fold_right Qplus 0 (map (@amount Q) l))%Q.
Proof.
  revert a. induction l as [|t l IH]; simpl; intros a; [ring|].
  rewrite IH. ring.
Qed.

Lemma sum_amounts_exact (l : list (Transaction Q)) :
  (sum_amounts l == fold_right Qplus 0 (map (@amount Q) l))%Q.
Proof. unfold sum_amounts. rewrite sum_amounts_from. simpl. ring. Qed.

Lemma approved_declined_perm {R : Type} (T : list (Transaction R)) :
  Permutation (approved_only T ++ declined_only T) T.
Proof.
  induction T as [|t T IH]; simpl; [constructor|].
  destruct (status t); simpl.
  - now apply perm_skip.
  - symmetry. apply Permutation_cons_app. now symmetry.
Qed.

Lemma getLostRevenue_is_lostRevenue {R : Type} {num : Number R}
      (T : list (Transaction R)) :
  getLostRevenue T = AuthorizationMetrics.lostRevenue (getAuthorizationRate T).
Proof. reflexivity. Qed.

(** C7 (amended). [totalRevenue] adds the amounts of the approved
    transactions and [lostRevenue] those of the declined ones, each
    transaction of the list being in exactly one of the two groups; in exact
    arithmetic the two add up to the sum of all the amounts. *)
Theorem revenue_partition :
  (forall (R : Type) (num : Number R) (T : list (Transaction R)),
      AuthorizationMetrics.totalRevenue (getAuthorizationRate T)
      = sum_amounts (approved_only T)
      /\ AuthorizationMetrics.lostRevenue (getAuthorizationRate T)
         = sum_amounts (declined_only T)
      /\ Permutation (approved_only T ++ declined_only T) T
      /\ Forall (fun t => status t = approved) (approved_only T)
      /\ Forall (fun t => status t = declined) (declined_only T))
  /\ (forall T : list (Transaction Q),
         (AuthorizationMetrics.totalRevenue (getAuthorizationRate T)
          + AuthorizationMetrics.lostRevenue (getAuthorizationRate T)
          == sum_amounts T)%Q).
Proof.
  split.
  - intros R num T. split; [reflexivity|]. split; [reflexivity|].
    split; [apply approved_declined_perm|].
    split; apply Forall_forall; intros t Ht; apply filter_In in Ht;
      destruct Ht as [_ Ht]; now destruct (status t).
  - intros T. simpl. rewrite !sum_amounts_exact.
    rewrite <- (Qsum_perm (Permutation_map (@amount Q)
                                           (approved_declined_perm T))).
    rewrite map_app. generalize (map (@amount Q) (approved_only T)).
    intros l. induction l as [|x l IH]; simpl; [ring|].
    rewrite <- IH. ring.
Qed.

(** C7 as stated fails in the arithmetic of the program: with an approved
    amount 0.1 and declined amounts 0.2 and 0.3, [totalRevenue + lostRevenue]
    is 0.1 + 0.5 = 0.6, the amounts added in order give (0.1 + 0.2) + 0.3 =
    0.6000000000000001, and the sum of the three amounts as rationals is
    neither. *)
Lemma revenue_partition_rounds_in_binary64 :
  PrimFloat.eqb
    (num_add (AuthorizationMetrics.totalRevenue (getAuthorizationRate sample_float))
             (AuthorizationMetrics.lostRevenue (getAuthorizationRate sample_float)))
    (sum_amounts sample_float) = false
  /\ PrimFloat.eqb
       (num_add (AuthorizationMetrics.totalRevenue (getAuthorizationRate sample_float))
                (AuthorizationMetrics.lostRevenue (getAuthorizationRate sample_float)))
       0.6 = true
  /\ PrimFloat.eqb (sum_amounts sample_float) 0.6000000000000001 = true
  /\ ~ (exact_value
          (num_add
             (AuthorizationMetrics.totalRevenue (getAuthorizationRate sample_float))
             (AuthorizationMetrics.lostRevenue (getAuthorizationRate sample_float)))
        == fold_right Qplus 0
             (map (fun t => exact_value (amount t)) sample_float))%Q.
Proof.
  split; [vm_compute; reflexivity|]. split; [vm_compute; reflexivity|].
  split; [vm_compute; reflexivity|].
  intros H. vm_compute in H. discriminate.
Qed.

(** ** Decline impact: the running percentage in exact arithmetic *)

Lemma count_not_zero (n : nat) :
  n <> 0 -> ~ (inject_Z (Z.of_nat n) == 0)%Q.
Proof.
  intros Hn H. unfold Qeq in H. simpl in H. lia.
Qed.

Lemma count_nonneg (n : nat) : (0 <= inject_Z (Z.of_nat n))%Q.
Proof. unfold Qle. simpl. lia. Qed.

Lemma percentage_nonneg (n : nat) (e : DeclineCode * list (Transaction Q)) :
  (0 <= DeclineCodeAnalysis.percentage (analyse n e))%Q.
Proof.
  destruct e as [k vs]. simpl. apply Qmult_le_0_compat.
  - unfold Qdiv. apply Qmult_le_0_compat; [apply count_nonneg|].
    apply Qinv_le_0_compat, count_nonneg.
  - unfold Qle. simpl. lia.
Qed.

Lemma percentages_sum (n : nat) (G : list (DeclineCode * list (Transaction Q))) :
  n <> 0 ->
  (fold_right Qplus 0
     (map (@DeclineCodeAnalysis.percentage Q) (map (analyse n) G))
   == inject_Z (Z.of_nat (held G)) / inject_Z (Z.of_nat n) * 100)%Q.
Proof.
  intros Hn. pose proof (count_not_zero Hn) as Hq. unfold held.
  induction G as [|[k vs] G IH]; simpl.
  - field. exact Hq.
  - rewrite IH. rewrite Nat2Z.inj_add, inject_Z_plus.
    change (inject_Z (Z.of_nat 100)) with 100%Q. field. exact Hq.
Qed.

Lemma last_after_head {A : Type} (l : list A) (a d : A) :
  last (a :: l) d = last l a.
Proof.
  revert a d. induction l as [|b l IH]; intros a d; [reflexivity|].
  change (last (a :: b :: l) d) with (last (b :: l) d).
  now rewrite (IH b d), (IH b a).
Qed.

(** The running total climbs from [c] by the percentages it meets. *)
Lemma accumulate_running (l : list (DeclineCodeAnalysis.t Q)) (c : Q) :
  Forall (fun i => (0 <= DeclineCodeAnalysis.percentage i)%Q) l ->
  exists cs : list Q,
    map (@DeclineCodeAnalysis.cumulativePercentage Q) (accumulate c l)
    = map Some cs
    /\ StronglySorted Qle cs
    /\ Forall (Qle c) cs
    /\ (last cs c
        == c + fold_right Qplus 0 (map (@DeclineCodeAnalysis.percentage Q) l))%Q.
Proof.
  intros H. revert c. induction H as [|i l Hi Hl IH]; intros c.
  - exists []. simpl. repeat split; try constructor. ring.
  - destruct (IH (c + DeclineCodeAnalysis.percentage i)%Q)
      as (cs & Hmap & Hsorted & Hge & Hlast).
    exists ((c + DeclineCodeAnalysis.percentage i)%Q :: cs).
    assert (Hc : (c <= c + DeclineCodeAnalysis.percentage i)%Q).
    { rewrite <- (Qplus_0_r c) at 1. apply Qplus_le_r. exact Hi. }
    split; [simpl; now rewrite Hmap|]. split; [now constructor|]. split.
    + constructor; [exact Hc|]. eapply Forall_impl; [|exact Hge].
      intros q Hq. eapply Qle_trans; eassumption.
    + rewrite last_after_head, Hlast. simpl. ring.
Qed.

(** C4. When a declined transaction with a decline code is in the list,
    [getDeclineImpact] is a non-empty list sorted by [count], largest first,
    and without such a transaction it is the empty list, whatever the
    arithmetic; in exact arithmetic its cumulative percentages never
    decrease and end at 100. *)
Theorem getDeclineImpact_pareto :
  (forall (R : Type) (num : Number R) (T : list (Transaction R)),
      ((exists t, In t T /\ status t = declined /\ decline_code t <> None) ->
       getDeclineImpact T <> []
       /\ StronglySorted
            (fun a b =>
               DeclineCodeAnalysis.count b <= DeclineCodeAnalysis.count a)
            (getDeclineImpact T))
      /\ ((forall t, In t T ->
                     ~ (status t = declined /\ decline_code t <> None)) ->
          getDeclineImpact T = []))
  /\ (forall T : list (Transaction Q),
         (exists t, In t T /\ status t = declined /\ decline_code t <> None) ->
         exists cs : list Q,
           map (@DeclineCodeAnalysis.cumulativePercentage Q)
               (getDeclineImpact T)
           = map Some cs
           /\ cs <> []
           /\ StronglySorted Qle cs
           /\ (last cs 0 == 100)%Q).
Proof.
  split.
  { intros R num T. split; [|apply getDeclineImpact_nil].
    intros Hex. split; [now apply getDeclineImpact_not_nil|].
    apply getDeclineImpact_sorted. }
  intros T Hex.
  pose proof (@getDeclineImpact_not_nil Q _ T Hex) as Hne.
  unfold getDeclineImpact in *.
  destruct (List.length (filter declined_with_code T) =? 0) eqn:E;
    [now elim Hne|].
  apply Nat.eqb_neq in E.
  set (declined := filter declined_with_code T) in *.
  set (items := map (analyse (List.length declined)) (group_by_code declined))
    in *.
  destruct (@accumulate_running (Array_sort by_count_desc items) 0%Q)
    as (cs & Hmap & Hsorted & _ & Hlast).
  { apply (Permutation_Forall (x := items)); [symmetry; apply Array_sort_perm|].
    apply Forall_forall. intros i Hi. apply in_map_iff in Hi.
    destruct Hi as [e [<- _]]. apply percentage_nonneg. }
  exists cs. split; [exact Hmap|]. split.
  { intros ->. apply Hne. apply map_eq_nil in Hmap. exact Hmap. }
  split; [exact Hsorted|].
  rewrite Hlast.
  rewrite (Qsum_perm (Permutation_map (@DeclineCodeAnalysis.percentage Q)
                                      (Array_sort_perm by_count_desc items))).
  unfold items. rewrite (percentages_sum _ E).
  rewrite group_by_code_held.
  - field. apply count_not_zero. exact E.
  - intros t Ht. unfold declined in Ht. now apply filter_In in Ht.
Qed.

Lemma getDeclineImpact_pareto_witness :
  (getDeclineImpact sample_thirds <> []
   /\ StronglySorted
        (fun a b => DeclineCodeAnalysis.count b <= DeclineCodeAnalysis.count a)
        (getDeclineImpact sample_thirds))
  /\ exists cs : list Q,
      map (@DeclineCodeAnalysis.cumulativePercentage Q) (getDeclineImpact sample_Q)
      = map Some cs
      /\ cs <> []
      /\ StronglySorted Qle cs
      /\ (last cs 0 == 100)%Q.
Proof.
  split.
  - apply (proj1 (proj1 getDeclineImpact_pareto float _ sample_thirds)).
    eexists. split; [left; reflexivity|]. split; [reflexivity|discriminate].
  - apply (proj2 getDeclineImpact_pareto sample_Q).
    exists sample_soft_decline. split; [right; left; reflexivity|].
    split; [reflexivity|discriminate].
Defined.

(** In binary64 the same running total stops short of 100 by a rounding
    error: three codes with one decline each end at 99.99999999999999. *)
Example cumulative_percentage_rounds_in_binary64 :
  map (fun i => DeclineCodeAnalysis.count i) (getDeclineImpact sample_thirds)
  = [1; 1; 1]
  /\ map (fun i => option_map (fun c => PrimFloat.ltb c 100)
                              (DeclineCodeAnalysis.cumulativePercentage i))
         (getDeclineImpact sample_thirds)
     = [Some true; Some true; Some true]
  /\ map (fun i => option_map (fun c => PrimFloat.ltb 99.9999 c)
                              (DeclineCodeAnalysis.cumulativePercentage i))
         (getDeclineImpact sample_thirds)
     = [Some false; Some false; Some true].
Proof. repeat split; vm_compute; reflexivity. Qed.

(** The rate of the empty list in binary64 is the number 0, not NaN. *)
Example empty_rate_is_zero_in_binary64 :
  PrimFloat.eqb
    (AuthorizationMetrics.authorizationRate
       (getAuthorizationRate (@nil (Transaction float)))) 0 = true
  /\ PrimFloat.is_nan
       (AuthorizationMetrics.authorizationRate
          (getAuthorizationRate (@nil (Transaction float)))) = false.
Proof. split; vm_compute; reflexivity. Qed.

(** The mixed list of the specification's scenario 3. *)
Example scenario_mixed_input :
  map (fun i => (DeclineCodeAnalysis.code i, DeclineCodeAnalysis.type i,
                 DeclineCodeAnalysis.count i))
      (getDeclineImpact sample_Q)
  = [(insufficient_funds, soft, 1); (suspected_fraud, hard, 1)]
  /\ AuthorizationMetrics.total (getAuthorizationRate sample_Q) = 3
  /\ AuthorizationMetrics.declined (getAuthorizationRate sample_Q) = 2.
Proof. repeat split; vm_compute; reflexivity. Qed.

(* ================================================================== *)
(** * Further properties of the code *)

(** ** Counting and filtering *)

Lemma approved_declined_length {R : Type} (T : list (Transaction R)) :
  List.length (approved_only T) + List.length (declined_only T) = List.length T.
Proof.
  induction T as [|t T IH]; simpl; [reflexivity|].
  destruct (status t); simpl; lia.
Qed.

(** X1. In the result of [getAuthorizationRate] the approved and declined
    counts add up to the total, and [declined], computed as a difference, is
    the number of declined transactions. *)
Theorem getAuthorizationRate_counts {R : Type} {num : Number R}
        (T : list (Transaction R)) :
  AuthorizationMetrics.approved (getAuthorizationRate T)
  + AuthorizationMetrics.declined (getAuthorizationRate T)
  = AuthorizationMetrics.total (getAuthorizationRate T)
  /\ AuthorizationMetrics.declined (getAuthorizationRate T)
     = List.length (declined_only T)
  /\ AuthorizationMetrics.total (getAuthorizationRate T) = List.length T.
Proof.
  simpl. pose proof (approved_declined_length T). lia.
Qed.

Lemma filter_twice {A : Type} (f g : A -> bool) (l : list A) :
  filter f (filter g l) = filter (fun x => g x && f x) l.
Proof.
  induction l as [|a l IH]; simpl; [reflexivity|].
  destruct (g a); simpl; [destruct (f a)|]; now rewrite IH.
Qed.

Section FilterComposition.
Context {R : Type}.
Variable Date_of_string : string -> JSDate.

(** X2. Filtering is idempotent; two filters applied one after the other
    give the same list in either order; and a list filtered in two pieces is
    the two filtered pieces put together. *)
Theorem filterTransactions_composes
        (T T' : list (Transaction R)) (F F' : Partial.TransactionFilters) :
  filterTransactions Date_of_string (filterTransactions Date_of_string T F) F
  = filterTransactions Date_of_string T F
  /\ filterTransactions Date_of_string (filterTransactions Date_of_string T F) F'
     = filterTransactions Date_of_string (filterTransactions Date_of_string T F') F
  /\ filterTransactions Date_of_string (T ++ T') F
     = filterTransactions Date_of_string T F
       ++ filterTransactions Date_of_string T' F
  /\ List.length (filterTransactions Date_of_string T F) <= List.length T.
Proof.
  unfold filterTransactions. repeat split.
  - rewrite filter_twice. apply filter_ext. intros t.
    now destruct (keeps Date_of_string F t).
  - rewrite !filter_twice. apply filter_ext. intros t. apply andb_comm.
  - apply filter_app.
  - apply filter_length_le.
Qed.

End FilterComposition.

(** ** Rows of the decline analysis and groups of a dimension *)

Section GroupingKeys.
Context {K V : Type} (eqb : K -> K -> bool).
Hypothesis eqb_spec : forall a b, eqb a b = true <-> a = b.
Variable key : V -> option K.

Lemma grouping_keys (acc : list (K * list V)) (l : list V) (k : K) :
  In k (map fst (grouping eqb key acc l))
  <-> In k (map fst acc) \/ exists v, In v l /\ key v = Some k.
Proof.
  induction l as [|v l IH] using rev_ind.
  - simpl. split; [now left|]. intros [H|[v [[] _]]]. exact H.
  - rewrite grouping_snoc. destruct (key v) as [k'|] eqn:E.
    + rewrite (push_at_keys eqb eqb_spec), IH. split.
      * intros [->|[H|[v' [Hin Hk]]]].
        -- right. exists v. split; [apply in_or_app; right; now left|exact E].
        -- now left.
        -- right. exists v'. split; [apply in_or_app; now left|exact Hk].
      * intros [H|[v' [Hin Hk]]]; [right; now left|].
        apply in_app_or in Hin. destruct Hin as [Hin|[<-|[]]].
        -- right. right. now exists v'.
        -- left. congruence.
    + rewrite IH. split.
      * intros [H|[v' [Hin Hk]]]; [now left|].
        right. exists v'. split; [apply in_or_app; now left|exact Hk].
      * intros [H|[v' [Hin Hk]]]; [now left|].
        apply in_app_or in Hin. destruct Hin as [Hin|[<-|[]]].
        -- right. now exists v'.
        -- congruence.
Qed.

(** A dictionary built from nothing has no empty group. *)
Lemma grouping_entry_not_empty (l : list V) (k : K) (vs : list V) :
  In (k, vs) (grouping eqb key [] l) -> vs <> [].
Proof.
  intros Hin.
  assert (Hk : In k (map fst (grouping eqb key [] l))).
  { change k with (fst (k, vs)). now apply in_map. }
  apply grouping_keys in Hk. destruct Hk as [[]|[v [Hv Hkv]]].
  rewrite (grouping_entry eqb eqb_spec key l k vs Hin).
  intros E.
  assert (Hf : In v (filter (key_is eqb key k) l)).
  { apply filter_In. split; [exact Hv|]. unfold key_is. rewrite Hkv.
    now apply eqb_spec. }
  rewrite E in Hf. contradiction.
Qed.

End GroupingKeys.

Section DeclineRows.
Context {R : Type} {num : Number R}.

(** The last [map] of [getDeclineImpact] changes [cumulativePercentage]
    only. *)
Lemma accumulate_In (l : list (DeclineCodeAnalysis.t R)) (c : R)
      (r : DeclineCodeAnalysis.t R) :
  In r (accumulate c l) ->
  exists i, In i l
            /\ DeclineCodeAnalysis.code r = DeclineCodeAnalysis.code i
            /\ DeclineCodeAnalysis.type r = DeclineCodeAnalysis.type i
            /\ DeclineCodeAnalysis.count r = DeclineCodeAnalysis.count i
            /\ DeclineCodeAnalysis.percentage r = DeclineCodeAnalysis.percentage i
            /\ DeclineCodeAnalysis.lostRevenue r = DeclineCodeAnalysis.lostRevenue i
            /\ DeclineCodeAnalysis.averageAmount r
               = DeclineCodeAnalysis.averageAmount i.
Proof.
  revert c. induction l as [|i l IH]; simpl; intros c; [intros []|].
  intros [<-|Hin].
  - exists i. simpl. repeat split; trivial. now left.
  - destruct (IH _ Hin) as [i' [Hi' H]]. exists i'. split; [now right|exact H].
Qed.

Lemma accumulate_codes (c : R) (l : list (DeclineCodeAnalysis.t R)) :
  map (@DeclineCodeAnalysis.code R) (accumulate c l)
  = map (@DeclineCodeAnalysis.code R) l.
Proof.
  revert c. induction l as [|i l IH]; simpl; intros c; [reflexivity|].
  now rewrite IH.
Qed.

Lemma analyse_codes (n : nat) (G : list (DeclineCode * list (Transaction R))) :
  map (@DeclineCodeAnalysis.code R) (map (analyse n) G) = map fst G.
Proof.
  induction G as [|[k vs] G IH]; simpl; [reflexivity|]. now rewrite IH.
Qed.

Lemma analyse_counts (n : nat) (G : list (DeclineCode * list (Transaction R))) :
  list_sum (map (@DeclineCodeAnalysis.count R) (map (analyse n) G)) = held G.
Proof.
  unfold held. induction G as [|[k vs] G IH]; simpl; [reflexivity|].
  now rewrite IH.
Qed.

(** The codes of the rows are those of the dictionary, in some order. *)
Lemma getDeclineImpact_codes (T : list (Transaction R)) :
  Permutation (map (@DeclineCodeAnalysis.code R) (getDeclineImpact T))
              (map fst (group_by_code (filter declined_with_code T))).
Proof.
  unfold getDeclineImpact.
  destruct (List.length (filter declined_with_code T) =? 0) eqn:E.
  - apply Nat.eqb_eq, length_zero_iff_nil in E. rewrite E. constructor.
  - rewrite accumulate_codes.
    rewrite <- (analyse_codes (List.length (filter declined_with_code T))).
    apply Permutation_map, Array_sort_perm.
Qed.

Lemma getDeclineImpact_row (T : list (Transaction R))
      (r : DeclineCodeAnalysis.t R) :
  In r (getDeclineImpact T) ->
  exists vs, In (DeclineCodeAnalysis.code r, vs)
                (group_by_code (filter declined_with_code T))
             /\ DeclineCodeAnalysis.type r
                = classifyDecline (DeclineCodeAnalysis.code r)
             /\ DeclineCodeAnalysis.count r = List.length vs
             /\ DeclineCodeAnalysis.lostRevenue r = sum_amounts vs
             /\ DeclineCodeAnalysis.percentage r
                = num_mul (num_div (num_of_nat (List.length vs))
                                   (num_of_nat
                                      (List.length
                                         (filter declined_with_code T))))
                          (num_of_nat 100)
             /\ DeclineCodeAnalysis.averageAmount r
                = num_div (sum_amounts vs) (num_of_nat (List.length vs)).
Proof.
  unfold getDeclineImpact.
  destruct (List.length (filter declined_with_code T) =? 0); [intros []|].
  intros Hr. apply accumulate_In in Hr.
  destruct Hr as (i & Hi & Hc & Ht & Hn & Hp & Hl & Ha).
  apply Array_sort_In, in_map_iff in Hi. destruct Hi as [[k vs] [<- Hin]].
  simpl in *. exists vs. rewrite Hc. repeat split; assumption.
Qed.

(** X3. The rows of [getDeclineImpact] carry pairwise different codes; a
    row counts the declined transactions of the input that have its code
    and a code at all, of which there is at least one, sums their amounts as
    [lostRevenue] and classifies its code as [type]; each such transaction
    has its row, and the counts add up to their number. *)
Theorem getDeclineImpact_rows (T : list (Transaction R)) :
  NoDup (map (@DeclineCodeAnalysis.code R) (getDeclineImpact T))
  /\ Forall
       (fun r =>
          DeclineCodeAnalysis.count r
          = List.length (declines_with_code (DeclineCodeAnalysis.code r) T)
          /\ 0 < DeclineCodeAnalysis.count r
          /\ DeclineCodeAnalysis.type r
             = classifyDecline (DeclineCodeAnalysis.code r)
          /\ DeclineCodeAnalysis.lostRevenue r
             = sum_amounts
                 (declines_with_code (DeclineCodeAnalysis.code r) T))
       (getDeclineImpact T)
  /\ Forall
       (fun t =>
          status t = declined ->
          forall c, decline_code t = Some c ->
                    In c (map (@DeclineCodeAnalysis.code R)
                              (getDeclineImpact T)))
       T
  /\ list_sum (map (@DeclineCodeAnalysis.count R) (getDeclineImpact T))
     = List.length (filter declined_with_code T).
Proof.
  split; [|split; [|split]].
  - apply (Permutation_NoDup (Permutation_sym (getDeclineImpact_codes T))).
    apply (grouping_NoDup DeclineCode_eqb DeclineCode_eqb_spec). constructor.
  - apply Forall_forall. intros r Hr.
    destruct (getDeclineImpact_row T r Hr) as (vs & Hin & Ht & Hn & Hl & _).
    change (In (DeclineCodeAnalysis.code r, vs)
               (grouping DeclineCode_eqb (@decline_code R) []
                         (filter declined_with_code T))) in Hin.
    pose proof Hin as Hne.
    apply (grouping_entry_not_empty DeclineCode_eqb DeclineCode_eqb_spec)
      in Hne.
    apply (grouping_entry DeclineCode_eqb DeclineCode_eqb_spec) in Hin.
    fold (declines_with_code (DeclineCodeAnalysis.code r) T) in Hin.
    subst vs. repeat split; try assumption.
    rewrite Hn. destruct (declines_with_code _ T); [now elim Hne|simpl; lia].
  - apply Forall_forall. intros t Ht Hd c Hc.
    apply (Permutation_in _ (Permutation_sym (getDeclineImpact_codes T))).
    change (In c (map fst (grouping DeclineCode_eqb (@decline_code R) []
                                    (filter declined_with_code T)))).
    apply (grouping_keys DeclineCode_eqb DeclineCode_eqb_spec). right.
    exists t. split; [|exact Hc]. apply filter_In. split; [exact Ht|].
    unfold declined_with_code. now rewrite Hd, Hc.
  - unfold getDeclineImpact.
    destruct (List.length (filter declined_with_code T) =? 0) eqn:E.
    + apply Nat.eqb_eq in E. now rewrite E.
    + rewrite accumulate_counts.
      rewrite (list_sum_perm
                 (Permutation_map _ (Array_sort_perm by_count_desc _))).
      rewrite analyse_counts. apply group_by_code_held.
      intros t Ht. now apply filter_In in Ht.
Qed.

End DeclineRows.

(** X4. In exact arithmetic each row's [percentage] is its count over the
    number of declined transactions with a code, times 100, the percentages
    of a non-empty result add up to 100, and [averageAmount] times [count]
    gives back [lostRevenue]. *)
Theorem getDeclineImpact_percentages_exact (T : list (Transaction Q)) :
  Forall
    (fun r =>
       (DeclineCodeAnalysis.percentage r
        == inject_Z (Z.of_nat (DeclineCodeAnalysis.count r))
           / inject_Z (Z.of_nat (List.length (filter declined_with_code T)))
           * 100)%Q
       /\ (DeclineCodeAnalysis.averageAmount r
           * inject_Z (Z.of_nat (DeclineCodeAnalysis.count r))
           == DeclineCodeAnalysis.lostRevenue r)%Q)
    (getDeclineImpact T)
  /\ match getDeclineImpact T with
     | [] => True
     | _ :: _ =>
         (fold_right Qplus 0
            (map (@DeclineCodeAnalysis.percentage Q) (getDeclineImpact T))
          == 100)%Q
     end.
Proof.
  split.
  - apply Forall_forall. intros r Hr.
    destruct (getDeclineImpact_row T r Hr) as (vs & Hin & _ & Hn & Hl & Hp & Ha).
    change (In (DeclineCodeAnalysis.code r, vs)
               (grouping DeclineCode_eqb (@decline_code Q) []
                         (filter declined_with_code T))) in Hin.
    apply (grouping_entry_not_empty DeclineCode_eqb DeclineCode_eqb_spec)
      in Hin.
    rewrite Hp, Ha, Hl, Hn. simpl. split; [reflexivity|].
    field. apply count_not_zero. destruct vs; [now elim Hin|discriminate].
  - assert (Hsum : List.length (filter declined_with_code T) <> 0 ->
                   (fold_right Qplus 0
                      (map (@DeclineCodeAnalysis.percentage Q)
                           (getDeclineImpact T))
                    == 100)%Q).
    { intros E. unfold getDeclineImpact.
      rewrite (proj2 (Nat.eqb_neq _ _) E).
      assert (Hm : forall (c : Q) (l : list (DeclineCodeAnalysis.t Q)),
                 map (@DeclineCodeAnalysis.percentage Q) (accumulate c l)
                 = map (@DeclineCodeAnalysis.percentage Q) l).
      { intros c l. revert c. induction l as [|i l IH]; simpl; intros c;
          [reflexivity|]. now rewrite IH. }
      rewrite Hm.
      rewrite (Qsum_perm (Permutation_map (@DeclineCodeAnalysis.percentage Q)
                                          (Array_sort_perm by_count_desc _))).
      rewrite (percentages_sum _ E). rewrite group_by_code_held.
      - field. apply count_not_zero. exact E.
      - intros t Ht. now apply filter_In in Ht. }
    destruct (getDeclineImpact T) as [|r rows] eqn:Eg; [exact I|].
    apply Hsum. intros E0. apply length_zero_iff_nil in E0.
    pose proof (getDeclineImpact_length T) as Hlen.
    rewrite Eg, E0 in Hlen. discriminate.
Qed.

Section DimensionGroups.
Context {R : Type} {num : Number R}.

Lemma dimension_value_known (D : GroupByDimension) (t : Transaction R)
      (v : string) :
  dimension_value D t = Some v -> In v (dimension_values D).
Proof.
  destruct D; simpl.
  - intros E; inversion E; subst. destruct (country t); simpl; tauto.
  - intros E; inversion E; subst. destruct (payment_method t); simpl; tauto.
  - intros E; inversion E; subst. destruct (processor t); simpl; tauto.
  - destruct (decline_code t) as [c|]; simpl; intros E; inversion E; subst.
    destruct c; simpl; tauto.
Qed.

Lemma dimension_values_NoDup (D : GroupByDimension) :
  NoDup (dimension_values D).
Proof.
  destruct D; simpl;
    repeat (constructor; [simpl; intuition discriminate|]);
    constructor.
Qed.

Lemma aggregate_dimensions (G : list (string * list (Transaction R))) :
  map (@DimensionAggregate.dimension R) (map aggregate G) = map fst G.
Proof.
  induction G as [|[k vs] G IH]; simpl; [reflexivity|]. now rewrite IH.
Qed.

Lemma groupByDimension_dimensions (T : list (Transaction R))
      (D : GroupByDimension) :
  Permutation (map (@DimensionAggregate.dimension R) (groupByDimension T D))
              (map fst (grouping String.eqb (dimension_value D) [] T)).
Proof.
  unfold groupByDimension.
  rewrite <- group_by_value_grouping, <- aggregate_dimensions.
  apply Permutation_map, Array_sort_perm.
Qed.

Lemma groupByDimension_NoDup (T : list (Transaction R)) (D : GroupByDimension) :
  NoDup (map (@DimensionAggregate.dimension R) (groupByDimension T D)).
Proof.
  apply (Permutation_NoDup (Permutation_sym (groupByDimension_dimensions T D))).
  apply (grouping_NoDup String.eqb String_eqb_true). constructor.
Qed.

Lemma groupByDimension_known (T : list (Transaction R)) (D : GroupByDimension) :
  incl (map (@DimensionAggregate.dimension R) (groupByDimension T D))
       (dimension_values D).
Proof.
  intros k Hk.
  apply (Permutation_in _ (groupByDimension_dimensions T D)) in Hk.
  apply (grouping_keys String.eqb String_eqb_true) in Hk.
  destruct Hk as [[]|[t [_ Ht]]]. exact (dimension_value_known D t Ht).
Qed.

Lemma groupByDimension_sorted_total (T : list (Transaction R))
      (D : GroupByDimension) :
  list_sum (map (@DimensionAggregate.total R) (groupByDimension T D))
  = List.length (with_some_value D T).
Proof.
  unfold groupByDimension.
  rewrite (list_sum_perm
             (Permutation_map _ (Array_sort_perm by_total_desc _))).
  rewrite aggregate_totals, group_by_value_grouping.
  now rewrite grouping_held.
Qed.

(** X5. The groups of [groupByDimension] carry pairwise different values
    of the dimension, each a value the dimension can take, so that there are
    at most 3 countries, 5 payment methods, 3 processors or 10 decline
    codes; no group is empty; in each group [approved] and [declined] add up
    to [total], [approved] being the number of approved transactions with
    the group's value; and for a dimension that is never null the totals add
    up to the length of the input. *)
Theorem groupByDimension_groups (T : list (Transaction R))
        (D : GroupByDimension) :
  NoDup (map (@DimensionAggregate.dimension R) (groupByDimension T D))
  /\ incl (map (@DimensionAggregate.dimension R) (groupByDimension T D))
          (dimension_values D)
  /\ List.length (groupByDimension T D)
     <= match D with
        | by_country => 3 | by_payment_method => 5
        | by_processor => 3 | by_decline_code => 10
        end
  /\ Forall
       (fun g =>
          1 <= DimensionAggregate.total g
          /\ DimensionAggregate.approved g + DimensionAggregate.declined g
             = DimensionAggregate.total g
          /\ DimensionAggregate.approved g
             = List.length
                 (approved_only
                    (with_value D (DimensionAggregate.dimension g) T)))
       (groupByDimension T D)
  /\ match D with
     | by_decline_code => True
     | _ =>
         list_sum (map (@DimensionAggregate.total R) (groupByDimension T D))
         = List.length T
     end.
Proof.
  split; [apply groupByDimension_NoDup|].
  split; [apply groupByDimension_known|].
  split; [|split].
  - rewrite <- (length_map (@DimensionAggregate.dimension R)).
    pose proof (NoDup_incl_length (groupByDimension_NoDup T D)
                                  (groupByDimension_known T D)) as H.
    destruct D; exact H.
  - unfold groupByDimension.
    apply (Permutation_Forall (x := map aggregate (group_by_value D T)));
      [symmetry; apply Array_sort_perm|].
    apply Forall_forall. intros g Hg. apply in_map_iff in Hg.
    destruct Hg as [[k vs] [<- Hin]]. rewrite group_by_value_grouping in Hin.
    pose proof Hin as Hne.
    apply (grouping_entry_not_empty String.eqb String_eqb_true) in Hne.
    apply (grouping_entry String.eqb String_eqb_true) in Hin. subst vs.
    simpl. fold (with_value D k T) in *.
    pose proof (approved_declined_length (with_value D k T)).
    repeat split; try lia.
    destruct (with_value D k T); [now elim Hne|simpl; lia].
  - pose proof (groupByDimension_sorted_total T D) as H.
    destruct D; try exact I; rewrite H; unfold with_some_value;
      f_equal; apply filter_all; intros t _; reflexivity.
Qed.

End DimensionGroups.

(** ** Sorting with a comparator that orders the elements at hand *)

Section SortedBy.
Context {A : Type} (cmp : A -> A -> Z) (le : A -> A -> Prop) (P : A -> Prop).
Hypothesis cmp_le : forall a b, P a -> P b -> (cmp a b <= 0)%Z -> le a b.
Hypothesis cmp_gt : forall a b, P a -> P b -> (0 < cmp a b)%Z -> le b a.
Hypothesis le_trans :
  forall a b c, P a -> P b -> P c -> le a b -> le b c -> le a c.

Lemma insert_by_sorted (x : A) (s : list A) :
  P x -> Forall P s -> StronglySorted le s ->
  StronglySorted le (insert_by cmp x s).
Proof.
  intros Hx HP Hs. induction Hs as [|y s Hs IH Hy]; simpl.
  - constructor; constructor.
  - inversion HP as [|? ? Py Ps]; subst.
    destruct (cmp x y <=? 0)%Z eqn:E.
    + apply Z.leb_le in E. pose proof (cmp_le Hx Py E) as Hxy.
      constructor; [now constructor|]. constructor; [exact Hxy|].
      rewrite Forall_forall in *. intros z Hz.
      apply (le_trans Hx Py (Ps z Hz) Hxy (Hy z Hz)).
    + apply Z.leb_gt in E. constructor; [now apply IH|].
      apply (Permutation_Forall (x := x :: s));
        [symmetry; apply insert_by_perm|].
      constructor; [now apply cmp_gt|exact Hy].
Qed.

Lemma Array_sort_sorted (l : list A) :
  Forall P l -> StronglySorted le (Array_sort cmp l).
Proof.
  induction l as [|x l IH]; simpl; intros H; [constructor|].
  inversion H as [|? ? Hx Hl]; subst.
  apply insert_by_sorted; [exact Hx| |now apply IH].
  apply (Permutation_Forall (x := l)); [symmetry; apply Array_sort_perm|].
  exact Hl.
Qed.

End SortedBy.

(** ** Points of the time series *)

Section TimeSeries.
Context {R : Type} {num : Number R}.
Variable Date_of_string : string -> JSDate.
Variable format : JSDate -> string -> option string.
Variable startOfWeek : JSDate -> JSDate.
Variable startOfMonth : JSDate -> JSDate.

Lemma group_by_date_grouping (g : TimeGranularity) (T : list (Transaction R))
      (acc : list (string * list (Transaction R))) :
  (forall t, In t T ->
             formatDate format startOfWeek startOfMonth g
                        (Date_of_string (timestamp t)) <> None) ->
  group_by_date Date_of_string format startOfWeek startOfMonth g acc T
  = Some (grouping String.eqb
                   (fun t => formatDate format startOfWeek startOfMonth g
                                        (Date_of_string (timestamp t)))
                   acc T).
Proof.
  revert acc. induction T as [|t T IH]; simpl; intros acc H; [reflexivity|].
  destruct (formatDate format startOfWeek startOfMonth g
                       (Date_of_string (timestamp t))) as [k|] eqn:E.
  - rewrite IH by (intros t' Ht'; apply H; now right).
    unfold grouping. cbn [fold_left]. cbv beta. rewrite ?E. reflexivity.
  - now elim (H t (or_introl eq_refl)).
Qed.

Lemma group_by_date_rejects (g : TimeGranularity) (T : list (Transaction R))
      (acc : list (string * list (Transaction R))) :
  (exists t, In t T
             /\ formatDate format startOfWeek startOfMonth g
                           (Date_of_string (timestamp t)) = None) ->
  group_by_date Date_of_string format startOfWeek startOfMonth g acc T = None.
Proof.
  revert acc. induction T as [|t T IH]; simpl; intros acc [t' [Hin Ht']];
    [contradiction|].
  destruct (formatDate format startOfWeek startOfMonth g
                       (Date_of_string (timestamp t))) as [k|] eqn:E.
  - destruct Hin as [<-|Hin]; [congruence|]. apply IH. now exists t'.
  - reflexivity.
Qed.

Lemma data_point_fields (G : list (string * list (Transaction R))) :
  map (@TimeSeriesDataPoint.date R) (map (data_point Date_of_string) G)
  = map fst G
  /\ list_sum (map (@TimeSeriesDataPoint.total R)
                   (map (data_point Date_of_string) G)) = held G.
Proof.
  unfold held. induction G as [|[k vs] G [IH1 IH2]]; simpl; [now split|].
  now rewrite IH1, IH2.
Qed.

(** X6. [groupByTime] raises exactly when date-fns rejects the timestamp
    of some transaction.  Otherwise its points carry pairwise different
    dates; each point counts the transactions whose timestamp formats to
    its date, of which there is at least one, as [approved] plus
    [declined], and its [timestamp] is its date read back; the totals add
    up to the length of the input; and when every date reads back as a
    valid time the points are in chronological order. *)
Theorem groupByTime_points (T : list (Transaction R)) (g : TimeGranularity) :
  (groupByTime Date_of_string format startOfWeek startOfMonth T g = None
   <-> exists t, In t T
                 /\ formatDate format startOfWeek startOfMonth g
                               (Date_of_string (timestamp t)) = None)
  /\ (forall points,
         groupByTime Date_of_string format startOfWeek startOfMonth T g
         = Some points ->
         NoDup (map (@TimeSeriesDataPoint.date R) points)
         /\ list_sum (map (@TimeSeriesDataPoint.total R) points)
            = List.length T
         /\ Forall
              (fun p =>
                 TimeSeriesDataPoint.total p
                 = List.length
                     (filter
                        (key_is String.eqb
                           (fun t => formatDate format startOfWeek startOfMonth
                                                g (Date_of_string (timestamp t)))
                           (TimeSeriesDataPoint.date p))
                        T)
                 /\ 1 <= TimeSeriesDataPoint.total p
                 /\ TimeSeriesDataPoint.approved p
                    + TimeSeriesDataPoint.declined p
                    = TimeSeriesDataPoint.total p
                 /\ TimeSeriesDataPoint.timestamp p
                    = Date_of_string (TimeSeriesDataPoint.date p))
              points
         /\ (Forall (fun p => TimeSeriesDataPoint.timestamp p <> None) points ->
             StronglySorted
               (fun a b => Date_le (TimeSeriesDataPoint.timestamp a)
                                   (TimeSeriesDataPoint.timestamp b))
               points)).
Proof.
  split.
  { split.
    - unfold groupByTime.
      destruct (group_by_date Date_of_string format startOfWeek startOfMonth
                              g [] T) eqn:E; [discriminate|].
      intros _. exact (group_by_date_None _ _ _ _ g T [] E).
    - intros H. unfold groupByTime.
      now rewrite (group_by_date_rejects g T [] H). }
  intros points Hp. unfold groupByTime in Hp.
  destruct (group_by_date Date_of_string format startOfWeek startOfMonth
                          g [] T) as [G|] eqn:E; [|discriminate].
  inversion Hp; subst points; clear Hp.
  assert (Hok : forall t, In t T ->
                  formatDate format startOfWeek startOfMonth g
                             (Date_of_string (timestamp t)) <> None).
  { intros t Ht Hn.
    rewrite (group_by_date_rejects g T []) in E; [discriminate|].
    now exists t. }
  rewrite (group_by_date_grouping g T [] Hok) in E. inversion E; subst G.
  clear E.
  set (key := fun t : Transaction R =>
                formatDate format startOfWeek startOfMonth g
                           (Date_of_string (timestamp t))) in *.
  set (G := grouping String.eqb key [] T).
  destruct (data_point_fields G) as [Hdates Htotals].
  split; [|split; [|split]].
  - apply (Permutation_NoDup
             (Permutation_sym
                (Permutation_map _ (Array_sort_perm by_timestamp_asc _)))).
    rewrite Hdates. apply (grouping_NoDup String.eqb String_eqb_true).
    constructor.
  - rewrite (list_sum_perm
               (Permutation_map _ (Array_sort_perm by_timestamp_asc _))).
    rewrite Htotals. unfold G. rewrite grouping_held. simpl. f_equal.
    apply filter_all. intros t Ht. unfold has_key, key.
    specialize (Hok t Ht). now destruct (formatDate _ _ _ _ _).
  - apply (Permutation_Forall (x := map (data_point Date_of_string) G));
      [symmetry; apply Array_sort_perm|].
    apply Forall_forall. intros p Hin. apply in_map_iff in Hin.
    destruct Hin as [[k vs] [<- Hin]].
    pose proof Hin as Hne.
    apply (grouping_entry_not_empty String.eqb String_eqb_true) in Hne.
    apply (grouping_entry String.eqb String_eqb_true) in Hin. subst vs.
    simpl. pose proof (approved_declined_length (filter (key_is String.eqb key k) T)).
    repeat split; try lia.
    destruct (filter (key_is String.eqb key k) T); [now elim Hne|simpl; lia].
  - intros Hvalid.
    apply (@Array_sort_sorted
             _ by_timestamp_asc
             (fun a b => Date_le (TimeSeriesDataPoint.timestamp a)
                                 (TimeSeriesDataPoint.timestamp b))
             (fun p => TimeSeriesDataPoint.timestamp p <> None)).
    + intros a b Ha Hb Hc. unfold by_timestamp_asc in Hc.
      destruct (TimeSeriesDataPoint.timestamp a),
               (TimeSeriesDataPoint.timestamp b); try congruence.
      simpl in *. lia.
    + intros a b Ha Hb Hc. unfold by_timestamp_asc in Hc.
      destruct (TimeSeriesDataPoint.timestamp a),
               (TimeSeriesDataPoint.timestamp b); try congruence.
      simpl in *. lia.
    + intros a b c Ha Hb Hc.
      destruct (TimeSeriesDataPoint.timestamp a),
               (TimeSeriesDataPoint.timestamp b),
               (TimeSeriesDataPoint.timestamp c); simpl; try congruence; lia.
    + apply (Permutation_Forall
               (x := Array_sort by_timestamp_asc
                                (map (data_point Date_of_string) G)));
        [apply Array_sort_perm|exact Hvalid].
Qed.

End TimeSeries.

(** ** More on the filter store *)

Section StoreAlgebra.
Context {R : Type}.
Variable Date_of_string : string -> JSDate.

(** X7. Whatever was called before, [resetFilters] brings the store back
    to the state it was created in. *)
Theorem resetFilters_restores_initial_state
        (data : list (Transaction R)) (calls : list Action) :
  run Date_of_string (create data) (calls ++ [ResetFilters]) = create data.
Proof.
  rewrite run_app. simpl. unfold resetFilters, create.
  now rewrite run_allTransactions.
Qed.

(** X8. Of two setter calls on the same field the later one wins, and two
    setter calls on different fields can be swapped. *)
Theorem setters_override_and_commute
        (s : FilterState R) (a b : Action) (f f' : FilterField) :
  sets a = Some f -> sets b = Some f' ->
  (f = f' ->
   dispatch Date_of_string (dispatch Date_of_string s a) b
   = dispatch Date_of_string s b)
  /\ (f <> f' ->
      dispatch Date_of_string (dispatch Date_of_string s a) b
      = dispatch Date_of_string (dispatch Date_of_string s b) a).
Proof.
  intros Ha Hb.
  destruct a; try discriminate; destruct b; try discriminate;
    simpl in Ha, Hb; inversion Ha; inversion Hb; subst;
    (split; intros H; [try discriminate|try (now elim H)]); reflexivity.
Qed.

End StoreAlgebra.

Lemma setters_override_and_commute_witness :
  dispatch Date_sample
    (dispatch Date_sample (create sample_Q) (SetCountries [Mexico]))
    (SetCountries [Brazil])
  = dispatch Date_sample (create sample_Q) (SetCountries [Brazil])
  /\ dispatch Date_sample
       (dispatch Date_sample (create sample_Q) (SetCountries [Mexico]))
       (SetDeclineTypes [hard])
     = dispatch Date_sample
         (dispatch Date_sample (create sample_Q) (SetDeclineTypes [hard]))
         (SetCountries [Mexico]).
Proof.
  split.
  - apply (@setters_override_and_commute
             Q Date_sample (create sample_Q)
             (SetCountries [Mexico]) (SetCountries [Brazil])
             CountriesField CountriesField eq_refl eq_refl).
    reflexivity.
  - apply (@setters_override_and_commute
             Q Date_sample (create sample_Q)
             (SetCountries [Mexico]) (SetDeclineTypes [hard])
             CountriesField DeclineTypesField eq_refl eq_refl).
    discriminate.
Defined.

(** ** More on toggles *)

Section ToggleFacts.
Context {A : Type} (eqb : A -> A -> bool).
Hypothesis eqb_spec : forall a b, eqb a b = true <-> a = b.

Lemma toggled_flipped (l : list A) (x : A) : flipped x l (toggled eqb l x).
Proof.
  unfold flipped, toggled. destruct (includes eqb l x) eqn:E.
  - apply (includes_In eqb eqb_spec) in E. split.
    + rewrite (remove_In eqb eqb_spec). tauto.
    + intros y Hy. rewrite (remove_In eqb eqb_spec). tauto.
  - apply (includes_false eqb eqb_spec) in E. split.
    + rewrite in_app_iff. simpl. tauto.
    + intros y Hy. rewrite in_app_iff. simpl. intuition congruence.
Qed.

Lemma toggled_NoDup (l : list A) (x : A) :
  NoDup l -> NoDup (toggled eqb l x).
Proof.
  intros H. unfold toggled. destruct (includes eqb l x) eqn:E.
  - now apply NoDup_filter.
  - apply (includes_false eqb eqb_spec) in E.
    apply NoDup_app; [exact H|constructor; [intros []|constructor]|].
    intros y Hy [<-|[]]. contradiction.
Qed.

(** The decline tests of [filterTransactions] see a list through its values
    only. *)
Lemma decline_test_ext {B : Type} (l1 l2 : list A) (s : TransactionStatus)
      (d : option B) (f : B -> A) :
  (forall y, In y l1 <-> In y l2) ->
  populated (Some l1)
  && match s, d with
     | declined, Some c => negb (includes eqb (elements (Some l1)) (f c))
     | _, _ => true
     end
  = populated (Some l2)
    && match s, d with
       | declined, Some c => negb (includes eqb (elements (Some l2)) (f c))
       | _, _ => true
       end.
Proof.
  intros H.
  assert (Hp : populated (Some l1) = populated (Some l2)).
  { destruct l1 as [|a l1], l2 as [|b l2]; try reflexivity; exfalso.
    - apply (proj2 (H b)). now left.
    - apply (proj1 (H a)). now left. }
  rewrite Hp. destruct s, d as [c|]; try reflexivity.
  pose proof (membership_test_ext eqb eqb_spec l1 l2 (f c) H) as Hm.
  now rewrite Hp in Hm.
Qed.

End ToggleFacts.

Section SelectionsAsSets.
Context {R : Type}.
Variable Date_of_string : string -> JSDate.

Lemma keeps_same_selection (f1 f2 : TransactionFilters) (t : Transaction R) :
  same_selection f1 f2 ->
  keeps Date_of_string (as_partial f1) t = keeps Date_of_string (as_partial f2) t.
Proof.
  intros (Hd & Hc & Hm & Hp & Hdc & Hdt).
  unfold keeps, as_partial.
  cbn [Partial.dateRange Partial.countries Partial.paymentMethods
       Partial.processors Partial.declineCodes Partial.declineTypes].
  rewrite Hd.
  rewrite (membership_test_ext Country_eqb Country_eqb_spec _ _ (country t) Hc).
  rewrite (membership_test_ext PaymentMethod_eqb PaymentMethod_eqb_spec
             _ _ (payment_method t) Hm).
  rewrite (membership_test_ext Processor_eqb Processor_eqb_spec
             _ _ (processor t) Hp).
  rewrite (decline_test_ext DeclineCode_eqb DeclineCode_eqb_spec
             _ _ (status t) (decline_code t) (fun c => c) Hdc).
  rewrite (decline_test_ext DeclineType_eqb DeclineType_eqb_spec
             _ _ (status t) (decline_code t) classifyDecline Hdt).
  reflexivity.
Qed.

(** X9. The filter reads each selection as a set: two filter values with
    the same date range that select the same values, listed in any order
    and any number of times, keep the same transactions. *)
Theorem filterTransactions_reads_selections_as_sets
        (T : list (Transaction R)) (f1 f2 : TransactionFilters) :
  same_selection f1 f2 ->
  filterTransactions Date_of_string T (as_partial f1)
  = filterTransactions Date_of_string T (as_partial f2).
Proof.
  intros H. unfold filterTransactions. apply filter_ext. intros t.
  now apply keeps_same_selection.
Qed.

(** X10. A toggle flips the membership of its value in its own selection
    and of nothing else: the value is selected afterwards exactly when it
    was not before, and every other value stays as it was. *)
Theorem toggles_flip_membership (s : FilterState R) :
  (forall c, flipped c (countries (filters s))
                     (countries (filters (toggleCountry Date_of_string c s))))
  /\ (forall m, flipped m (paymentMethods (filters s))
                        (paymentMethods
                           (filters (togglePaymentMethod Date_of_string m s))))
  /\ (forall p, flipped p (processors (filters s))
                        (processors
                           (filters (toggleProcessor Date_of_string p s))))
  /\ (forall c, flipped c (declineCodes (filters s))
                        (declineCodes
                           (filters (toggleDeclineCode Date_of_string c s))))
  /\ (forall k, flipped k (declineTypes (filters s))
                        (declineTypes
                           (filters (toggleDeclineType Date_of_string k s)))).
Proof.
  split; [|split; [|split; [|split]]]; intros x; simpl.
  - apply (toggled_flipped Country_eqb Country_eqb_spec).
  - apply (toggled_flipped PaymentMethod_eqb PaymentMethod_eqb_spec).
  - apply (toggled_flipped Processor_eqb Processor_eqb_spec).
  - apply (toggled_flipped DeclineCode_eqb DeclineCode_eqb_spec).
  - apply (toggled_flipped DeclineType_eqb DeclineType_eqb_spec).
Qed.

End SelectionsAsSets.

Section TogglesTwice.
Context {R : Type}.
Variable Date_of_string : string -> JSDate.

Lemma same_selection_refl (f : TransactionFilters) : same_selection f f.
Proof. unfold same_selection. repeat split; trivial. Qed.

Lemma filterTransactions_same_view (T : list (Transaction R))
      (f1 f2 : TransactionFilters) :
  same_selection f1 f2 ->
  filterTransactions Date_of_string T (as_partial f1)
  = filterTransactions Date_of_string T (as_partial f2).
Proof.
  intros H. unfold filterTransactions. apply filter_ext. intros t.
  now apply keeps_same_selection.
Qed.

(** X11. In a reachable state, toggling a payment method, a processor, a
    decline code or a decline type twice leaves the filtered view as it
    was, with the same values selected; the state itself is restored when
    the value was not selected before the first toggle. *)
Theorem toggles_twice_restore_the_view
        (data : list (Transaction R)) (calls : list Action)
        (s : FilterState R) :
  s = run Date_of_string (create data) calls ->
  (forall m,
      restores s (togglePaymentMethod Date_of_string m
                    (togglePaymentMethod Date_of_string m s))
               (In m (paymentMethods (filters s))))
  /\ (forall p,
         restores s (toggleProcessor Date_of_string p
                       (toggleProcessor Date_of_string p s))
                  (In p (processors (filters s))))
  /\ (forall c,
         restores s (toggleDeclineCode Date_of_string c
                       (toggleDeclineCode Date_of_string c s))
                  (In c (declineCodes (filters s))))
  /\ (forall k,
         restores s (toggleDeclineType Date_of_string k
                       (toggleDeclineType Date_of_string k s))
                  (In k (declineTypes (filters s)))).
Proof.
  intros Hs.
  assert (Hc : consistent Date_of_string s).
  { subst s. apply run_consistent, create_consistent. }
  unfold consistent in Hc. clear Hs.
  destruct s as [all f filtered]. simpl in Hc. subst filtered.
  destruct f as [dr cs pm pr dc dt].
  split; [|split; [|split]]; intros x; unfold restores;
    (split; [|split]).
  - apply filterTransactions_same_view. simpl. unfold same_selection. simpl.
    repeat split; trivial;
      apply (toggled_twice_In PaymentMethod_eqb PaymentMethod_eqb_spec).
  - simpl. unfold same_selection. simpl. repeat split; trivial;
      apply (toggled_twice_In PaymentMethod_eqb PaymentMethod_eqb_spec).
  - simpl. intros H. unfold togglePaymentMethod, setPaymentMethods, recompute.
    simpl.
    now rewrite (toggled_on_off PaymentMethod_eqb PaymentMethod_eqb_spec _ _ H).
  - apply filterTransactions_same_view. simpl. unfold same_selection. simpl.
    repeat split; trivial;
      apply (toggled_twice_In Processor_eqb Processor_eqb_spec).
  - simpl. unfold same_selection. simpl. repeat split; trivial;
      apply (toggled_twice_In Processor_eqb Processor_eqb_spec).
  - simpl. intros H. unfold toggleProcessor, setProcessors, recompute. simpl.
    now rewrite (toggled_on_off Processor_eqb Processor_eqb_spec _ _ H).
  - apply filterTransactions_same_view. simpl. unfold same_selection. simpl.
    repeat split; trivial;
      apply (toggled_twice_In DeclineCode_eqb DeclineCode_eqb_spec).
  - simpl. unfold same_selection. simpl. repeat split; trivial;
      apply (toggled_twice_In DeclineCode_eqb DeclineCode_eqb_spec).
  - simpl. intros H. unfold toggleDeclineCode, setDeclineCodes, recompute.
    simpl.
    now rewrite (toggled_on_off DeclineCode_eqb DeclineCode_eqb_spec _ _ H).
  - apply filterTransactions_same_view. simpl. unfold same_selection. simpl.
    repeat split; trivial;
      apply (toggled_twice_In DeclineType_eqb DeclineType_eqb_spec).
  - simpl. unfold same_selection. simpl. repeat split; trivial;
      apply (toggled_twice_In DeclineType_eqb DeclineType_eqb_spec).
  - simpl. intros H. unfold toggleDeclineType, setDeclineTypes, recompute.
    simpl.
    now rewrite (toggled_on_off DeclineType_eqb DeclineType_eqb_spec _ _ H).
Qed.

End TogglesTwice.

Section TogglesNoDup.
Context {R : Type}.
Variable Date_of_string : string -> JSDate.

Lemma dispatch_NoDup (s : FilterState R) (a : Action) :
  is_toggle_or_reset a = true ->
  NoDup (countries (filters s)) /\ NoDup (paymentMethods (filters s))
  /\ NoDup (processors (filters s)) /\ NoDup (declineCodes (filters s))
  /\ NoDup (declineTypes (filters s)) ->
  NoDup (countries (filters (dispatch Date_of_string s a)))
  /\ NoDup (paymentMethods (filters (dispatch Date_of_string s a)))
  /\ NoDup (processors (filters (dispatch Date_of_string s a)))
  /\ NoDup (declineCodes (filters (dispatch Date_of_string s a)))
  /\ NoDup (declineTypes (filters (dispatch Date_of_string s a))).
Proof.
  intros Ha (H1 & H2 & H3 & H4 & H5).
  destruct a; try discriminate; simpl; repeat split; trivial;
    try constructor.
  - now apply (toggled_NoDup Country_eqb Country_eqb_spec).
  - now apply (toggled_NoDup PaymentMethod_eqb PaymentMethod_eqb_spec).
  - now apply (toggled_NoDup Processor_eqb Processor_eqb_spec).
  - now apply (toggled_NoDup DeclineCode_eqb DeclineCode_eqb_spec).
  - now apply (toggled_NoDup DeclineType_eqb DeclineType_eqb_spec).
Qed.

(** X12. As long as the store is driven by toggles and resets only, no
    selection ever lists a value twice. *)
Theorem toggles_never_duplicate
        (data : list (Transaction R)) (calls : list Action) :
  Forall (fun a => is_toggle_or_reset a = true) calls ->
  NoDup (countries (filters (run Date_of_string (create data) calls)))
  /\ NoDup (paymentMethods (filters (run Date_of_string (create data) calls)))
  /\ NoDup (processors (filters (run Date_of_string (create data) calls)))
  /\ NoDup (declineCodes (filters (run Date_of_string (create data) calls)))
  /\ NoDup (declineTypes (filters (run Date_of_string (create data) calls))).
Proof.
  induction calls as [|a calls IH] using rev_ind; intros H.
  - simpl. repeat split; constructor.
  - apply Forall_app in H. destruct H as [Hcalls Ha].
    inversion Ha; subst. rewrite run_app. simpl.
    apply dispatch_NoDup; [assumption|]. now apply IH.
Qed.

End TogglesNoDup.

Lemma toggles_never_duplicate_witness :
  NoDup (countries (filters sample_store)).
Proof.
  apply (@toggles_never_duplicate
           Q Date_sample sample_Q [ToggleCountry Mexico; ToggleCountry Brazil]).
  repeat constructor.
Defined.

Lemma toggles_twice_restore_the_view_witness :
  restores sample_store
           (toggleDeclineType Date_sample soft
              (toggleDeclineType Date_sample soft sample_store))
           (In soft (declineTypes (filters sample_store))).
Proof.
  apply (@toggles_twice_restore_the_view
           Q Date_sample sample_Q [ToggleCountry Mexico; ToggleCountry Brazil]
           sample_store eq_refl).
Defined.

Lemma filterTransactions_reads_selections_as_sets_witness :
  filterTransactions Date_sample sample_Q
    (as_partial {| dateRange := {| start := None; end_ := None |};
                   countries := [Mexico; Brazil; Mexico];
                   paymentMethods := []; processors := [];
                   declineCodes := []; declineTypes := [] |})
  = filterTransactions Date_sample sample_Q
      (as_partial {| dateRange := {| start := None; end_ := None |};
                     countries := [Brazil; Mexico];
                     paymentMethods := []; processors := [];
                     declineCodes := []; declineTypes := [] |}).
Proof.
  apply (@filterTransactions_reads_selections_as_sets Q Date_sample sample_Q).
  unfold same_selection. simpl. intuition.
Defined.

(** ** The filter panel *)

Section PanelProperties.
Context {R : Type}.
Variable Date_of_string : string -> JSDate.

Lemma clicks_app (s : FilterState R) (bs bs' : list PanelClick) :
  clicks Date_of_string s (bs ++ bs')
  = clicks Date_of_string (clicks Date_of_string s bs) bs'.
Proof. unfold clicks. apply fold_left_app. Qed.

(** What the panel can reach: only countries and payment methods are ever
    selected, none of them twice, and the view is consistent. *)
Lemma clicks_invariant (data : list (Transaction R)) (bs : list PanelClick) :
  allTransactions (clicks Date_of_string (create data) bs) = data
  /\ consistent Date_of_string (clicks Date_of_string (create data) bs)
  /\ dateRange (filters (clicks Date_of_string (create data) bs))
     = {| start := None; end_ := None |}
  /\ processors (filters (clicks Date_of_string (create data) bs)) = []
  /\ declineCodes (filters (clicks Date_of_string (create data) bs)) = []
  /\ declineTypes (filters (clicks Date_of_string (create data) bs)) = []
  /\ NoDup (countries (filters (clicks Date_of_string (create data) bs)))
  /\ NoDup (paymentMethods (filters (clicks Date_of_string (create data) bs))).
Proof.
  induction bs as [|b bs IH] using rev_ind.
  - simpl. repeat split; try constructor. apply create_consistent.
  - rewrite clicks_app. simpl.
    destruct IH as (Ha & Hc & Hd & Hp & Hdc & Hdt & Hn1 & Hn2).
    set (s := clicks Date_of_string (create data) bs) in *.
    destruct b; simpl.
    + repeat split; trivial.
      now apply (toggled_NoDup Country_eqb Country_eqb_spec).
    + repeat split; trivial.
      now apply (toggled_NoDup PaymentMethod_eqb PaymentMethod_eqb_spec).
    + destruct (hasActiveFilters (filters s)).
      * simpl. repeat split; trivial; try constructor.
        unfold consistent. simpl. symmetry.
        apply filterTransactions_initialFilters.
      * repeat split; trivial.
Qed.

Lemma length_zero_ltb {A : Type} (l : list A) :
  (0 <? List.length l) = false <-> l = [].
Proof. destruct l; simpl; split; intros H; try reflexivity; discriminate. Qed.

(** X13. In every state the panel can reach from the initial one, by
    clicks on its country, payment-method and reset buttons, the reset
    button is disabled exactly when the filters are the initial ones, and
    then the store is in its initial state and shows every transaction; the
    count shown as active filters is zero exactly then, counts the selected
    countries and payment methods once each, and is at most 8. *)
Theorem panel_reset_button
        (data : list (Transaction R)) (bs : list PanelClick) :
  (hasActiveFilters (filters (clicks Date_of_string (create data) bs)) = false
   <-> filters (clicks Date_of_string (create data) bs) = initialFilters)
  /\ (hasActiveFilters (filters (clicks Date_of_string (create data) bs)) = false
      <-> clicks Date_of_string (create data) bs = create data)
  /\ (activeFilterCount (filters (clicks Date_of_string (create data) bs)) = 0
      <-> hasActiveFilters (filters (clicks Date_of_string (create data) bs))
          = false)
  /\ NoDup (countries (filters (clicks Date_of_string (create data) bs)))
  /\ NoDup (paymentMethods (filters (clicks Date_of_string (create data) bs)))
  /\ activeFilterCount (filters (clicks Date_of_string (create data) bs)) <= 8.
Proof.
  destruct (clicks_invariant data bs)
    as (Ha & Hc & Hd & Hp & Hdc & Hdt & Hn1 & Hn2).
  set (s := clicks Date_of_string (create data) bs) in *.
  unfold consistent in Hc.
  destruct s as [all f filtered]. destruct f as [dr cs pm pr dc dt].
  simpl in *. subst dr pr dc dt all filtered.
  unfold hasActiveFilters, activeFilterCount. simpl.
  rewrite !orb_false_r, orb_false_iff, !length_zero_ltb.
  split; [|split; [|split; [|split; [|split]]]]; trivial.
  - split.
    + intros [-> ->]. reflexivity.
    + intros E. inversion E. now split.
  - split.
    + intros [-> ->]. unfold create. f_equal.
      apply filterTransactions_initialFilters.
    + intros E. inversion E. now split.
  - rewrite Nat.eq_add_0, !length_zero_iff_nil. reflexivity.
  - assert (H1 : List.length cs <= 3).
    { apply (@NoDup_incl_length _ cs [Mexico; Colombia; Brazil] Hn1).
      intros x _. destruct x; simpl; tauto. }
    assert (H2 : List.length pm <= 5).
    { apply (@NoDup_incl_length _ pm
               [credit_card; debit_card; pse; pix; boleto] Hn2).
      intros x _. destruct x; simpl; tauto. }
    lia.
Qed.

End PanelProperties.

(** ** Summary cards *)

Lemma Currency_eqb_spec (a b : Currency) : Currency_eqb a b = true <-> a = b.
Proof. destruct a, b; vm_compute; split; congruence. Qed.

Section CountDictionary.
Context {K V : Type} (eqb : K -> K -> bool).

(** Counting occurrences is grouping them and taking the sizes. *)
Lemma count_at_push_at (k : K) (v : V) (G : list (K * list V)) :
  count_at eqb k (map (fun e => (fst e, List.length (snd e))) G)
  = map (fun e => (fst e, List.length (snd e))) (push_at eqb k v G).
Proof.
  induction G as [|[k' vs] G IH]; simpl; [reflexivity|].
  destruct (eqb k' k); simpl.
  - now rewrite length_app.
  - now rewrite IH.
Qed.

Lemma counts_grouping (key : V -> K) (l : list V) (G : list (K * list V)) :
  fold_left (fun acc v => count_at eqb (key v) acc) l
            (map (fun e => (fst e, List.length (snd e))) G)
  = map (fun e => (fst e, List.length (snd e)))
        (grouping eqb (fun v => Some (key v)) G l).
Proof.
  revert G. induction l as [|v l IH]; intros G; [reflexivity|].
  unfold grouping. cbn [fold_left]. rewrite (count_at_push_at (key v) v G).
  apply IH.
Qed.

End CountDictionary.

Section SummaryCards.
Context {R : Type} {num : Number R}.

Lemma currencyCounts_grouping (declined : list (Transaction R)) :
  currencyCounts declined
  = map (fun e => (fst e, List.length (snd e)))
        (grouping Currency_eqb (fun t => Some (currency t)) [] declined).
Proof.
  unfold currencyCounts.
  exact (counts_grouping Currency_eqb (@currency R) declined []).
Qed.

(** X14. [primaryCurrency] never fails; the currency it returns is one in
    which no other currency has more declined transactions, it is MXN when
    nothing is declined, and otherwise a currency of some declined
    transaction. *)
Theorem primaryCurrency_most_frequent (T : list (Transaction R)) :
  exists c,
    primaryCurrency T = Some c
    /\ (forall c', List.length (declined_in c' T)
                   <= List.length (declined_in c T))
    /\ (declined_only T = [] -> c = MXN)
    /\ (declined_only T <> [] -> 0 < List.length (declined_in c T)).
Proof.
  unfold primaryCurrency, declined_in.
  destruct (List.length (declined_only T) =? 0) eqn:E.
  - apply Nat.eqb_eq, length_zero_iff_nil in E. rewrite E.
    exists MXN. simpl. repeat split; trivial. intros H. now elim H.
  - apply Nat.eqb_neq in E. rewrite currencyCounts_grouping.
    set (key := fun t : Transaction R => Some (currency t)).
    set (G := grouping Currency_eqb key [] (declined_only T)).
    set (counts := map (fun e => (fst e, List.length (snd e))) G).
    assert (Hsorted : StronglySorted (fun a b => snd b <= snd a)
                                     (Array_sort by_second_desc counts)).
    { apply Array_sort_desc. reflexivity. }
    assert (Hcount : forall c n, In (c, n) counts ->
                       n = List.length
                             (filter (fun t => Currency_eqb (currency t) c)
                                     (declined_only T)) /\ 0 < n).
    { intros c n Hin. apply in_map_iff in Hin.
      destruct Hin as [[k vs] [Heq Hin]]. simpl in Heq. inversion Heq; subst.
      pose proof Hin as Hne.
      apply (grouping_entry_not_empty Currency_eqb Currency_eqb_spec) in Hne.
      apply (grouping_entry Currency_eqb Currency_eqb_spec) in Hin.
      subst vs. split; [reflexivity|].
      destruct (filter _ _); [now elim Hne|simpl; lia]. }
    assert (Hkeys : forall c,
               (exists n, In (c, n) counts)
               \/ filter (fun t => Currency_eqb (currency t) c)
                         (declined_only T) = []).
    { intros c.
      destruct (filter (fun t => Currency_eqb (currency t) c)
                       (declined_only T)) as [|t l] eqn:Ef; [now right|].
      left.
      assert (Ht : In t (filter (fun t => Currency_eqb (currency t) c)
                                (declined_only T))) by (rewrite Ef; now left).
      apply filter_In in Ht. destruct Ht as [Ht Hc].
      apply Currency_eqb_spec in Hc.
      assert (Hk : In c (map fst G)).
      { apply (grouping_keys Currency_eqb Currency_eqb_spec). right.
        exists t. split; [exact Ht|]. unfold key. now rewrite Hc. }
      apply in_map_iff in Hk. destruct Hk as [[k vs] [Hk Hin]].
      simpl in Hk. subst k. exists (List.length vs).
      unfold counts. apply in_map_iff. exists (c, vs). now split. }
    destruct (Array_sort by_second_desc counts) as [|[c n] rest] eqn:Es.
    + exfalso. apply E.
      assert (Hl : List.length counts = 0).
      { rewrite <- (Array_sort_length by_second_desc), Es. reflexivity. }
      unfold counts in Hl. rewrite length_map in Hl.
      apply length_zero_iff_nil in Hl.
      pose proof (grouping_held Currency_eqb key [] (declined_only T)) as Hh.
      fold G in Hh. rewrite Hl in Hh. simpl in Hh.
      rewrite (filter_all (has_key key) (declined_only T)) in Hh
        by (intros; reflexivity).
      now symmetry.
    + exists c.
      assert (Hin : In (c, n) counts).
      { apply (Array_sort_In by_second_desc). rewrite Es. now left. }
      destruct (Hcount c n Hin) as [Hn Hpos].
      split; [reflexivity|]. split; [|split].
      * intros c'. rewrite <- Hn. destruct (Hkeys c') as [[n' Hin']|Hnil].
        -- destruct (Hcount c' n' Hin') as [Hn' _]. rewrite <- Hn'.
           apply (Array_sort_In by_second_desc) in Hin'. rewrite Es in Hin'.
           destruct Hin' as [Heq|Hin']; [inversion Heq; lia|].
           inversion Hsorted as [|? ? _ Hall]; subst.
           rewrite Forall_forall in Hall. exact (Hall _ Hin').
        -- rewrite Hnil. simpl. lia.
      * intros Hnil. rewrite Hnil in E. now elim E.
      * intros _. now rewrite <- Hn.
Qed.

End SummaryCards.

Section TopDecline.
Context {R : Type} {num : Number R}.

Lemma declines_with_code_row (T : list (Transaction R)) (c : DeclineCode) :
  declines_with_code c T <> [] ->
  exists r, In r (getDeclineImpact T) /\ DeclineCodeAnalysis.code r = c.
Proof.
  intros Hne.
  destruct (declines_with_code c T) as [|t l] eqn:E; [now elim Hne|].
  assert (Ht : In t (declines_with_code c T)) by (rewrite E; now left).
  unfold declines_with_code in Ht. apply filter_In in Ht.
  destruct Ht as [Ht Hk]. unfold key_is in Hk.
  destruct (decline_code t) as [c'|] eqn:Ec; [|discriminate].
  apply DeclineCode_eqb_spec in Hk. subst c'.
  assert (Hc : In c (map (@DeclineCodeAnalysis.code R) (getDeclineImpact T))).
  { apply (Permutation_in _ (Permutation_sym (getDeclineImpact_codes T))).
    change (In c (map fst (grouping DeclineCode_eqb (@decline_code R) []
                                    (filter declined_with_code T)))).
    apply (grouping_keys DeclineCode_eqb DeclineCode_eqb_spec). right.
    now exists t. }
  apply in_map_iff in Hc. destruct Hc as [r [Hr Hin]]. now exists r.
Qed.

Lemma getDeclineImpact_row_count (T : list (Transaction R))
      (r : DeclineCodeAnalysis.t R) :
  In r (getDeclineImpact T) ->
  DeclineCodeAnalysis.count r
  = List.length (declines_with_code (DeclineCodeAnalysis.code r) T).
Proof.
  intros Hr. destruct (getDeclineImpact_row T r Hr) as (vs & Hin & _ & Hn & _).
  change (In (DeclineCodeAnalysis.code r, vs)
             (grouping DeclineCode_eqb (@decline_code R) []
                       (filter declined_with_code T))) in Hin.
  apply (grouping_entry DeclineCode_eqb DeclineCode_eqb_spec) in Hin.
  now subst vs.
Qed.

(** X15. [topDecline] is [null] exactly when the input has no declined
    transaction with a decline code; otherwise it is the first row of the
    analysis, its code is the code of some declined transaction of the
    input, its count, which is at least 1, is the number of declined
    transactions with that code, and no decline code has more. *)
Theorem topDecline_most_frequent (T : list (Transaction R)) :
  (topDecline T = None
   <-> forall t, In t T -> ~ (status t = declined /\ decline_code t <> None))
  /\ (forall r,
         topDecline T = Some r ->
         (exists rest, getDeclineImpact T = r :: rest)
         /\ (exists t, In t T /\ status t = declined
                       /\ decline_code t = Some (DeclineCodeAnalysis.code r))
         /\ DeclineCodeAnalysis.count r
            = List.length (declines_with_code (DeclineCodeAnalysis.code r) T)
         /\ 0 < DeclineCodeAnalysis.count r
         /\ (forall c, List.length (declines_with_code c T)
                       <= DeclineCodeAnalysis.count r)).
Proof.
  unfold topDecline.
  destruct (getDeclineImpact T) as [|r rest] eqn:E; simpl.
  - split.
    + split; [|reflexivity]. intros _ t Ht Hd.
      apply (@getDeclineImpact_not_nil R num T); [now exists t|exact E].
    + intros r Hr. discriminate.
  - assert (Hr : In r (getDeclineImpact T)) by (rewrite E; now left).
    split.
    + split; [discriminate|]. intros Hnone. exfalso.
      rewrite (getDeclineImpact_nil T Hnone) in E. discriminate.
    + intros r' Hr'. injection Hr' as <-.
      pose proof (getDeclineImpact_row_count T r Hr) as Hcount.
      assert (Hmember : exists t, In t (declines_with_code
                                          (DeclineCodeAnalysis.code r) T)).
      { destruct (getDeclineImpact_row T r Hr) as (vs & Hin & _ & Hn & _).
        change (In (DeclineCodeAnalysis.code r, vs)
                   (grouping DeclineCode_eqb (@decline_code R) []
                             (filter declined_with_code T))) in Hin.
        pose proof Hin as Hne.
        apply (grouping_entry_not_empty DeclineCode_eqb DeclineCode_eqb_spec)
          in Hne.
        apply (grouping_entry DeclineCode_eqb DeclineCode_eqb_spec) in Hin.
        subst vs. fold (declines_with_code (DeclineCodeAnalysis.code r) T) in Hne.
        destruct (declines_with_code (DeclineCodeAnalysis.code r) T) as [|t l];
          [now elim Hne|]. exists t. now left. }
      destruct Hmember as [t Ht].
      split; [now exists rest|]. split.
      * exists t. unfold declines_with_code in Ht.
        apply filter_In in Ht. destruct Ht as [Ht Hk].
        apply filter_In in Ht. destruct Ht as [Hin Hd].
        apply declined_with_code_spec in Hd. destruct Hd as [Hs _].
        unfold key_is in Hk.
        destruct (decline_code t) as [c|]; [|discriminate].
        apply DeclineCode_eqb_spec in Hk. subst c. now repeat split.
      * split; [exact Hcount|]. split.
        -- rewrite Hcount.
           destruct (declines_with_code (DeclineCodeAnalysis.code r) T);
             [contradiction|simpl; lia].
        -- intros c.
           destruct (declines_with_code c T) as [|t' l] eqn:Ec; [simpl; lia|].
           destruct (@declines_with_code_row T c) as [r' [Hr' Hc']];
             [rewrite Ec; discriminate|].
           rewrite <- Ec, <- Hc', <- (getDeclineImpact_row_count T r' Hr').
           pose proof (getDeclineImpact_sorted T) as Hs. rewrite E in Hs, Hr'.
           destruct Hr' as [<-|Hr']; [lia|].
           inversion Hs as [|? ? _ Hall]; subst. rewrite Forall_forall in Hall.
           exact (Hall _ Hr').
Qed.

End TopDecline.

(** ** Tables and charts *)

Lemma StronglySorted_impl_pairs {A : Type} (P Q : A -> A -> Prop) (l : list A) :
  (forall a b, P a b -> Q a b) -> StronglySorted P l -> StronglySorted Q l.
Proof.
  intros H. induction 1 as [|x l Hl IH Hx]; constructor; [exact IH|].
  eapply Forall_impl; [|exact Hx]. intros a. apply H.
Qed.

Lemma Array_sort_of_sorted {A : Type} (cmp : A -> A -> Z) (l : list A) :
  StronglySorted (fun a b => (cmp a b <= 0)%Z) l -> Array_sort cmp l = l.
Proof.
  induction 1 as [|x l Hl IH Hx]; simpl; [reflexivity|].
  rewrite IH. destruct l as [|y l]; [reflexivity|]. simpl.
  inversion Hx as [|? ? Hxy _]; subst.
  now rewrite (proj2 (Z.leb_le _ _) Hxy).
Qed.

Lemma NoDup_map_injective {A B : Type} (f : A -> B) (l : list A) :
  (forall a b, In a l -> In b l -> f a = f b -> a = b) ->
  NoDup l -> NoDup (map f l).
Proof.
  intros Hinj H. induction H as [|a l Ha Hl IH]; simpl; constructor.
  - intros Hin. apply in_map_iff in Hin. destruct Hin as [b [Hb Hin]].
    assert (b = a) by (apply Hinj; [now right|now left|exact Hb]).
    subst. contradiction.
  - apply IH. intros x y Hx Hy. apply Hinj; now right.
Qed.

Lemma getDeclineDescription_injective (c c' : DeclineCode) :
  getDeclineDescription (DeclineCode_str c)
  = getDeclineDescription (DeclineCode_str c') -> c = c'.
Proof. destruct c, c'; vm_compute; congruence. Qed.

Lemma getPaymentMethodDisplayName_injective (m m' : PaymentMethod) :
  getPaymentMethodDisplayName (PaymentMethod_str m)
  = getPaymentMethodDisplayName (PaymentMethod_str m') -> m = m'.
Proof. destruct m, m'; vm_compute; congruence. Qed.

Section Charts.
Context {R : Type} {num : Number R} {ord : NumberOrder R}.

Lemma getDeclineImpact_codes_NoDup (T : list (Transaction R)) :
  NoDup (map (@DeclineCodeAnalysis.code R) (getDeclineImpact T)).
Proof.
  apply (Permutation_NoDup (Permutation_sym (getDeclineImpact_codes T))).
  apply (grouping_NoDup DeclineCode_eqb DeclineCode_eqb_spec). constructor.
Qed.

Lemma getDeclineImpact_at_most_ten (T : list (Transaction R)) :
  List.length (getDeclineImpact T) <= 10.
Proof.
  rewrite <- (length_map (@DeclineCodeAnalysis.code R)).
  apply (@NoDup_incl_length _ _
           [insufficient_funds; card_expired; suspected_fraud; do_not_honor;
            issuer_unavailable; invalid_card_number;
            transaction_not_permitted; processing_error; timeout;
            lost_stolen_card] (getDeclineImpact_codes_NoDup T)).
  intros c _. destruct c; simpl; tauto.
Qed.

(** X16. The bar chart of decline codes shows every row of the analysis:
    with at most ten decline codes the cut to ten rows drops nothing, so
    its data is the rows of [getDeclineImpact] in another order, with
    pairwise different codes and pairwise different descriptions, and it
    is empty exactly when the analysis is. *)
Theorem declineImpactChartData_shows_every_row (T : list (Transaction R)) :
  Permutation (declineImpactChartData T)
              (map impact_point (getDeclineImpact T))
  /\ List.length (declineImpactChartData T) <= 10
  /\ NoDup (map (@DeclineImpactDataPoint.code R) (declineImpactChartData T))
  /\ NoDup (map (@DeclineImpactDataPoint.description R)
                (declineImpactChartData T))
  /\ (declineImpactChartData T = [] <-> getDeclineImpact T = []).
Proof.
  assert (Hperm : Permutation (declineImpactChartData T)
                              (map impact_point (getDeclineImpact T))).
  { unfold declineImpactChartData. rewrite firstn_all2.
    - apply Permutation_map, Array_sort_perm.
    - rewrite Array_sort_length. apply getDeclineImpact_at_most_ten. }
  assert (Hcodes : NoDup (map (@DeclineImpactDataPoint.code R)
                              (declineImpactChartData T))).
  { apply (Permutation_NoDup
             (Permutation_sym (Permutation_map _ Hperm))).
    rewrite map_map. simpl. apply getDeclineImpact_codes_NoDup. }
  split; [exact Hperm|]. split; [|split; [exact Hcodes|split]].
  - rewrite (Permutation_length Hperm), length_map.
    apply getDeclineImpact_at_most_ten.
  - replace (map (@DeclineImpactDataPoint.description R)
                 (declineImpactChartData T))
      with (map (fun c => getDeclineDescription (DeclineCode_str c))
                (map (@DeclineImpactDataPoint.code R)
                     (declineImpactChartData T))).
    + apply NoDup_map_injective; [|exact Hcodes].
      intros a b _ _. apply getDeclineDescription_injective.
    + rewrite map_map. unfold declineImpactChartData. rewrite !map_map.
      reflexivity.
  - split; intros E.
    + apply Permutation_length in Hperm. rewrite E, length_map in Hperm.
      symmetry in Hperm. now apply length_zero_iff_nil in Hperm.
    + apply Permutation_length in Hperm. rewrite E in Hperm.
      now apply length_zero_iff_nil in Hperm.
Qed.

Variable localeCompare : string -> string -> Z.

(** X17. Whatever the column and the direction, the table shows the rows
    of the analysis, each once; and sorted by count, largest first, it
    shows them in the order of the analysis. *)
Theorem sortedDeclines_same_rows
        (T : list (Transaction R)) (column : SortColumn)
        (direction : SortDirection) :
  Permutation (sortedDeclines localeCompare T column direction)
              (getDeclineImpact T)
  /\ sortedDeclines localeCompare T sort_count desc = getDeclineImpact T.
Proof.
  split; [apply Array_sort_perm|].
  unfold sortedDeclines. apply Array_sort_of_sorted.
  apply (StronglySorted_impl_pairs
           (P := fun a b => DeclineCodeAnalysis.count b
                            <= DeclineCodeAnalysis.count a));
    [|apply getDeclineImpact_sorted].
  intros a b H. unfold compare_rows. lia.
Qed.

End Charts.

Section PaymentChart.
Context {R : Type} {num : Number R}.

Lemma PaymentMethod_str_of (v : string) :
  In v (dimension_values by_payment_method) ->
  exists m, v = PaymentMethod_str m.
Proof.
  simpl. intros [<-|[<-|[<-|[<-|[<-|[]]]]]];
    [exists credit_card|exists debit_card|exists pse|exists pix|exists boleto];
    reflexivity.
Qed.

(** X18. The payment-method chart has one bar for each payment method
    present in the input and no other bar, at most five, with pairwise
    different methods and labels; a bar's [total], which is at least 1,
    counts the transactions of the input paid by its method, [approved]
    the approved and [declined] the declined among them, so that they add
    up to [total]; and the totals add up to the length of the input. *)
Theorem paymentMethodChartData_bars (T : list (Transaction R)) :
  List.length (paymentMethodChartData T) <= 5
  /\ NoDup (map (@PaymentMethodDataPoint.paymentMethod R)
                (paymentMethodChartData T))
  /\ NoDup (map (@PaymentMethodDataPoint.displayName R)
                (paymentMethodChartData T))
  /\ (forall m,
         In (PaymentMethod_str m)
            (map (@PaymentMethodDataPoint.paymentMethod R)
                 (paymentMethodChartData T))
         <-> exists t, In t T /\ payment_method t = m)
  /\ Forall
       (fun b =>
          exists m,
            PaymentMethodDataPoint.paymentMethod b = PaymentMethod_str m
            /\ (exists t, In t T /\ payment_method t = m)
            /\ PaymentMethodDataPoint.total b = List.length (paid_by m T)
            /\ PaymentMethodDataPoint.approved b
               = List.length (approved_only (paid_by m T))
            /\ PaymentMethodDataPoint.declined b
               = List.length (declined_only (paid_by m T))
            /\ 1 <= PaymentMethodDataPoint.total b
            /\ PaymentMethodDataPoint.approved b
               + PaymentMethodDataPoint.declined b
               = PaymentMethodDataPoint.total b)
       (paymentMethodChartData T)
  /\ list_sum (map (@PaymentMethodDataPoint.total R) (paymentMethodChartData T))
     = List.length T.
Proof.
  unfold paymentMethodChartData.
  set (groups := groupByDimension T by_payment_method).
  pose proof (groupByDimension_NoDup T by_payment_method) as Hnd.
  pose proof (groupByDimension_known T by_payment_method) as Hknown.
  fold groups in Hnd, Hknown.
  split; [|split; [|split; [|split; [|split]]]].
  - rewrite length_map, <- (length_map (@DimensionAggregate.dimension R)).
    exact (NoDup_incl_length Hnd Hknown).
  - rewrite map_map. exact Hnd.
  - rewrite map_map. simpl.
    rewrite <- (map_map (@DimensionAggregate.dimension R)
                        getPaymentMethodDisplayName).
    apply NoDup_map_injective; [|exact Hnd].
    intros a b Ha Hb E.
    destruct (PaymentMethod_str_of (Hknown a Ha)) as [m ->].
    destruct (PaymentMethod_str_of (Hknown b Hb)) as [m' ->].
    f_equal. now apply getPaymentMethodDisplayName_injective.
  - intros m. rewrite map_map. simpl.
    change (In (PaymentMethod_str m)
               (map (@DimensionAggregate.dimension R) groups)
            <-> exists t, In t T /\ payment_method t = m).
    unfold groups. split.
    + intros Hin.
      apply (Permutation_in _ (groupByDimension_dimensions T by_payment_method))
        in Hin.
      apply (grouping_keys String.eqb String_eqb_true) in Hin.
      destruct Hin as [[]|[t [Ht Hk]]]. exists t. split; [exact Ht|].
      simpl in Hk. injection Hk as Hk.
      apply PaymentMethod_eqb_spec. unfold PaymentMethod_eqb.
      rewrite Hk. apply String.eqb_refl.
    + intros [t [Ht <-]].
      apply (Permutation_in
               _ (Permutation_sym
                    (groupByDimension_dimensions T by_payment_method))).
      apply (grouping_keys String.eqb String_eqb_true). right.
      exists t. split; [exact Ht|reflexivity].
  - apply Forall_map. unfold groups, groupByDimension.
    apply (Permutation_Forall
             (x := map aggregate (group_by_value by_payment_method T)));
      [symmetry; apply Array_sort_perm|].
    apply Forall_forall. intros g Hg. apply in_map_iff in Hg.
    destruct Hg as [[k vs] [<- Hin]]. rewrite group_by_value_grouping in Hin.
    pose proof Hin as Hne.
    apply (grouping_entry_not_empty String.eqb String_eqb_true) in Hne.
    pose proof Hin as Hk.
    apply (in_map fst) in Hk. simpl in Hk.
    apply (grouping_keys String.eqb String_eqb_true) in Hk.
    destruct Hk as [[]|[t [Ht Hkt]]]. simpl in Hkt. inversion Hkt; subst k.
    apply (grouping_entry String.eqb String_eqb_true) in Hin.
    change (vs = paid_by (payment_method t) T) in Hin. subst vs.
    simpl. pose proof (approved_declined_length (paid_by (payment_method t) T)).
    exists (payment_method t).
    split; [reflexivity|]. split; [now exists t|].
    split; [reflexivity|]. split; [reflexivity|]. split; [reflexivity|].
    split; [|lia].
    destruct (paid_by (payment_method t) T); [now elim Hne|simpl; lia].
  - rewrite map_map. simpl.
    change (list_sum (map (@DimensionAggregate.total R) groups)
            = List.length T).
    unfold groups. rewrite groupByDimension_sorted_total.
    unfold with_some_value. f_equal. apply filter_all. reflexivity.
Qed.

End PaymentChart.

(** ** The sort state of the decline table *)

(** X19. A click on a column header makes it the sort column; a column
    that was not the sort column starts largest first; a second click on
    the same header reverses the direction, and a third click is worth
    one; and the arrow is shown on the sort column only. *)
Theorem handleSort_cycles (s : SortState) (c : SortColumn) :
  sortColumn (handleSort c s) = c
  /\ (sortColumn s <> c -> sortDirection (handleSort c s) = desc)
  /\ sortDirection (handleSort c (handleSort c s))
     <> sortDirection (handleSort c s)
  /\ handleSort c (handleSort c (handleSort c s)) = handleSort c s
  /\ (sortColumn s = c -> handleSort c (handleSort c s) = s)
  /\ (forall c', renderSortIcon s c' = " ⬍" <-> c' <> sortColumn s).
Proof.
  destruct s as [col dir].
  repeat split;
    try (destruct col, c, dir; simpl; try reflexivity; try discriminate;
         intros H; try discriminate; try reflexivity; now elim H).
  - destruct col, c', dir; simpl; intros H; try discriminate H;
      intros E; discriminate E.
  - destruct col, c', dir; simpl; intros H; try reflexivity; now elim H.
Qed.

(** ** Order of the bars in exact arithmetic *)

Lemma Q_sign_nonpos (x : Q) : (num_sign x <= 0)%Z <-> (x <= 0)%Q.
Proof.
  simpl. rewrite Qle_alt. destruct (x ?= 0)%Q; split; intros H;
    try lia; try discriminate; try (intros E; discriminate E).
  now elim H.
Qed.

Lemma Q_sub_nonpos (a b : Q) : (b - a <= 0)%Q <-> (b <= a)%Q.
Proof.
  rewrite (Qle_minus_iff b a), (Qle_minus_iff (b - a) 0).
  assert (E : (0 + - (b - a) == a + - b)%Q) by ring.
  now rewrite E.
Qed.

(** X20. In exact arithmetic the bars of the decline-code chart are in the
    order of their lost revenue, largest first. *)
Theorem declineImpactChartData_sorted_exact (T : list (Transaction Q)) :
  StronglySorted
    (fun a b => (DeclineImpactDataPoint.lostRevenue b
                 <= DeclineImpactDataPoint.lostRevenue a)%Q)
    (declineImpactChartData T).
Proof.
  unfold declineImpactChartData.
  rewrite firstn_all2
    by (rewrite Array_sort_length; apply getDeclineImpact_at_most_ten).
  apply (StronglySorted_map impact_point
           (fun a b => (DeclineImpactDataPoint.lostRevenue b
                        <= DeclineImpactDataPoint.lostRevenue a)%Q)).
  apply (@Array_sort_sorted
           _ by_lostRevenue_desc
           (fun a b => (DeclineCodeAnalysis.lostRevenue b
                        <= DeclineCodeAnalysis.lostRevenue a)%Q)
           (fun _ => True)).
  - intros a b _ _ H. unfold by_lostRevenue_desc in H.
    apply Q_sign_nonpos in H.
    now apply (Q_sub_nonpos (DeclineCodeAnalysis.lostRevenue a)
                            (DeclineCodeAnalysis.lostRevenue b)) in H.
  - intros a b _ _ H. unfold by_lostRevenue_desc in H.
    destruct (Qlt_le_dec (DeclineCodeAnalysis.lostRevenue a)
                         (DeclineCodeAnalysis.lostRevenue b)) as [Hlt|Hle].
    + now apply Qlt_le_weak.
    + apply (Q_sub_nonpos (DeclineCodeAnalysis.lostRevenue a)
                          (DeclineCodeAnalysis.lostRevenue b)) in Hle.
      apply Q_sign_nonpos in Hle.
      change (num_sub (DeclineCodeAnalysis.lostRevenue b)
                      (DeclineCodeAnalysis.lostRevenue a))
        with (DeclineCodeAnalysis.lostRevenue b
              - DeclineCodeAnalysis.lostRevenue a)%Q in H.
      lia.
  - intros a b c _ _ _ H1 H2. eapply Qle_trans; eassumption.
  - apply Forall_forall. trivial.
Qed.

(** ** The decline trend chart *)

Section TrendChartProperties.
Context {R : Type} {num : Number R}.
Variable Date_of_string : string -> JSDate.
Variable format : JSDate -> string -> option string.
Variable startOfWeek : JSDate -> JSDate.
Variable startOfMonth : JSDate -> JSDate.

Lemma trend_points_Some (l : list (TimeSeriesDataPoint.t R))
      (pts : list DeclineTrendDataPoint.t) :
  trend_points Date_of_string format l = Some pts ->
  map DeclineTrendDataPoint.date pts = map (@TimeSeriesDataPoint.date R) l
  /\ map DeclineTrendDataPoint.declined pts
     = map (@TimeSeriesDataPoint.declined R) l.
Proof.
  revert pts. induction l as [|p l IH]; simpl; intros pts H.
  - inversion H. now split.
  - destruct (Formatters.formatDate Date_of_string format
                (inl (TimeSeriesDataPoint.date p)) "MMM dd"); [|discriminate].
    destruct (trend_points Date_of_string format l) as [pts'|];
      [|discriminate].
    inversion H; subst. destruct (IH pts' eq_refl) as [H1 H2].
    simpl. now rewrite H1, H2.
Qed.

Lemma trend_points_None (l : list (TimeSeriesDataPoint.t R)) :
  trend_points Date_of_string format l = None ->
  exists p, In p l
            /\ format (Date_of_string (TimeSeriesDataPoint.date p)) "MMM dd"
               = None.
Proof.
  induction l as [|p l IH]; simpl; intros H; [discriminate|].
  destruct (Formatters.formatDate Date_of_string format
              (inl (TimeSeriesDataPoint.date p)) "MMM dd") eqn:E.
  - destruct (trend_points Date_of_string format l); [discriminate|].
    destruct (IH eq_refl) as [p' [Hin Hp']]. exists p'. split; [now right|].
    exact Hp'.
  - exists p. split; [now left|exact E].
Qed.

(** The points of a time series are those of its dictionary, sorted. *)
Lemma groupByTime_Some (L : list (Transaction R)) (g : TimeGranularity)
      (points : list (TimeSeriesDataPoint.t R)) :
  groupByTime Date_of_string format startOfWeek startOfMonth L g = Some points ->
  points
  = Array_sort by_timestamp_asc
      (map (data_point Date_of_string)
           (grouping String.eqb
              (fun t => formatDate format startOfWeek startOfMonth g
                                   (Date_of_string (timestamp t)))
              [] L))
  /\ (forall t, In t L ->
                formatDate format startOfWeek startOfMonth g
                           (Date_of_string (timestamp t)) <> None).
Proof.
  unfold groupByTime. intros Hp.
  destruct (group_by_date Date_of_string format startOfWeek startOfMonth
                          g [] L) as [G|] eqn:E; [|discriminate].
  inversion Hp; subst points; clear Hp.
  assert (Hok : forall t, In t L ->
                  formatDate format startOfWeek startOfMonth g
                             (Date_of_string (timestamp t)) <> None).
  { intros t Ht Hn.
    rewrite (group_by_date_rejects _ _ _ _ g L []) in E; [discriminate|].
    now exists t. }
  rewrite (group_by_date_grouping _ _ _ _ g L [] Hok) in E.
  inversion E; subst G. now split.
Qed.

(** X21. The trend chart is built from the declined transactions alone:
    when it is drawn, its points carry pairwise different dates, each
    point counts at least one decline, and the counts add up to the number
    of declined transactions; it fails only when date-fns rejects the
    timestamp of a declined transaction or the date of a point. *)
Theorem declineTrendChartData_points (T : list (Transaction R)) :
  match declineTrendChartData Date_of_string format startOfWeek startOfMonth T
  with
  | Some points =>
      NoDup (map DeclineTrendDataPoint.date points)
      /\ Forall (fun p => 1 <= DeclineTrendDataPoint.declined p) points
      /\ list_sum (map DeclineTrendDataPoint.declined points)
         = List.length (declined_only T)
  | None =>
      (exists t, In t T /\ status t = declined
                 /\ format (Date_of_string (timestamp t)) "yyyy-MM-dd" = None)
      \/ (exists t d, In t T /\ status t = declined
                      /\ format (Date_of_string (timestamp t)) "yyyy-MM-dd"
                         = Some d
                      /\ format (Date_of_string d) "MMM dd" = None)
  end.
Proof.
  unfold declineTrendChartData.
  destruct (groupByTime Date_of_string format startOfWeek startOfMonth
                        (declined_only T) day) as [daily|] eqn:E.
  - destruct (groupByTime_Some _ _ E) as [Hdaily Hok].
    set (key := fun t : Transaction R =>
                  formatDate format startOfWeek startOfMonth day
                             (Date_of_string (timestamp t))) in *.
    set (G := grouping String.eqb key [] (declined_only T)) in *.
    assert (Hperm : Permutation daily (map (data_point Date_of_string) G)).
    { rewrite Hdaily. apply Array_sort_perm. }
    assert (Hentry : forall k vs, In (k, vs) G ->
                       vs <> [] /\ incl vs (declined_only T)
                       /\ exists t, In t (declined_only T) /\ key t = Some k).
    { intros k vs Hin. pose proof Hin as Hne.
      apply (grouping_entry_not_empty String.eqb String_eqb_true) in Hne.
      pose proof Hin as Hk. apply (in_map fst) in Hk.
      apply (grouping_keys String.eqb String_eqb_true) in Hk.
      destruct Hk as [[]|Hk].
      apply (grouping_entry String.eqb String_eqb_true) in Hin. subst vs.
      repeat split; trivial. intros t Ht. now apply filter_In in Ht. }
    destruct (trend_points Date_of_string format daily) as [pts|] eqn:Et.
    + destruct (trend_points_Some daily Et) as [Hd Hn]. split; [|split].
      * rewrite Hd.
        apply (Permutation_NoDup
                 (Permutation_sym (Permutation_map _ Hperm))).
        rewrite (proj1 (data_point_fields Date_of_string G)).
        apply (grouping_NoDup String.eqb String_eqb_true). constructor.
      * apply Forall_map. rewrite Hn. apply Forall_map.
        apply (Permutation_Forall (Permutation_sym Hperm)).
        apply Forall_forall. intros p Hp. apply in_map_iff in Hp.
        destruct Hp as [[k vs] [<- Hin]].
        destruct (Hentry k vs Hin) as (Hne & Hincl & _). simpl.
        unfold declined_only. rewrite filter_all.
        -- destruct vs; [now elim Hne|simpl; lia].
        -- intros t Ht. apply Hincl in Ht. unfold declined_only in Ht.
           now apply filter_In in Ht.
      * rewrite Hn.
        rewrite (list_sum_perm (Permutation_map _ Hperm)).
        transitivity (held G).
        -- unfold held. clear Hperm Hdaily E Et Hd Hn.
           assert (Hall : forall k vs, In (k, vs) G ->
                            List.length (declined_only vs) = List.length vs).
           { intros k vs Hin. destruct (Hentry k vs Hin) as (_ & Hincl & _).
             unfold declined_only at 1. rewrite filter_all; [reflexivity|].
             intros t Ht. apply Hincl in Ht. unfold declined_only in Ht.
             now apply filter_In in Ht. }
           clear Hentry. induction G as [|[k vs] G' IH]; [reflexivity|].
           simpl. rewrite (Hall k vs (or_introl eq_refl)). f_equal.
           apply IH. intros k' vs' Hin. apply (Hall k' vs'). now right.
        -- unfold G. rewrite grouping_held. simpl. f_equal.
           apply filter_all. intros t Ht. unfold has_key.
           specialize (Hok t Ht). change (key t <> None) in Hok.
           destruct (key t); [reflexivity|now elim Hok].
    + right. destruct (trend_points_None daily Et) as [p [Hp Hfail]].
      apply (Permutation_in _ Hperm) in Hp. apply in_map_iff in Hp.
      destruct Hp as [[k vs] [<- Hin]].
      destruct (Hentry k vs Hin) as (_ & _ & t & Ht & Hk).
      unfold declined_only in Ht. apply filter_In in Ht.
      exists t, k. simpl in Hfail. unfold key in Hk. simpl in Hk.
      destruct Ht as [Ht Hs]. repeat split; trivial.
      now destruct (status t).
  - left. unfold groupByTime in E.
    destruct (group_by_date Date_of_string format startOfWeek startOfMonth
                            day [] (declined_only T)) eqn:Eg; [discriminate|].
    destruct (group_by_date_None _ _ _ _ day (declined_only T) [] Eg)
      as [t [Ht Hf]].
    unfold declined_only in Ht. apply filter_In in Ht. destruct Ht as [Ht Hs].
    exists t. repeat split; trivial. now destruct (status t).
Qed.

End TrendChartProperties.

(** ** The verification script *)

Lemma has_In (set : list string) (x : string) : has set x = true <-> In x set.
Proof.
  unfold has. rewrite existsb_exists. split.
  - intros [y [Hy E]]. apply String.eqb_eq in E. now subst.
  - intros H. exists x. split; [exact H|apply String.eqb_refl].
Qed.

Lemma has_false (set : list string) (x : string) :
  has set x = false <-> ~ In x set.
Proof.
  rewrite <- has_In. destruct (has set x); split; congruence.
Qed.

Section Duplicates.
Context {R : Type}.

Lemma count_duplicates_snoc (l : list (Raw.Transaction R))
      (t : Raw.Transaction R) :
  count_duplicates (l ++ [t])
  = (fst (count_duplicates l) ++ [Raw.id t],
     if has (fst (count_duplicates l)) (Raw.id t)
     then snd (count_duplicates l) + 1 else snd (count_duplicates l)).
Proof.
  unfold count_duplicates. rewrite fold_left_app. simpl.
  now destruct (fold_left _ l ([], 0)).
Qed.

Lemma count_duplicates_ids (l : list (Raw.Transaction R)) :
  fst (count_duplicates l) = map (@Raw.id R) l.
Proof.
  induction l as [|t l IH] using rev_ind; [reflexivity|].
  rewrite count_duplicates_snoc, map_app. simpl. now rewrite IH.
Qed.

Lemma uniqueOriginal_snoc (l : list (Raw.Transaction R))
      (t : Raw.Transaction R) :
  uniqueOriginal (l ++ [t])
  = if negb (has (fst (uniqueOriginal l)) (Raw.id t))
    then (fst (uniqueOriginal l) ++ [Raw.id t], snd (uniqueOriginal l) ++ [t])
    else uniqueOriginal l.
Proof.
  unfold uniqueOriginal. rewrite fold_left_app. simpl.
  now destruct (fold_left _ l ([], [])).
Qed.

(** The ids seen are those of the transactions kept, and of all of them. *)
Lemma uniqueOriginal_seen (l : list (Raw.Transaction R)) :
  fst (uniqueOriginal l) = map (@Raw.id R) (snd (uniqueOriginal l))
  /\ (forall x, In x (fst (uniqueOriginal l)) <-> In x (map (@Raw.id R) l))
  /\ NoDup (fst (uniqueOriginal l))
  /\ incl (snd (uniqueOriginal l)) l.
Proof.
  induction l as [|t l (IH1 & IH2 & IH3 & IH4)] using rev_ind.
  - simpl. repeat split; try tauto; try constructor. intros x [].
  - rewrite uniqueOriginal_snoc.
    destruct (has (fst (uniqueOriginal l)) (Raw.id t)) eqn:E; simpl.
    + apply has_In in E. repeat split; trivial.
      * intros H. rewrite map_app, in_app_iff. left. now apply IH2.
      * rewrite map_app, in_app_iff. simpl. intros [H|[<-|[]]];
          [now apply IH2|exact E].
      * intros x Hx. apply in_or_app. left. now apply IH4.
    + apply has_false in E. repeat split.
      * rewrite map_app. simpl. now rewrite IH1.
      * rewrite map_app, !in_app_iff, IH2. tauto.
      * rewrite map_app, !in_app_iff, IH2. tauto.
      * apply NoDup_app; [exact IH3|constructor; [intros []|constructor]|].
        intros x Hx [<-|[]]. contradiction.
      * intros x Hx. apply in_app_or in Hx. apply in_or_app.
        destruct Hx as [Hx|Hx]; [left; now apply IH4|now right].
Qed.

Lemma duplicates_and_uniques (l : list (Raw.Transaction R)) :
  snd (count_duplicates l) + List.length (snd (uniqueOriginal l))
  = List.length l.
Proof.
  induction l as [|t l IH] using rev_ind; [reflexivity|].
  rewrite count_duplicates_snoc, uniqueOriginal_snoc, length_app. simpl.
  rewrite count_duplicates_ids.
  destruct (uniqueOriginal_seen l) as (_ & Hseen & _).
  destruct (has (map (@Raw.id R) l) (Raw.id t)) eqn:E.
  - apply has_In, Hseen, has_In in E. rewrite E. simpl. lia.
  - assert (E' : has (fst (uniqueOriginal l)) (Raw.id t) = false).
    { apply has_false. rewrite Hseen. now apply has_false. }
    rewrite E'. simpl. rewrite length_app. simpl. lia.
Qed.

Lemma no_duplicates_NoDup (l : list (Raw.Transaction R)) :
  snd (count_duplicates l) = 0 <-> NoDup (map (@Raw.id R) l).
Proof.
  induction l as [|t l IH] using rev_ind.
  - simpl. split; [constructor|reflexivity].
  - rewrite count_duplicates_snoc, count_duplicates_ids, map_app. simpl.
    destruct (has (map (@Raw.id R) l) (Raw.id t)) eqn:E.
    + apply has_In in E. split; [lia|]. intros H. exfalso.
      apply NoDup_remove_2 in H. rewrite app_nil_r in H. contradiction.
    + apply has_false in E. rewrite IH. split.
      * intros H. apply NoDup_app; [exact H|constructor; [intros []|constructor]|].
        intros x Hx [<-|[]]. contradiction.
      * intros H. apply NoDup_remove_1 in H. now rewrite app_nil_r in H.
Qed.

Lemma uniqueOriginal_of_unique (l : list (Raw.Transaction R)) :
  NoDup (map (@Raw.id R) l) -> snd (uniqueOriginal l) = l.
Proof.
  induction l as [|t l IH] using rev_ind; [reflexivity|].
  rewrite map_app. simpl. intros H.
  pose proof (NoDup_remove_2 _ _ _ H) as Hnot. rewrite app_nil_r in Hnot.
  apply NoDup_remove_1 in H. rewrite app_nil_r in H.
  rewrite uniqueOriginal_snoc.
  destruct (uniqueOriginal_seen l) as (_ & Hseen & _).
  assert (E : has (fst (uniqueOriginal l)) (Raw.id t) = false).
  { apply has_false. now rewrite Hseen. }
  rewrite E. simpl. now rewrite IH.
Qed.

(** X22. The clean-up keeps one transaction for each id of the file: the
    kept transactions come from the file, carry pairwise different ids
    and all the ids of the file, and are the whole file when its ids are
    already different; cleaning twice changes nothing; and the number of
    transactions removed is the verifier's count of duplicate ids. *)
Theorem uniqueOriginal_keeps_one_per_id (allData : list (Raw.Transaction R)) :
  NoDup (map (@Raw.id R) (snd (uniqueOriginal allData)))
  /\ incl (snd (uniqueOriginal allData)) allData
  /\ (forall i, In i (map (@Raw.id R) (snd (uniqueOriginal allData)))
                <-> In i (map (@Raw.id R) allData))
  /\ (NoDup (map (@Raw.id R) allData) <-> snd (uniqueOriginal allData) = allData)
  /\ snd (uniqueOriginal (snd (uniqueOriginal allData)))
     = snd (uniqueOriginal allData)
  /\ List.length allData - List.length (snd (uniqueOriginal allData))
     = snd (count_duplicates allData).
Proof.
  destruct (uniqueOriginal_seen allData) as (Hfst & Hseen & Hnd & Hincl).
  rewrite Hfst in Hnd, Hseen.
  split; [exact Hnd|]. split; [exact Hincl|]. split; [exact Hseen|].
  split; [|split].
  - split; [apply uniqueOriginal_of_unique|]. intros E. now rewrite <- E.
  - now apply uniqueOriginal_of_unique.
  - pose proof (duplicates_and_uniques allData). lia.
Qed.

Lemma originalTransactions_facts (allData : list (Raw.Transaction R)) :
  List.length (originalTransactions allData) <= 300
  /\ NoDup (map (@Raw.id R) (originalTransactions allData)).
Proof.
  assert (E : originalTransactions allData
              = firstn 300 (snd (uniqueOriginal allData))).
  { unfold originalTransactions.
    destruct (300 <=? List.length (snd (uniqueOriginal allData))) eqn:El;
      [reflexivity|].
    apply Nat.leb_gt in El. symmetry. apply firstn_all2. lia. }
  rewrite E. split; [apply firstn_le_length|].
  destruct (uniqueOriginal_seen allData) as (Hfst & _ & Hnd & _).
  rewrite Hfst in Hnd.
  rewrite <- (firstn_skipn 300 (snd (uniqueOriginal allData))), map_app in Hnd.
  now apply NoDup_app_remove_r in Hnd.
Qed.

(** X23. The original transactions the generator starts from are the first
    kept transactions, at most 300 of them, with pairwise different ids,
    so that the verifier counts no duplicate among them. *)
Theorem originalTransactions_unique (allData : list (Raw.Transaction R)) :
  List.length (originalTransactions allData) <= 300
  /\ originalTransactions allData
     = firstn 300 (snd (uniqueOriginal allData))
  /\ NoDup (map (@Raw.id R) (originalTransactions allData))
  /\ snd (count_duplicates (originalTransactions allData)) = 0.
Proof.
  assert (E : originalTransactions allData
              = firstn 300 (snd (uniqueOriginal allData))).
  { unfold originalTransactions.
    destruct (300 <=? List.length (snd (uniqueOriginal allData))) eqn:El;
      [reflexivity|].
    apply Nat.leb_gt in El. symmetry. apply firstn_all2. lia. }
  assert (Hnd : NoDup (map (@Raw.id R) (originalTransactions allData))).
  { rewrite E, <- firstn_map.
    destruct (uniqueOriginal_seen allData) as (Hfst & _ & Hnd & _).
    rewrite Hfst in Hnd.
    rewrite <- (firstn_skipn 300 (map (@Raw.id R) (snd (uniqueOriginal allData))))
      in Hnd.
    now apply NoDup_app_remove_r in Hnd. }
  split; [rewrite E; apply firstn_le_length|]. split; [exact E|].
  split; [exact Hnd|]. now apply no_duplicates_NoDup.
Qed.

End Duplicates.

Section Verdict.
Context {R : Type}.
Variable Date_of_string : string -> JSDate.
Variable inherited : string -> bool.

Lemma check_combination_spec (n : nat) (t : Raw.Transaction R) :
  match check_combination inherited n t with
  | Some m => n <= m /\ (m = n <-> valid_combination t)
  | None => own VALID_PAYMENT_METHODS (Raw.country t) = None
            /\ inherited (Raw.country t) = true
  end.
Proof.
  unfold check_combination, valid_combination.
  destruct (own VALID_PAYMENT_METHODS (Raw.country t)) as [ms|] eqn:Em.
  - destruct (own VALID_CURRENCIES (Raw.country t)) as [cur|] eqn:Ec.
    + destruct (String.eqb (Raw.currency t) cur) eqn:E;
        destruct (has ms (Raw.payment_method t)) eqn:Eh;
        (split; [lia|]); split; try lia; try reflexivity.
      * intros _. apply String.eqb_eq in E. subst. split; [reflexivity|].
        exists ms. split; [reflexivity|now apply has_In].
      * intros [_ [ms' [E' Hin]]]. inversion E'; subst.
        apply has_In in Hin. congruence.
      * intros [E' _]. inversion E'; subst.
        rewrite String.eqb_refl in E. discriminate.
      * intros [E' _]. inversion E'; subst.
        rewrite String.eqb_refl in E. discriminate.
    + destruct (has ms (Raw.payment_method t));
        (split; [lia|]); split; try lia; intros [E' _]; discriminate.
  - destruct (inherited (Raw.country t)); [now split|].
    split; [destruct (own VALID_CURRENCIES (Raw.country t)) as [cur|];
            [destruct (String.eqb (Raw.currency t) cur)|]; lia|].
    split.
    + destruct (own VALID_CURRENCIES (Raw.country t)) as [cur|];
        [destruct (String.eqb (Raw.currency t) cur)|]; lia.
    + intros [_ [ms [E _]]]. discriminate.
Qed.

Lemma count_invalid_spec (T : list (Raw.Transaction R)) (n : nat) :
  match count_invalid inherited n T with
  | Some m => n <= m /\ (m = n <-> Forall (@valid_combination R) T)
  | None => exists t, In t T
                      /\ own VALID_PAYMENT_METHODS (Raw.country t) = None
                      /\ inherited (Raw.country t) = true
  end.
Proof.
  revert n. induction T as [|t T IH]; simpl; intros n.
  - split; [lia|]. split; [constructor|reflexivity].
  - pose proof (check_combination_spec n t) as Ht.
    destruct (check_combination inherited n t) as [m|].
    + specialize (IH m). destruct Ht as [Hle Hiff].
      destruct (count_invalid inherited m T) as [k|].
      * destruct IH as [Hle' Hiff']. split; [lia|]. split.
        -- intros ->. assert (m = n) by lia. subst m.
           constructor; [now apply Hiff|now apply Hiff'].
        -- intros H. inversion H; subst.
           assert (m = n) by now apply Hiff. subst m. now apply Hiff'.
      * destruct IH as [t' [Hin H]]. exists t'. split; [now right|exact H].
    + exists t. split; [now left|exact Ht].
Qed.

Lemma count_invalid_None (T : list (Raw.Transaction R)) (n : nat) :
  (exists t, In t T /\ own VALID_PAYMENT_METHODS (Raw.country t) = None
             /\ inherited (Raw.country t) = true) ->
  count_invalid inherited n T = None.
Proof.
  revert n. induction T as [|t T IH]; simpl; intros n [t' [Hin [Ho Hi]]];
    [contradiction|].
  destruct Hin as [<-|Hin].
  - unfold check_combination. now rewrite Ho, Hi.
  - destruct (check_combination inherited n t); [|reflexivity].
    apply IH. now exists t'.
Qed.

Lemma count_timestamp_issues_spec (T : list (Raw.Transaction R)) (n : nat) :
  n <= count_timestamp_issues Date_of_string n T
  /\ (count_timestamp_issues Date_of_string n T = n
      <-> List.length T <= 1
          \/ Forall (fun t => Date_of_string (Raw.timestamp t) <> None) T).
Proof.
  revert n. induction T as [|prev T IH]; intros n.
  - simpl. split; [lia|]. split; [intros _; left; lia|reflexivity].
  - destruct T as [|curr T].
    + simpl. split; [lia|]. split; [intros _; left; lia|reflexivity].
    + change (count_timestamp_issues Date_of_string n (prev :: curr :: T))
        with (count_timestamp_issues Date_of_string
                (if isNaN (Date_of_string (Raw.timestamp prev))
                    || isNaN (Date_of_string (Raw.timestamp curr))
                 then n + 1 else n)
                (curr :: T)).
      destruct (IH (if isNaN (Date_of_string (Raw.timestamp prev))
                       || isNaN (Date_of_string (Raw.timestamp curr))
                    then n + 1 else n)) as [Hle Hiff].
      destruct (isNaN (Date_of_string (Raw.timestamp prev))
                || isNaN (Date_of_string (Raw.timestamp curr))) eqn:E.
      * split; [lia|]. split; [lia|].
        intros [H|H]; [simpl in H; lia|]. exfalso.
        inversion H as [|? ? Hp Hr]; subst. inversion Hr as [|? ? Hc _]; subst.
        apply orb_true_iff in E. unfold isNaN in E.
        destruct (Date_of_string (Raw.timestamp prev)),
                 (Date_of_string (Raw.timestamp curr));
          destruct E; try discriminate; congruence.
      * split; [exact Hle|]. rewrite Hiff.
        apply orb_false_iff in E. destruct E as [Ep Ec]. unfold isNaN in Ep, Ec.
        split.
        -- intros [H|H]; right.
           ++ destruct T; [|simpl in H; lia].
              constructor;
                [destruct (Date_of_string (Raw.timestamp prev)); congruence|].
              constructor; [|constructor].
              destruct (Date_of_string (Raw.timestamp curr)); congruence.
           ++ constructor; [|exact H].
              destruct (Date_of_string (Raw.timestamp prev)); congruence.
        -- intros [H|H]; [simpl in H; lia|]. right. now inversion H.
Qed.

Lemma decline_code_check_spec (n : nat) (t : Raw.Transaction R) :
  n <= decline_code_check n t
  /\ (decline_code_check n t = n <-> valid_decline_code t).
Proof.
  unfold decline_code_check, valid_decline_code.
  destruct (String.eqb_spec (Raw.status t) "approved") as [Ea|Ea];
    destruct (String.eqb_spec (Raw.status t) "declined") as [Ed|Ed];
    destruct (Raw.decline_code t) as [c|]; simpl;
    try (rewrite Ea in Ed; discriminate);
    (split; [lia|]); split; try lia;
    intuition (try discriminate; try congruence).
Qed.

Lemma decline_code_issues_from (T : list (Raw.Transaction R)) (n : nat) :
  n <= fold_left (@decline_code_check R) T n
  /\ (fold_left (@decline_code_check R) T n = n
      <-> Forall (@valid_decline_code R) T).
Proof.
  revert n. induction T as [|t T IH]; intros n.
  - simpl. split; [lia|]. split; [constructor|reflexivity].
  - cbn [fold_left].
    destruct (decline_code_check_spec n t) as [Hle Hiff].
    destruct (IH (decline_code_check n t)) as [Hle' Hiff'].
    split; [lia|]. split.
    + intros H. assert (E : decline_code_check n t = n) by lia.
      constructor; [now apply Hiff|]. apply Hiff'. now rewrite E in *.
    + intros H. inversion H as [|? ? Ht HT]; subst.
      apply Hiff in Ht. rewrite Ht in *. now apply Hiff'.
Qed.

(** X24. The verification script stops with a TypeError exactly on an
    empty file and on a country whose name the tables inherit.  Otherwise
    it prints "All validations passed" exactly when the ids are pairwise
    different, every transaction has the currency and a payment method of
    its country, an approved transaction has no decline code and a
    declined one has one, and, in a file of two transactions or more, every
    timestamp is a date; the timestamp of a file of one transaction is not
    looked at. *)
Theorem verify_verdict (T : list (Raw.Transaction R)) :
  (verify Date_of_string inherited T = None
   <-> T = []
       \/ exists t, In t T
                    /\ own VALID_PAYMENT_METHODS (Raw.country t) = None
                    /\ inherited (Raw.country t) = true)
  /\ (forall r,
         verify Date_of_string inherited T = Some r ->
         (Verification.passed r = true
          <-> NoDup (map (@Raw.id R) T)
              /\ Forall (@valid_combination R) T
              /\ Forall (@valid_decline_code R) T
              /\ (List.length T <= 1
                  \/ Forall (fun t => Date_of_string (Raw.timestamp t) <> None)
                            T))
         /\ (Verification.duplicateIds r = 0 <-> NoDup (map (@Raw.id R) T))
         /\ (Verification.invalidCombinations r = 0
             <-> Forall (@valid_combination R) T)
         /\ (Verification.declineCodeIssues r = 0
             <-> Forall (@valid_decline_code R) T)
         /\ (Verification.timestampIssues r = 0
             <-> List.length T <= 1
                 \/ Forall (fun t => Date_of_string (Raw.timestamp t) <> None)
                           T)).
Proof.
  unfold verify.
  pose proof (count_invalid_spec T 0) as Hinv.
  destruct (count_invalid inherited 0 T) as [m|] eqn:Em.
  - split.
    + destruct T as [|t T]; split; try discriminate.
      * intros _. now left.
      * reflexivity.
      * intros [H|H]; [discriminate|].
        rewrite (count_invalid_None (t :: T) 0 H) in Em. discriminate.
    + intros r Hr. destruct T as [|t T]; [discriminate|].
      inversion Hr; subst r; clear Hr. cbn [Verification.passed
        Verification.duplicateIds Verification.invalidCombinations
        Verification.declineCodeIssues Verification.timestampIssues].
      destruct Hinv as [_ Hinv].
      pose proof (no_duplicates_NoDup (t :: T)) as Hdup.
      destruct (count_timestamp_issues_spec (t :: T) 0) as [_ Hts].
      destruct (decline_code_issues_from (t :: T) 0) as [_ Hdc].
      fold (count_decline_code_issues (t :: T)) in Hdc.
      rewrite !andb_true_iff, !Nat.eqb_eq.
      rewrite Hdup, Hinv, Hts, Hdc. tauto.
  - split.
    + split; [|reflexivity]. intros _. right. exact Hinv.
    + intros r Hr. discriminate.
Qed.

End Verdict.

(* ------------------------------------------------------------------ *)
(** ** The id generator of [clean-and-generate] *)

Lemma string_length_append (a b : string) :
  String.length (a ++ b)%string = String.length a + String.length b.
Proof. induction a as [|c a IH]; simpl; [reflexivity|now rewrite IH]. Qed.

Lemma list_ascii_of_string_append (a b : string) :
  list_ascii_of_string (a ++ b)%string
  = list_ascii_of_string a ++ list_ascii_of_string b.
Proof. induction a as [|c a IH]; simpl; [reflexivity|now rewrite IH]. Qed.

Lemma chars_get (n : nat) :
  n < String.length chars ->
  exists c, String.get n chars = Some c /\ In c (list_ascii_of_string chars).
Proof.
  intros Hn.
  do 36 (destruct n as [|n];
         [eexists; split; [reflexivity|simpl; tauto]|]).
  simpl in Hn. lia.
Qed.

Lemma Set_of_from (values set : list string) :
  NoDup (set ++ values) ->
  fold_left (fun set x => if has set x then set else set ++ [x]) values set
  = set ++ values.
Proof.
  revert set. induction values as [|x values IH]; intros set H; simpl.
  - now rewrite app_nil_r.
  - assert (E : has set x = false).
    { apply has_false. intros Hin. apply NoDup_remove_2 in H.
      apply H. apply in_or_app. now left. }
    rewrite E. rewrite IH; rewrite <- app_assoc; [reflexivity|exact H].
Qed.

Lemma Set_of_NoDup (values : list string) :
  NoDup values -> Set_of values = values.
Proof. intros H. unfold Set_of. now rewrite Set_of_from. Qed.

Section IdGenerator.
Variable randomBytes : nat -> nat -> Byte.byte.

Lemma idSuffix_from (indices : list nat) (call : nat) (s : string) :
  String.length
    (fold_left
       (fun idSuffix i =>
          let byte := Byte.to_nat (randomBytes call i) in
          (idSuffix ++ match String.get (byte mod String.length chars) chars with
                       | Some c => String c EmptyString
                       | None => "undefined"
                       end)%string)
       indices s)
  = String.length s + List.length indices
  /\ (Forall (fun c => In c (list_ascii_of_string chars))
             (list_ascii_of_string s) ->
      Forall (fun c => In c (list_ascii_of_string chars))
             (list_ascii_of_string
                (fold_left
                   (fun idSuffix i =>
                      let byte := Byte.to_nat (randomBytes call i) in
                      (idSuffix
                         ++ match String.get (byte mod String.length chars)
                                             chars with
                            | Some c => String c EmptyString
                            | None => "undefined"
                            end)%string)
                   indices s))).
Proof.
  match goal with |- context [fold_left ?g _ _] => set (f := g) end.
  revert s. induction indices as [|i indices IH]; intros s.
  - simpl. split; [lia|tauto].
  - cbn [fold_left].
    destruct (chars_get (n := Byte.to_nat (randomBytes call i)
                              mod String.length chars)) as [c [E Hc]].
    { apply Nat.mod_upper_bound. discriminate. }
    assert (Ef : f s i = (s ++ String c EmptyString)%string).
    { unfold f. cbv zeta. now rewrite E. }
    rewrite Ef.
    destruct (IH (s ++ String c EmptyString)%string) as [Hlen Hall].
    split.
    + rewrite Hlen, string_length_append. simpl. lia.
    + intros Hs. apply Hall. rewrite list_ascii_of_string_append.
      apply Forall_app. split; [exact Hs|]. simpl. now constructor.
Qed.

Lemma candidate_shape (call : nat) :
  String.length (candidate randomBytes call) = 20
  /\ exists suffix,
       candidate randomBytes call = ("txn_" ++ suffix)%string
       /\ String.length suffix = 16
       /\ Forall (fun c => In c (list_ascii_of_string chars))
                 (list_ascii_of_string suffix).
Proof.
  destruct (idSuffix_from (seq 0 16) call "") as [Hlen Hall].
  change (String.length (idSuffix randomBytes call) = 16) in Hlen.
  change (Forall (fun c => In c (list_ascii_of_string chars)) [] ->
          Forall (fun c => In c (list_ascii_of_string chars))
                 (list_ascii_of_string (idSuffix randomBytes call))) in Hall.
  unfold candidate. split.
  - rewrite string_length_append, Hlen. reflexivity.
  - exists (idSuffix randomBytes call).
    split; [reflexivity|]. split; [exact Hlen|].
    apply Hall. constructor.
Qed.

Lemma attempt_spec (existingIds : list string) (fuel attempts call : nat) :
  fuel + attempts = maxAttempts -> 0 < fuel ->
  match attempt randomBytes fuel attempts call existingIds with
  | Some (Returned id ids calls) =>
      exists j, j < fuel - 1
                /\ id = candidate randomBytes (call + j)
                /\ calls = call + j + 1
                /\ ~ In id existingIds
                /\ (forall i, i < j ->
                              In (candidate randomBytes (call + i)) existingIds)
                /\ ids = existingIds ++ [id]
  | Some Thrown =>
      forall i, i < fuel - 1 ->
                In (candidate randomBytes (call + i)) existingIds
  | None => False
  end.
Proof.
  revert attempts call. induction fuel as [|fuel IH]; intros attempts call E Hf;
    [lia|].
  cbn [attempt]. cbv zeta.
  destruct (Nat.leb_spec maxAttempts (attempts + 1)) as [Hmax|Hmax].
  - intros i Hi. lia.
  - destruct (has existingIds (candidate randomBytes call)) eqn:Eh.
    + apply has_In in Eh.
      specialize (IH (attempts + 1) (call + 1)).
      destruct (attempt randomBytes fuel (attempts + 1) (call + 1) existingIds)
        as [[id ids calls|]|].
      * destruct IH as [j (Hj & Hid & Hc & Hnew & Hold & Hids)]; [lia|lia|].
        exists (S j). split; [lia|].
        split; [now replace (call + S j) with (call + 1 + j) by lia|].
        split; [lia|]. split; [exact Hnew|]. split; [|exact Hids].
        intros [|i] Hi.
        -- now rewrite Nat.add_0_r.
        -- replace (call + S i) with (call + 1 + i) by lia. apply Hold. lia.
      * intros [|i] Hi.
        -- now rewrite Nat.add_0_r.
        -- replace (call + S i) with (call + 1 + i) by lia.
           apply IH; lia.
      * apply IH; lia.
    + apply has_false in Eh. exists 0. rewrite Nat.add_0_r.
      split; [lia|]. split; [reflexivity|]. split; [lia|].
      split; [exact Eh|]. split; [intros i Hi; lia|reflexivity].
Qed.

Lemma maxAttempts_positive : 0 < maxAttempts.
Proof. apply Nat.ltb_lt. vm_compute. reflexivity. Qed.

Lemma generateTransactionId_spec (existingIds : list string) (call : nat) :
  match generateTransactionId randomBytes existingIds call with
  | Some (Returned id ids calls) =>
      exists j, j < maxAttempts - 1
                /\ id = candidate randomBytes (call + j)
                /\ calls = call + j + 1
                /\ ~ In id existingIds
                /\ (forall i, i < j ->
                              In (candidate randomBytes (call + i)) existingIds)
                /\ ids = existingIds ++ [id]
  | Some Thrown =>
      forall i, i < maxAttempts - 1 ->
                In (candidate randomBytes (call + i)) existingIds
  | None => False
  end.
Proof.
  unfold generateTransactionId. apply attempt_spec.
  - lia.
  - apply maxAttempts_positive.
Qed.

(** X25. [generateTransactionId] ends within [maxAttempts] draws.  It throws
    exactly when the first [maxAttempts - 1] candidates are all taken, the
    last draw being made but never looked up.  Otherwise it returns the
    first candidate that is not taken and adds it to the set; the id is
    "txn_" followed by 16 characters of [chars]. *)
Theorem generateTransactionId_first_unused
        (existingIds : list string) (call : nat) :
  (exists g, generateTransactionId randomBytes existingIds call = Some g)
  /\ (generateTransactionId randomBytes existingIds call = Some Thrown
      <-> forall i, i < maxAttempts - 1 ->
                    In (candidate randomBytes (call + i)) existingIds)
  /\ (forall id ids calls,
         generateTransactionId randomBytes existingIds call
         = Some (Returned id ids calls) ->
         ~ In id existingIds
         /\ ids = existingIds ++ [id]
         /\ (exists j, j < maxAttempts - 1
                       /\ id = candidate randomBytes (call + j)
                       /\ calls = call + j + 1
                       /\ forall i, i < j ->
                            In (candidate randomBytes (call + i)) existingIds)
         /\ String.length id = 20
         /\ exists suffix,
              id = ("txn_" ++ suffix)%string
              /\ String.length suffix = 16
              /\ Forall (fun c => In c (list_ascii_of_string chars))
                        (list_ascii_of_string suffix)).
Proof.
  pose proof (generateTransactionId_spec existingIds call) as H.
  destruct (generateTransactionId randomBytes existingIds call)
    as [[id ids calls|]|]; [| |contradiction].
  - destruct H as [j (Hj & Hid & Hc & Hnew & Hold & Hids)].
    split; [eexists; reflexivity|]. split.
    + split; [discriminate|]. intros Hall. exfalso. apply Hnew.
      rewrite Hid. now apply Hall.
    + intros id' ids' calls' E. inversion E; subst id' ids' calls'; clear E.
      split; [exact Hnew|]. split; [exact Hids|].
      split; [exists j; tauto|].
      rewrite Hid. apply candidate_shape.
  - split; [eexists; reflexivity|]. split.
    + split; [intros _; exact H|reflexivity].
    + intros id ids calls E. discriminate.
Qed.

Lemma newIds_spec (newCount : nat) :
  forall (call : nat) (existingIds ids final : list string),
    newIds randomBytes newCount call existingIds = Some (ids, final) ->
    final = existingIds ++ ids
    /\ List.length ids = newCount
    /\ (NoDup existingIds -> NoDup (existingIds ++ ids))
    /\ Forall (fun id => String.length id = 20) ids.
Proof.
  induction newCount as [|newCount IH]; intros call existingIds ids final E.
  - simpl in E. inversion E; subst. rewrite app_nil_r.
    split; [reflexivity|]. split; [reflexivity|]. split; [tauto|constructor].
  - cbn [newIds] in E.
    pose proof (generateTransactionId_spec existingIds call) as H.
    destruct (generateTransactionId randomBytes existingIds call)
      as [[id ids1 calls|]|]; try discriminate.
    destruct H as [j (Hj & Hid & Hc & Hnew & Hold & Hids)].
    destruct (newIds randomBytes newCount calls ids1) as [[rest final']|] eqn:En;
      [|discriminate].
    inversion E; subst ids final'; clear E.
    destruct (IH _ _ _ _ En) as (Hfinal & Hlen & Hnd & Hshape).
    subst ids1. rewrite <- app_assoc in Hfinal, Hnd. simpl in Hfinal, Hnd.
    split; [exact Hfinal|]. split; [simpl; lia|]. split.
    + intros H. apply Hnd. apply NoDup_app; [exact H| |].
      * constructor; [intros []|constructor].
      * intros x Hx [<-|[]]. contradiction.
    + constructor; [|exact Hshape]. rewrite Hid. apply candidate_shape.
Qed.

(** X26. When the generation loop of [main] completes, it has made exactly
    the number of ids asked for, each of 20 characters, it has added them
    to the set in order, and, the set it started from having no id twice,
    no id of the set it leaves is there twice: a new id differs from every
    id that existed and from every other new id. *)
Theorem newIds_unique (newCount call : nat) (existingIds ids final : list string) :
  NoDup existingIds ->
  newIds randomBytes newCount call existingIds = Some (ids, final) ->
  final = existingIds ++ ids
  /\ List.length ids = newCount
  /\ NoDup final
  /\ NoDup ids
  /\ (forall id, In id ids -> ~ In id existingIds)
  /\ Forall (fun id => String.length id = 20) ids.
Proof.
  intros Hnd E.
  destruct (newIds_spec _ _ _ E) as (Hfinal & Hlen & Hnd' & Hshape).
  specialize (Hnd' Hnd).
  split; [exact Hfinal|]. split; [exact Hlen|].
  split; [now rewrite Hfinal|].
  split; [now apply NoDup_app_remove_l in Hnd'|].
  split; [|exact Hshape].
  intros id Hin Hold. revert Hold Hin.
  clear - Hnd'. induction existingIds as [|x l IH]; [intros []|].
  simpl in Hnd'. inversion Hnd' as [|? ? Hx Hl]; subst.
  intros [<-|Hold] Hin.
  - apply Hx. apply in_or_app. now right.
  - now apply (IH Hl).
Qed.

Section Main.
Context {R : Type}.

(** X27. When [main] of [clean-and-generate] gets to its last duplicate
    check, [allTransactions] holds 600 transactions, the original ones
    first and at least 300 generated ones, and no id twice, so that the
    check finds nothing.  On a file without transactions the script stops
    with a TypeError. *)
Theorem allTransactions_ids_unique (allData : list (Raw.Transaction R)) :
  (allData = [] -> allTransactions_ids randomBytes allData = None)
  /\ (forall allIds,
         allTransactions_ids randomBytes allData = Some allIds ->
         List.length allIds = 600
         /\ NoDup allIds
         /\ (exists ids,
                allIds = map (@Raw.id R) (originalTransactions allData) ++ ids
                /\ List.length ids
                   = 600 - List.length (originalTransactions allData)
                /\ 300 <= List.length ids)
         /\ forall allTransactions : list (Raw.Transaction R),
              map (@Raw.id R) allTransactions = allIds ->
              snd (count_duplicates allTransactions) = 0).
Proof.
  split; [intros ->; reflexivity|].
  intros allIds E. unfold allTransactions_ids in E. cbv zeta in E.
  destruct (originalTransactions_facts allData) as (Hlen & Hnd).
  rewrite (Set_of_NoDup Hnd) in E.
  destruct (originalTransactions allData) as [|t originals] eqn:Eo;
    [discriminate|].
  destruct (newIds randomBytes (600 - List.length (t :: originals)) 0
                   (map (@Raw.id R) (t :: originals)))
    as [[ids final]|] eqn:En; [|discriminate].
  injection E as <-.
  destruct (newIds_spec _ _ _ En) as (Hfinal & Hlen' & Hnd' & _).
  specialize (Hnd' Hnd).
  change (Raw.id t :: map (@Raw.id R) originals ++ ids)
    with (map (@Raw.id R) (t :: originals) ++ ids).
  split; [rewrite length_app, length_map, Hlen'; lia|].
  split; [exact Hnd'|]. split.
  - exists ids. split; [reflexivity|]. split; [exact Hlen'|]. lia.
  - intros allTransactions Hids. apply no_duplicates_NoDup.
    now rewrite Hids.
Qed.

End Main.
End IdGenerator.

Lemma newIds_unique_witness :
  ["txn_aaaaaaaaaaaaaaaa"; "txn_bbbbbbbbbbbbbbbb"; "txn_cccccccccccccccc"]
  = ["txn_aaaaaaaaaaaaaaaa"]
      ++ ["txn_bbbbbbbbbbbbbbbb"; "txn_cccccccccccccccc"]
  /\ List.length ["txn_bbbbbbbbbbbbbbbb"; "txn_cccccccccccccccc"] = 2
  /\ NoDup ["txn_aaaaaaaaaaaaaaaa"; "txn_bbbbbbbbbbbbbbbb";
            "txn_cccccccccccccccc"]
  /\ NoDup ["txn_bbbbbbbbbbbbbbbb"; "txn_cccccccccccccccc"]
  /\ (forall id,
         In id ["txn_bbbbbbbbbbbbbbbb"; "txn_cccccccccccccccc"] ->
         ~ In id ["txn_aaaaaaaaaaaaaaaa"])
  /\ Forall (fun id => String.length id = 20)
            ["txn_bbbbbbbbbbbbbbbb"; "txn_cccccccccccccccc"].
Proof.
  apply (@newIds_unique randomBytes_sample 2 0 ["txn_aaaaaaaaaaaaaaaa"]).
  - constructor; [intros []|constructor].
  - vm_compute. reflexivity.
Defined.
